(** * Uptime monitor: the monitor execution engine

    A shallow embedding of [server/monitorService.ts] and
    [server/notifier.js]: the retry-based status state machine, the
    comparator, the protocol probe executors, the check pipeline and the
    notification fan-out, followed by the properties proved about them. *)

From Stdlib Require Import ZArith QArith Qround String Ascii List Bool Lia DecimalString.
From stdpp Require Import base option list gmap strings.
Import ListNotations.

Local Open Scope string_scope.
Local Open Scope Z_scope.

(** ** JavaScript values

    The probes handle values of type [unknown]: what [JSON.parse]
    returns, what a driver hands back, what a JSON column holds. *)

(** A JavaScript number: not-a-number, an infinity, or a finite double,
    the latter represented by the rational it denotes ([+0] and [-0]
    denote the same rational and are [===]). *)
Inductive JsNumber :=
| NaN
| Infinity (negative : bool)
| Finite (q : Q).

#[local] Set Warnings "-register-all".

Inductive JsValue :=
| JUndefined
| JNull
| JBool (b : bool)
| JNum (n : JsNumber)
| JStr (s : string)
| JArr (items : list JsValue)
| JObj (props : list (string * JsValue)).

Definition num (z : Z) : JsValue := JNum (Finite (inject_Z z)).

(** [===] on two numbers. *)
Definition number_strict_eq (a b : JsNumber) : bool :=
  match a, b with
  | Finite p, Finite q => Qeq_bool p q
  | Infinity s, Infinity t => Bool.eqb s t
  | _, _ => false
  end.

(** [a < b] on two numbers; any comparison with [NaN] is false. *)
Definition number_lt (a b : JsNumber) : bool :=
  match a, b with
  | Finite p, Finite q => negb (Qle_bool q p)
  | Infinity true, Finite _ => true
  | Infinity true, Infinity false => true
  | Finite _, Infinity false => true
  | _, _ => false
  end.

Definition number_gt (a b : JsNumber) : bool := number_lt b a.

(** [Number.isFinite] *)
Definition Number_isFinite (n : JsNumber) : bool :=
  match n with Finite _ => true | _ => false end.

(** [typeof v === 'object' && v !== null] *)
Definition is_object (v : JsValue) : bool :=
  match v with JArr _ | JObj _ => true | _ => false end.

(** [v == null]: [null] or [undefined]. *)
Definition is_nullish (v : JsValue) : bool :=
  match v with JUndefined | JNull => true | _ => false end.

(** Truthiness, as [!v] and [v && ...] test it. *)
Definition truthy (v : JsValue) : bool :=
  match v with
  | JUndefined | JNull => false
  | JBool b => b
  | JNum NaN => false
  | JNum (Finite q) => negb (Qeq_bool q 0)
  | JNum (Infinity _) => true
  | JStr s => negb (String.eqb s "")
  | JArr _ | JObj _ => true
  end.

(** [l === r] when at most one side is an object: equal type and equal
    value.  (Two objects are [===] only when they are the same reference;
    [deepEqual] never asks for that case.) *)
Definition strict_eq_primitive (l r : JsValue) : bool :=
  match l, r with
  | JUndefined, JUndefined => true
  | JNull, JNull => true
  | JBool a, JBool b => Bool.eqb a b
  | JNum a, JNum b => number_strict_eq a b
  | JStr a, JStr b => String.eqb a b
  | _, _ => false
  end.

(** [o[key]] on the own properties of an object. *)
Fixpoint get_property (props : list (string * JsValue)) (key : string) : JsValue :=
  match props with
  | [] => JUndefined
  | (k, v) :: rest => if String.eqb k key then v else get_property rest key
  end.

(** [a ?? b] *)
Definition nullish_or (a b : JsValue) : JsValue :=
  if is_nullish a then b else a.

(** [value?.key] *)
Definition optional_member (value : JsValue) (key : string) : JsValue :=
  match value with
  | JObj props => get_property props key
  | _ => JUndefined
  end.

(** The built-ins of the runtime that the engine calls and that are not
    code of the repository.  [JSON_parse] answers [None] where
    [JSON.parse] throws. *)
Class Platform := {
  JSON_parse : string -> option JsValue;
  JSON_stringify : JsValue -> string;
  Number_toString : JsNumber -> string;
  String_toNumber : string -> JsNumber;
  Object_toString : JsValue -> string;
  Object_toNumber : JsValue -> JsNumber;
  (** the milliseconds after which a timer set with this delay fires *)
  timer_delay : JsNumber -> N;
  (** [new Date(text).toISOString()], [None] where it throws a RangeError *)
  Date_toISOString : string -> option string;
  (** the message of that RangeError *)
  invalid_date_message : string;
}.

(** White space that [String.prototype.trim] strips, among the ASCII
    characters: tab, line feed, vertical tab, form feed, carriage return,
    space. *)
Definition is_whitespace (c : ascii) : bool :=
  let n := nat_of_ascii c in
  ((9 <=? n)%nat && (n <=? 13)%nat) || (n =? 32)%nat.

Fixpoint trimStart (s : string) : string :=
  match s with
  | String c rest => if is_whitespace c then trimStart rest else s
  | EmptyString => EmptyString
  end.

Fixpoint trimEnd (s : string) : string :=
  match s with
  | EmptyString => EmptyString
  | String c rest =>
      match trimEnd rest with
      | EmptyString => if is_whitespace c then EmptyString else String c EmptyString
      | kept => String c kept
      end
  end.

Definition trim (s : string) : string := trimEnd (trimStart s).

Section Conversions.
Context `{Platform}.

(** [String(v)] *)
Definition ToString (v : JsValue) : string :=
  match v with
  | JUndefined => "undefined"
  | JNull => "null"
  | JBool true => "true"
  | JBool false => "false"
  | JNum n => Number_toString n
  | JStr s => s
  | JArr _ | JObj _ => Object_toString v
  end.

(** [Number(v)] *)
Definition ToNumber (v : JsValue) : JsNumber :=
  match v with
  | JUndefined => NaN
  | JNull => Finite 0
  | JBool true => Finite 1
  | JBool false => Finite 0
  | JNum n => n
  | JStr s => String_toNumber s
  | JArr _ | JObj _ => Object_toNumber v
  end.

(** [value == null ? undefined : String(value)] *)
Definition optional_string (value : JsValue) : option string :=
  if is_nullish value then None else Some (ToString value).

End Conversions.

(** ** The endpoint row and the status state machine *)

(** [type MonitorStatus = 'pending' | 'up' | 'down'] *)
Inductive MonitorStatus := pending | up | down.

(** [type MonitorType = 'http' | 'mysql' | 'redis' | 'nats' | 'tcp'] *)
Inductive MonitorType := http | mysql | redis | nats | tcp.

#[global] Instance MonitorStatus_eq_dec : EqDecision MonitorStatus.
Proof. solve_decision. Defined.

#[global] Instance MonitorType_eq_dec : EqDecision MonitorType.
Proof. solve_decision. Defined.

(** [interface MonitorEndpoint]: a row of [monitor_endpoints] joined with
    its group's name.  The [INT] columns are integers; nullable text
    columns are options; the two JSON columns hold whatever the driver
    returns for them.  [status] is read through [?? 'pending'], hence an
    option.  ([id], [name], [url] and [method] carry a prefix.) *)
Record MonitorEndpoint := {
  ep_id : Z;
  group_id : Z;
  group_name : option string;
  ep_name : string;
  monitor_type : MonitorType;
  ep_url : string;
  ep_method : string;
  headers_json : JsValue;
  body_text : option string;
  expected_status : Z;
  expected_json_path : option string;
  expected_json_value : option string;
  connection_json : JsValue;
  probe_command : option string;
  expected_probe_value : option string;
  interval_seconds : Z;
  down_retries : Z;
  up_retries : Z;
  status : option MonitorStatus;
  consecutive_failures : Z;
  consecutive_successes : Z;
  is_paused : Z;
}.

(** [interface StatusComputation] *)
Record StatusComputation := {
  sc_status : MonitorStatus;
  failures : Z;
  successes : Z;
}.

(** [Number(x) || d] on an integer column: [0] is the only falsy integer. *)
Definition number_or (x d : Z) : Z := if x =? 0 then d else x.

(** [computeStatus], monitorService.ts lines 173-202. *)
Definition computeStatus (endpoint : MonitorEndpoint) (checkPassed : bool)
  : StatusComputation :=
  let downRetries := Z.max 1 (number_or (down_retries endpoint) 1) in
  let upRetries := Z.max 1 (number_or (up_retries endpoint) 1) in
  let failures0 := number_or (consecutive_failures endpoint) 0 in
  let successes0 := number_or (consecutive_successes endpoint) 0 in
  let status0 := default pending (status endpoint) in
  if checkPassed then
    let successes1 := successes0 + 1 in
    let failures1 := 0 in
    let status1 :=
      match status0 with
      | down => if upRetries <=? successes1 then up else down
      | _ => up
      end in
    {| sc_status := status1; failures := failures1; successes := successes1 |}
  else
    let failures1 := failures0 + 1 in
    let successes1 := 0 in
    let status1 :=
      match status0 with
      | up => if downRetries <=? failures1 then down else up
      | _ => if downRetries <=? failures1 then down else status0
      end in
    {| sc_status := status1; failures := failures1; successes := successes1 |}.

(** The row as the next check reads it back: the [UPDATE] of [runCheck]
    stores the computed status and counters and leaves the configuration
    columns alone. *)
Definition with_computation (endpoint : MonitorEndpoint) (next : StatusComputation)
  : MonitorEndpoint :=
  {| ep_id := ep_id endpoint;
     group_id := group_id endpoint;
     group_name := group_name endpoint;
     ep_name := ep_name endpoint;
     monitor_type := monitor_type endpoint;
     ep_url := ep_url endpoint;
     ep_method := ep_method endpoint;
     headers_json := headers_json endpoint;
     body_text := body_text endpoint;
     expected_status := expected_status endpoint;
     expected_json_path := expected_json_path endpoint;
     expected_json_value := expected_json_value endpoint;
     connection_json := connection_json endpoint;
     probe_command := probe_command endpoint;
     expected_probe_value := expected_probe_value endpoint;
     interval_seconds := interval_seconds endpoint;
     down_retries := down_retries endpoint;
     up_retries := up_retries endpoint;
     status := Some (sc_status next);
     consecutive_failures := failures next;
     consecutive_successes := successes next;
     is_paused := is_paused endpoint |}.

(** A run of verdicts, each check feeding the next. *)
Fixpoint run_verdicts (endpoint : MonitorEndpoint) (verdicts : list bool)
  : MonitorEndpoint :=
  match verdicts with
  | [] => endpoint
  | v :: rest => run_verdicts (with_computation endpoint (computeStatus endpoint v)) rest
  end.

(** ** Parsing helpers and the comparator *)

Definition is_digit (c : ascii) : bool :=
  let n := nat_of_ascii c in (48 <=? n)%nat && (n <=? 57)%nat.

(** The value of a run of decimal digits, most significant first. *)
Fixpoint digits_value (acc : N) (s : string) : N :=
  match s with
  | EmptyString => acc
  | String c rest => digits_value (10 * acc + N.of_nat (nat_of_ascii c - 48))%N rest
  end.

Fixpoint all_digits (s : string) : bool :=
  match s with
  | EmptyString => true
  | String c rest => is_digit c && all_digits rest
  end.

(** The decimal spelling of an array index, as [String(n)] prints it. *)
Definition index_to_string (n : N) : string :=
  NilZero.string_of_uint (N.to_uint n).

(** A property key that names an array index: a canonical decimal. *)
Definition array_index_of_string (s : string) : option N :=
  if negb (String.eqb s "") && all_digits s
     && String.eqb (index_to_string (digits_value 0 s)) s
  then Some (digits_value 0 s) else None.

(** A path token: [match[1] ?? Number(match[2])]. *)
Inductive PathToken :=
| TName (key : string)
| TIndex (index : N).

(** [acc[token]] for an object or an array: own properties, the elements
    of an array and its [length]; what an object inherits ([constructor],
    [toString], ...) is left out. *)
Definition get_member (acc : JsValue) (token : PathToken) : JsValue :=
  match acc, token with
  | JObj props, TName key => get_property props key
  | JObj props, TIndex i => get_property props (index_to_string i)
  | JArr items, TIndex i => nth (N.to_nat i) items JUndefined
  | JArr items, TName key =>
      match array_index_of_string key with
      | Some i => nth (N.to_nat i) items JUndefined
      | None =>
          if String.eqb key "length" then num (Z.of_nat (length items))
          else JUndefined
      end
  | _, _ => JUndefined
  end.

(** One of the characters [.], [[] and []]. *)
Definition is_path_delimiter (c : ascii) : bool :=
  (nat_of_ascii c =? 46)%nat || (nat_of_ascii c =? 91)%nat || (nat_of_ascii c =? 93)%nat.

(** The longest prefix of characters satisfying [p], and what follows. *)
Fixpoint span (p : ascii -> bool) (s : string) : string * string :=
  match s with
  | String c rest =>
      if p c then let '(taken, more) := span p rest in (String c taken, more)
      else (EmptyString, s)
  | EmptyString => (EmptyString, EmptyString)
  end.

(** The matches of [/([^.[\]]+)|\[(\d+)\]/g] from left to right: at each
    position a run of non-delimiters, else a bracketed run of digits, else
    the scan moves one character on. *)
Fixpoint path_tokens (fuel : nat) (path : string) : list PathToken :=
  match fuel with
  | O => []
  | S fuel' =>
      match path with
      | EmptyString => []
      | String c rest =>
          if negb (is_path_delimiter c) then
            let '(name, more) := span (fun x => negb (is_path_delimiter x)) path in
            TName name :: path_tokens fuel' more
          else if (nat_of_ascii c =? 91)%nat then
            match span is_digit rest with
            | (String d ds, String close more) =>
                if (nat_of_ascii close =? 93)%nat
                then TIndex (digits_value 0 (String d ds)) :: path_tokens fuel' more
                else path_tokens fuel' rest
            | _ => path_tokens fuel' rest
            end
          else path_tokens fuel' rest
      end
  end.

(** [interface ProbeValidationResult] *)
Record ProbeValidationResult := {
  ok : bool;
  pv_matchedValue : option string;
  pv_errorMessage : option string;
}.

Section Comparator.
Context `{Platform}.

(** [parseJson], lines 95-102. *)
Definition parseJson (value : JsValue) : JsValue :=
  if is_nullish value || strict_eq_primitive value (JStr "") then JNull
  else match JSON_parse (ToString value) with
       | Some parsed => parsed
       | None => JNull
       end.

(** [Object.fromEntries(Object.entries(o).map(([k, v]) => [k, String(v)]))] *)
Definition stringify_entries (props : list (string * JsValue))
  : list (string * string) :=
  map (fun '(key, value) => (key, ToString value)) props.

(** [parseHeaders], lines 104-119. *)
Definition parseHeaders (headersJson : JsValue) : list (string * string) :=
  if negb (truthy headersJson) then []
  else match headersJson with
       | JObj props => stringify_entries props
       | _ =>
           match parseJson headersJson with
           | JObj props => stringify_entries props
           | _ => []
           end
       end.

(** [parseConnection], lines 121-129: the properties of the connection
    object, the empty object when there is none to be had. *)
Definition parseConnection (connectionJson : JsValue) : list (string * JsValue) :=
  if negb (truthy connectionJson) then []
  else match connectionJson with
       | JObj props => props
       | _ =>
           match parseJson connectionJson with
           | JObj props => props
           | _ => []
           end
       end.

(** [normalizeComparable], lines 131-136; [None] is [null]. *)
Definition normalizeComparable (value : JsValue) : option string :=
  match value with
  | JUndefined => Some "__UNDEFINED__"
  | JNull => None
  | JArr _ | JObj _ => Some (JSON_stringify value)
  | _ => Some (ToString value)
  end.

(** [deepEqual], lines 138-143. *)
Definition deepEqual (left right : JsValue) : bool :=
  if is_object left && is_object right
  then String.eqb (JSON_stringify left) (JSON_stringify right)
  else strict_eq_primitive left right.

(** [parseExpectedValue], lines 145-155.  Every caller passes a nullable
    text column, so [String(rawValue)] is the text itself. *)
Definition parseExpectedValue (rawValue : option string) : JsValue :=
  match rawValue with
  | None => JNull
  | Some raw =>
      let trimmed := trim raw in
      if String.eqb trimmed "" then JStr ""
      else match JSON_parse trimmed with
           | Some parsed => parsed
           | None => JStr trimmed
           end
  end.

(** [resolveJsonPath], lines 157-171. *)
Definition resolveJsonPath (data : JsValue) (path : option string) : JsValue :=
  match path with
  | None => JUndefined
  | Some "" => JUndefined
  | Some p =>
      fold_left
        (fun acc token =>
           if is_nullish acc then JUndefined
           else if negb (is_object acc) then JUndefined
           else get_member acc token)
        (path_tokens (S (String.length p)) p) data
  end.

(** [validateExpectedProbeValue], lines 221-237. *)
Definition validateExpectedProbeValue (actual : JsValue) (expectedRaw : option string)
  : ProbeValidationResult :=
  if match expectedRaw with
     | None => true
     | Some raw => String.eqb (trim raw) ""
     end
  then {| ok := true;
          pv_matchedValue := normalizeComparable actual;
          pv_errorMessage := None |}
  else
    let expected := parseExpectedValue expectedRaw in
    let ok := deepEqual actual expected in
    {| ok := ok;
       pv_matchedValue := normalizeComparable actual;
       pv_errorMessage := if ok then None else Some "Probe value mismatch" |}.

End Comparator.

(** ** Asynchronous operations

    An [async] function is modelled by what it does and how its promise
    settles.  Operations of the drivers and of [fetch] are answered by the
    environment: a promise that fulfils or rejects after some milliseconds,
    or never settles. *)

(** What a [catch] clause receives: an [Error] with its message, or some
    other thrown value, kept as [String(error)] renders it
    ([error instanceof Error] tells them apart). *)
Inductive Thrown :=
| ErrorObject (message : string)
| OtherThrown (text : string).

Inductive Settled (A : Type) :=
| Fulfilled (value : A)
| Rejected (error : Thrown).
Arguments Fulfilled {A} value.
Arguments Rejected {A} error.

Inductive Promise (A : Type) :=
| SettlesAfter (ms : N) (outcome : Settled A)
| NeverSettles.
Arguments SettlesAfter {A} ms outcome.
Arguments NeverSettles {A}.

Definition is_fulfilled {A} (p : Promise A) : bool :=
  match p with SettlesAfter _ (Fulfilled _) => true | _ => false end.

Definition is_rejected {A} (p : Promise A) : bool :=
  match p with SettlesAfter _ (Rejected _) => true | _ => false end.

Definition settles {A} (p : Promise A) : bool :=
  match p with SettlesAfter _ _ => true | NeverSettles => false end.

(** The same promise seen from [elapsed] milliseconds earlier. *)
Definition later {A} (elapsed : N) (p : Promise A) : Promise A :=
  match p with
  | SettlesAfter ms outcome => SettlesAfter (elapsed + ms) outcome
  | NeverSettles => NeverSettles
  end.

(** [error instanceof Error ? error.message : fallback] *)
Definition error_message (error : Thrown) (fallback : string) : string :=
  match error with
  | ErrorObject message => message
  | OtherThrown _ => fallback
  end.

(** [error instanceof Error ? error.message : String(error)] *)
Definition thrown_text (error : Thrown) : string :=
  match error with
  | ErrorObject message => message
  | OtherThrown text => text
  end.

(** The argument of [mysql.createConnection]: a URL, or the discrete
    fields. *)
Inductive MysqlOptions :=
| MysqlUrl (url : string)
| MysqlFields (host : string) (port : JsNumber) (user password database : option string)
              (connectTimeout : JsNumber).

(** The argument of [createClient] of the Redis driver. *)
Inductive RedisOptions :=
| RedisUrl (url : string)
| RedisSocket (host : string) (port : JsNumber) (connectTimeout : JsNumber)
              (username password : option string) (database : option JsNumber).

(** The argument of [connectNats]. *)
Record NatsOptions := {
  servers : list string;
  nats_user : option string;
  nats_pass : option string;
  nats_token : option string;
  nats_timeout : JsNumber;
}.

(** The arguments of [fetch]. *)
Record FetchRequest := {
  fetch_url : string;
  fetch_method : string;
  fetch_headers : list (string * string);
  fetch_body : option string;
}.

(** What an operation does that is visible outside the function. *)
Inductive Effect :=
| Fetch (request : FetchRequest)
| MysqlCreateConnection (options : MysqlOptions)
| MysqlQuery (sql : string)
| MysqlEnd
| RedisCreateClient (options : RedisOptions)
| RedisConnect
| RedisSendCommand (command : list string)
| RedisQuit
| RedisDestroy
| NatsConnect (options : NatsOptions)
| NatsJetstreamManager
| NatsGetAccountInfo
| NatsStreamInfo (stream : string)
| NatsClose
| TcpCreateConnection (host : string) (port : JsNumber)
| ConsoleLog (line : string)
| ConsoleError (line : string).

(** Writing to the console and constructing or discarding a client reach
    no other host; everything else does. *)
Definition is_network_call (e : Effect) : bool :=
  match e with
  | ConsoleLog _ | ConsoleError _ => false
  | RedisCreateClient _ | RedisDestroy => false
  | _ => true
  end.

(** A run of an [async] function: the effects it performed, in program
    order, and the promise it returned. *)
Record Task (A : Type) := {
  effects : list Effect;
  promise : Promise A;
}.
Arguments effects {A} t.
Arguments promise {A} t.

Definition network_calls {A} (t : Task A) : list Effect :=
  filter (fun e => is_network_call e = true) (effects t).

Module TaskMonad.

Definition ret {A} (a : A) : Task A :=
  {| effects := []; promise := SettlesAfter 0 (Fulfilled a) |}.

Definition throw {A} (error : Thrown) : Task A :=
  {| effects := []; promise := SettlesAfter 0 (Rejected error) |}.

(** Start an operation and await the promise it returns. *)
Definition perform {A} (e : Effect) (p : Promise A) : Task A :=
  {| effects := [e]; promise := p |}.

(** Await a promise of an object already at hand. *)
Definition await {A} (p : Promise A) : Task A :=
  {| effects := []; promise := p |}.

(** A synchronous effect. *)
Definition emit (e : Effect) : Task unit :=
  {| effects := [e]; promise := SettlesAfter 0 (Fulfilled tt) |}.

(** [const x = await first; rest x] *)
Definition bind {A B} (first : Task A) (rest : A -> Task B) : Task B :=
  match promise first with
  | SettlesAfter ms (Fulfilled a) =>
      {| effects := effects first ++ effects (rest a);
         promise := later ms (promise (rest a)) |}
  | SettlesAfter ms (Rejected error) =>
      {| effects := effects first; promise := SettlesAfter ms (Rejected error) |}
  | NeverSettles =>
      {| effects := effects first; promise := NeverSettles |}
  end.

(** [try { body } catch (error) { handler error }] *)
Definition try_catch {A} (body : Task A) (handler : Thrown -> Task A) : Task A :=
  match promise body with
  | SettlesAfter ms (Rejected error) =>
      {| effects := effects body ++ effects (handler error);
         promise := later ms (promise (handler error)) |}
  | _ => body
  end.

(** [try { body } finally { cleanup }]: the cleanup runs once the body
    has settled; a cleanup that rejects replaces the body's outcome. *)
Definition try_finally {A} (body : Task A) (cleanup : Task unit) : Task A :=
  match promise body with
  | SettlesAfter ms outcome =>
      {| effects := effects body ++ effects cleanup;
         promise :=
           match promise cleanup with
           | SettlesAfter ms' (Fulfilled _) => SettlesAfter (ms + ms') outcome
           | SettlesAfter ms' (Rejected error) => SettlesAfter (ms + ms') (Rejected error)
           | NeverSettles => NeverSettles
           end |}
  | NeverSettles => {| effects := effects body; promise := NeverSettles |}
  end.

(** [promise.catch(handler)] with a handler that returns a value. *)
Definition promise_catch {A} (p : Promise A) (handler : Thrown -> A) : Promise A :=
  match p with
  | SettlesAfter ms (Rejected error) => SettlesAfter ms (Fulfilled (handler error))
  | _ => p
  end.

(** The [x ← first; rest] notation of stdpp reads as [await]. *)
#[global] Instance Task_ret : MRet Task := @ret.
#[global] Instance Task_bind : MBind Task := fun A B rest first => bind first rest.

End TaskMonad.

(** ** The environment of the probes *)

(** A [fetch] response: its status, and the promises of [text()] and
    [json()]. *)
Record Response := {
  resp_status : Z;
  resp_text : Promise string;
  resp_json : Promise JsValue;
}.

(** [response.ok] *)
Definition resp_ok (response : Response) : bool :=
  (200 <=? resp_status response) && (resp_status response <=? 299).

(** A MySQL connection: what [query] and [end] answer. *)
Record MysqlConnection := {
  conn_query : string -> Promise JsValue;
  conn_end : Promise unit;
}.

(** A Redis client: [connect], [sendCommand], [quit], and the value of
    [isOpen] when the [finally] block of the probe reads it. *)
Record RedisClient := {
  client_connect : Promise unit;
  client_sendCommand : list string -> Promise JsValue;
  client_isOpen : bool;
  client_quit : Promise unit;
}.

Record JetStreamManager := {
  getAccountInfo : Promise JsValue;
  streams_info : string -> Promise JsValue;
}.

Record NatsConnection := {
  jetstreamManager : Promise JetStreamManager;
  nc_close : Promise unit;
}.

(** The hosts the engine talks to.  [createClient] is a synchronous
    constructor: it returns a client or throws.  [net_createConnection]
    stands for the socket: fulfilled by its ['connect'] event, rejected by
    its ['error'] event. *)
Record Network := {
  fetch : FetchRequest -> Promise Response;
  mysql_createConnection : MysqlOptions -> Promise MysqlConnection;
  createClient : RedisOptions -> Settled RedisClient;
  connectNats : NatsOptions -> Promise NatsConnection;
  net_createConnection : string -> JsNumber -> Promise unit;
}.

Inductive TargetType := slack | webhook.

(** A notification target as [normalizeNotificationTarget] of config.ts
    builds it; [target_events] is [None] when [events] is not an array. *)
Record NotificationTarget := {
  target_name : string;
  target_type : TargetType;
  target_token : string;
  target_channel : string;
  target_url : string;
  target_events : option (list MonitorStatus);
  target_headers : list (string * string);
}.

(** The fields of [config] that the engine reads. *)
Record Config := {
  nodeEnv : string;
  requestTimeoutMs : JsNumber;
  notifications_enabled : bool;
  notifications_targets : list NotificationTarget;
}.

(** [interface CheckResult] *)
Record CheckResult := {
  checkPassed : bool;
  responseCode : option Z;
  matchedValue : option string;
  errorMessage : option string;
}.

(** The double quote, as a one-character string. *)
Definition dquote : string := String (ascii_of_nat 34) EmptyString.

(** A template literal's rendering of an integer. *)
Definition Z_to_string (z : Z) : string := NilZero.string_of_int (Z.to_int z).

(** [s.slice(n)] *)
Fixpoint slice_from (n : nat) (s : string) : string :=
  match n, s with
  | O, _ => s
  | S n', String _ rest => slice_from n' rest
  | S _, EmptyString => EmptyString
  end.

(** [text?.trim() || fallback] *)
Definition trimmed_or (text : option string) (fallback : string) : string :=
  match text with
  | None => fallback
  | Some t => if String.eqb (trim t) "" then fallback else trim t
  end.

(** [typeof value === 'string' && value.trim()], when it holds. *)
Definition nonblank_string (value : JsValue) : option string :=
  match value with
  | JStr s => if String.eqb (trim s) "" then None else Some s
  | _ => None
  end.

(** [const ALLOWED_METHODS], line 11. *)
Definition ALLOWED_METHODS : list string :=
  ["GET"; "POST"; "PUT"; "PATCH"; "DELETE"; "HEAD"; "OPTIONS"].

(** [list.includes(s)] and [set.has(s)] on strings. *)
Definition includes (l : list string) (s : string) : bool :=
  existsb (String.eqb s) l.

(** [text || null] on a nullable string. *)
Definition nonempty (text : option string) : option string :=
  match text with
  | Some "" => None
  | other => other
  end.

Definition is_null {A} (value : option A) : bool :=
  match value with None => true | Some _ => false end.

(** [s.split(/\s+/).filter(Boolean)], on ASCII white space. *)
Fixpoint split_words (current : string) (s : string) : list string :=
  match s with
  | EmptyString => if String.eqb current "" then [] else [current]
  | String c rest =>
      if is_whitespace c
      then (if String.eqb current "" then split_words "" rest
            else current :: split_words "" rest)
      else split_words (current ++ String c EmptyString) rest
  end.

(** [toUpperCase] on the ASCII letters. *)
Definition upper_char (c : ascii) : ascii :=
  let n := nat_of_ascii c in
  if (97 <=? n)%nat && (n <=? 122)%nat then ascii_of_nat (n - 32) else c.

Fixpoint toUpperCase (s : string) : string :=
  match s with
  | EmptyString => EmptyString
  | String c rest => String (upper_char c) (toUpperCase rest)
  end.

(** ** The probe executors *)

Section Probes.
Context `{Platform}.
Variable config : Config.
Variable network : Network.

Import TaskMonad.

(** [withTimeout], lines 80-93, on a promise already started: whichever
    of the promise and the timer comes first decides; the timer wins a
    tie. *)
Definition withTimeout {A} (p : Promise A) (timeoutMs : JsNumber) (label : string)
  : Promise A :=
  let timed_out :=
    SettlesAfter (timer_delay timeoutMs)
      (Rejected (ErrorObject
         (label ++ " timed out after " ++ Number_toString timeoutMs ++ "ms"))) in
  match p with
  | SettlesAfter ms _ => if (ms <? timer_delay timeoutMs)%N then p else timed_out
  | NeverSettles => timed_out
  end.

(** The result every probe but the HTTP one returns from its [catch]
    clause. *)
Definition failed_check (error : Thrown) (fallback : string) : CheckResult :=
  {| checkPassed := false;
     responseCode := Some 500;
     matchedValue := None;
     errorMessage := Some (error_message error fallback) |}.

(** The result a probe builds from the verdict of the comparator. *)
Definition check_of_validation (expectedResult : ProbeValidationResult) : CheckResult :=
  {| checkPassed := ok expectedResult;
     responseCode := Some (if ok expectedResult then 200 else 500);
     matchedValue := pv_matchedValue expectedResult;
     errorMessage := pv_errorMessage expectedResult |}.

(** [endpoint.expected_probe_value ?? fallback] *)
Definition expected_or (endpoint : MonitorEndpoint) (fallback : option string)
  : option string :=
  match expected_probe_value endpoint with
  | Some raw => Some raw
  | None => fallback
  end.

(** [Number(connection.port ?? 80)], line 494. *)
Definition tcp_port (endpoint : MonitorEndpoint) : JsNumber :=
  ToNumber (nullish_or (get_property (parseConnection (connection_json endpoint)) "port")
              (num 80)).

(** The test of line 497:
    [!Number.isFinite(port) || port < 1 || port > 65535]. *)
Definition tcp_port_invalid (endpoint : MonitorEndpoint) : bool :=
  negb (Number_isFinite (tcp_port endpoint))
  || number_lt (tcp_port endpoint) (Finite 1)
  || number_gt (tcp_port endpoint) (Finite 65535).

(** [runTcpCheck], lines 491-538. *)
Definition runTcpCheck (endpoint : MonitorEndpoint) : Task CheckResult :=
  let connection := parseConnection (connection_json endpoint) in
  let host := ToString (nullish_or (get_property connection "host") (JStr "127.0.0.1")) in
  let port := tcp_port endpoint in
  let timeoutMs :=
    ToNumber (nullish_or (get_property connection "timeoutMs")
                (JNum (requestTimeoutMs config))) in
  if tcp_port_invalid endpoint then
    ret {| checkPassed := false;
           responseCode := Some 500;
           matchedValue := None;
           errorMessage := Some "Invalid TCP port in connection_json" |}
  else
    try_catch
      (_ ← perform (TcpCreateConnection host port)
             (withTimeout (net_createConnection network host port) timeoutMs "TCP connect");
       let actualValue := JStr "open" in
       let expectedRaw := expected_or endpoint (Some (dquote ++ "open" ++ dquote)) in
       ret (check_of_validation (validateExpectedProbeValue actualValue expectedRaw)))
      (fun error => ret (failed_check error "TCP check failed")).

(** The argument of [connectNats], lines 420-437. *)
Definition nats_options (endpoint : MonitorEndpoint) : NatsOptions :=
  let connection := parseConnection (connection_json endpoint) in
  let serversRaw :=
    nullish_or (get_property connection "servers")
      (nullish_or (get_property connection "server")
         (nullish_or (get_property connection "url") (JStr "nats://127.0.0.1:4222"))) in
  let servers :=
    match serversRaw with
    | JArr items => map ToString items
    | _ => [ToString serversRaw]
    end in
  {| servers := servers;
     nats_user := optional_string (get_property connection "user");
     nats_pass := optional_string (get_property connection "password");
     nats_token := optional_string (get_property connection "token");
     nats_timeout :=
       ToNumber (nullish_or (get_property connection "timeoutMs")
                   (JNum (requestTimeoutMs config))) |}.

(** The body of the [try] block of [runNatsCheck] once connected, lines
    442-476. *)
Definition nats_probe (endpoint : MonitorEndpoint) (nc : NatsConnection)
  : Task CheckResult :=
  let command := trimmed_or (probe_command endpoint) "jetstream.info" in
  let finish (actualValue : JsValue) : Task CheckResult :=
    let expectedRaw := expected_or endpoint (Some (dquote ++ "ok" ++ dquote)) in
    ret (check_of_validation (validateExpectedProbeValue actualValue expectedRaw)) in
  if String.eqb command "jetstream.info" then
    jsm ← perform NatsJetstreamManager (jetstreamManager nc);
    accountInfo ← perform NatsGetAccountInfo
      (withTimeout (getAccountInfo jsm) (requestTimeoutMs config) "JetStream info");
    finish (if is_nullish accountInfo then JNull else JStr "ok")
  else if String.prefix "stream.info:" command then
    let streamName := trim (slice_from (String.length "stream.info:") command) in
    if String.eqb streamName "" then
      ret {| checkPassed := false;
             responseCode := Some 500;
             matchedValue := None;
             errorMessage := Some "stream.info command requires stream name" |}
    else
      jsm ← perform NatsJetstreamManager (jetstreamManager nc);
      streamInfo ← perform (NatsStreamInfo streamName)
        (withTimeout (streams_info jsm streamName) (requestTimeoutMs config)
           "JetStream stream info");
      finish (nullish_or (optional_member (optional_member streamInfo "config") "name")
                JNull)
  else finish (JStr "ok").

(** [runNatsCheck], lines 419-489. *)
Definition runNatsCheck (endpoint : MonitorEndpoint) : Task CheckResult :=
  let connection := parseConnection (connection_json endpoint) in
  let options := nats_options endpoint in
  let connecting :=
    withTimeout (connectNats network options) (requestTimeoutMs config) "NATS connect" in
  _ ← emit (ConsoleLog ("Connecting to NATS servers: " ++ JSON_stringify (JObj connection)));
  try_finally
    (try_catch
       (nc ← perform (NatsConnect options) connecting;
        nats_probe endpoint nc)
       (fun error => ret (failed_check error "NATS check failed")))
    (match connecting with
     | SettlesAfter _ (Fulfilled nc) => perform NatsClose (nc_close nc)
     | _ => ret tt
     end).

(** The first column of the first row, lines 322-327. *)
Definition first_column (rows : JsValue) : JsValue :=
  match rows with
  | JArr (JObj ((firstKey, value) :: _) :: _) =>
      if String.eqb firstKey "" then JNull else value
  | JArr (JArr (value :: _) :: _) => value
  | _ => JNull
  end.

(** The argument of [mysql.createConnection], lines 306-317. *)
Definition mysql_options (endpoint : MonitorEndpoint) : MysqlOptions :=
  let connection := parseConnection (connection_json endpoint) in
  match nonblank_string (get_property connection "url") with
  | Some url => MysqlUrl url
  | None =>
      MysqlFields
        (ToString (nullish_or (get_property connection "host") (JStr "127.0.0.1")))
        (ToNumber (nullish_or (get_property connection "port") (num 3306)))
        (optional_string (get_property connection "user"))
        (optional_string (get_property connection "password"))
        (optional_string (get_property connection "database"))
        (requestTimeoutMs config)
  end.

(** [runMysqlCheck], lines 301-348. *)
Definition runMysqlCheck (endpoint : MonitorEndpoint) : Task CheckResult :=
  let options := mysql_options endpoint in
  let connecting := mysql_createConnection network options in
  try_finally
    (try_catch
       (conn ← perform (MysqlCreateConnection options) connecting;
        let query := trimmed_or (probe_command endpoint) "SELECT 1 AS health" in
        rows ← perform (MysqlQuery query) (conn_query conn query);
        let actualValue := first_column rows in
        ret (check_of_validation
               (validateExpectedProbeValue actualValue (expected_probe_value endpoint))))
       (fun error => ret (failed_check error "MySQL check failed")))
    (match connecting with
     | SettlesAfter _ (Fulfilled conn) =>
         perform MysqlEnd (promise_catch (conn_end conn) (fun _ => tt))
     | _ => ret tt
     end).

(** [parseRedisCommand], lines 350-362. *)
Definition parseRedisCommand (probeCommand : option string) : list string :=
  match probeCommand with
  | None => ["PING"]
  | Some text =>
      if String.eqb text "" || String.eqb (trim text) "" then ["PING"]
      else match parseJson (JStr text) with
           | JArr (part :: parts) => map ToString (part :: parts)
           | _ => split_words "" (trim text)
           end
  end.

(** The argument of [createClient], lines 366-381. *)
Definition redis_options (endpoint : MonitorEndpoint) : RedisOptions :=
  let connection := parseConnection (connection_json endpoint) in
  match nonblank_string (get_property connection "url") with
  | Some url => RedisUrl url
  | None =>
      RedisSocket
        (ToString (nullish_or (get_property connection "host") (JStr "127.0.0.1")))
        (ToNumber (nullish_or (get_property connection "port") (num 6379)))
        (requestTimeoutMs config)
        (optional_string (get_property connection "username"))
        (optional_string (get_property connection "password"))
        (if is_nullish (get_property connection "database") then None
         else Some (ToNumber (get_property connection "database")))
  end.

(** [runRedisCheck], lines 364-417.  The client is constructed before
    the [try] block is entered. *)
Definition runRedisCheck (endpoint : MonitorEndpoint) : Task CheckResult :=
  let options := redis_options endpoint in
  match createClient network options with
  | Rejected error =>
      {| effects := [RedisCreateClient options];
         promise := SettlesAfter 0 (Rejected error) |}
  | Fulfilled client =>
      _ ← emit (RedisCreateClient options);
      try_finally
        (try_catch
           (_ ← perform RedisConnect
                  (withTimeout (client_connect client) (requestTimeoutMs config)
                     "Redis connect");
            let command := parseRedisCommand (probe_command endpoint) in
            rawResult ← perform (RedisSendCommand command)
              (withTimeout (client_sendCommand client command) (requestTimeoutMs config)
                 "Redis command");
            let commandName := toUpperCase (hd "" command) in
            let expectedRaw :=
              expected_or endpoint
                (if String.eqb commandName "PING"
                 then Some (dquote ++ "PONG" ++ dquote) else None) in
            ret (check_of_validation (validateExpectedProbeValue rawResult expectedRaw)))
           (fun error => ret (failed_check error "Redis check failed")))
        (if client_isOpen client
         then try_catch (perform RedisQuit (client_quit client))
                (fun _ => emit RedisDestroy)
         else ret tt)
  end.

(** The request [runHttpCheck] sends, lines 240-261: a method outside
    [ALLOWED_METHODS] is replaced by [GET]; a body goes with methods other
    than [GET] and [HEAD]. *)
Definition http_request (endpoint : MonitorEndpoint) : FetchRequest :=
  let method :=
    if includes ALLOWED_METHODS (ep_method endpoint) then ep_method endpoint
    else "GET" in
  let headers := parseHeaders (headers_json endpoint) in
  let body := nonempty (body_text endpoint) in
  {| fetch_url := ep_url endpoint;
     fetch_method := method;
     fetch_headers := headers;
     fetch_body := if negb (includes ["GET"; "HEAD"] method) then body else None |}.

(** The JSON validation of [runHttpCheck], lines 265-285:
    [(jsonValidationOk, matchedValue, errorMessage)]. *)
Definition http_json_validation (endpoint : MonitorEndpoint) (response : Response)
  : Task (bool * option string * option string) :=
  match nonempty (expected_json_path endpoint), expected_json_value endpoint with
  | Some path, Some value =>
      payload ← await (resp_text response);
      let parsed := parseJson (JStr payload) in
      if is_nullish parsed then
        ret (false, None, Some "Expected JSON response but payload was not valid JSON")
      else
        let actual := resolveJsonPath parsed (Some path) in
        let expected := parseExpectedValue (Some value) in
        let matched :=
          match actual with
          | JUndefined => None
          | _ => normalizeComparable actual
          end in
        let jsonValidationOk := deepEqual actual expected in
        ret (jsonValidationOk, matched,
             if jsonValidationOk then None
             else Some ("JSON path mismatch at " ++ dquote ++ path ++ dquote))
  | _, _ => ret (true, None, None)
  end.

(** [runHttpCheck], lines 239-299.  The request carries the abort signal
    of the timer set for [config.requestTimeoutMs]; [fetch] answers for
    the request under that signal.  The locals a [catch] finds are the
    ones assigned so far: [responseCode] is set once [fetch] has
    answered, [matchedValue] only after the body has been read. *)
Definition runHttpCheck (endpoint : MonitorEndpoint) : Task CheckResult :=
  let request := http_request endpoint in
  try_catch
    (response ← perform (Fetch request) (fetch network request);
     try_catch
       (validation ← http_json_validation endpoint response;
        let '(jsonValidationOk, matched, message) := validation in
        let passed :=
          (resp_status response =? expected_status endpoint) && jsonValidationOk in
        ret {| checkPassed := passed;
               responseCode := Some (resp_status response);
               matchedValue := matched;
               errorMessage :=
                 if negb passed && is_null (nonempty message)
                 then Some ("Expected HTTP " ++ Z_to_string (expected_status endpoint)
                            ++ ", got " ++ Z_to_string (resp_status response))
                 else message |})
       (fun error =>
          ret {| checkPassed := false;
                 responseCode := Some (resp_status response);
                 matchedValue := None;
                 errorMessage := Some (error_message error "Unknown request error") |}))
    (fun error =>
       ret {| checkPassed := false;
              responseCode := None;
              matchedValue := None;
              errorMessage := Some (error_message error "Unknown request error") |}).

End Probes.

(** ** The notification dispatcher (notifier.js) *)

(** The event [runCheck] hands to [notifyStatusChange]. *)
Record StatusChangeEvent := {
  ev_endpointId : Z;
  ev_endpointName : string;
  ev_groupId : Z;
  ev_groupName : option string;
  ev_monitorType : MonitorType;
  ev_url : string;
  previousStatus : MonitorStatus;
  currentStatus : MonitorStatus;
  ev_responseCode : option Z;
  ev_responseTimeMs : Z;
  ev_checkedAt : string;
  ev_errorMessage : option string;
  ev_matchedValue : option string;
}.

Definition status_text (s : MonitorStatus) : string :=
  match s with pending => "pending" | up => "up" | down => "down" end.

Definition type_text (t : MonitorType) : string :=
  match t with
  | http => "http" | mysql => "mysql" | redis => "redis" | nats => "nats" | tcp => "tcp"
  end.

(** [const isValidEvent], line 3. *)
Definition isValidEvent (s : MonitorStatus) : bool :=
  match s with up | down => true | pending => false end.

Definition SLACK_POST_MESSAGE_URL : string := "https://slack.com/api/chat.postMessage".

Definition nullable_string (text : option string) : JsValue :=
  match text with Some t => JStr t | None => JNull end.

Definition nullable_number (n : option Z) : JsValue :=
  match n with Some z => num z | None => JNull end.

(** [{ ...base, ...extra }] on header objects: a key already present keeps
    its place and takes the new value. *)
Fixpoint set_header (key value : string) (headers : list (string * string))
  : list (string * string) :=
  match headers with
  | [] => [(key, value)]
  | (k, v) :: rest =>
      if String.eqb k key then (k, value) :: rest
      else (k, v) :: set_header key value rest
  end.

Definition spread_headers (base extra : list (string * string)) : list (string * string) :=
  fold_left (fun acc '(k, v) => set_header k v acc) extra base.

(** One of the [fields] of the Slack attachment. *)
Definition slack_field (title value : string) (short : bool) : JsValue :=
  JObj [("title", JStr title); ("value", JStr value); ("short", JBool short)].

(** [target.name || target.type] *)
Definition target_label (target : NotificationTarget) : string :=
  if String.eqb (target_name target) "" then
    match target_type target with slack => "slack" | webhook => "webhook" end
  else target_name target.

(** The line [console.error] writes for a failed delivery, lines 174-178. *)
Definition failure_line (target : NotificationTarget) (event : StatusChangeEvent)
    (error : Thrown) : string :=
  "[notify] target=" ++ target_label target
  ++ " event=" ++ status_text (currentStatus event)
  ++ " failed: " ++ thrown_text error.

(** Whether the callback of [notifyStatusChange] goes on to deliver: it
    returns early when [target.events] is an array that does not include
    the status. *)
Definition subscribed (target : NotificationTarget) (s : MonitorStatus) : bool :=
  match target_events target with
  | Some events => bool_decide (s ∈ events)
  | None => true
  end.

(** The event of the timer that notifier.js sets when the module loads,
    lines 184-201. *)
Definition startup_event : StatusChangeEvent :=
  {| ev_endpointId := 12;
     ev_endpointName := "Payments API";
     ev_groupId := 3;
     ev_groupName := Some "Payments";
     ev_monitorType := http;
     ev_url := "https://api.example.com/payments/health";
     previousStatus := up;
     currentStatus := down;
     ev_responseCode := Some 503;
     ev_responseTimeMs := 1842;
     ev_checkedAt := "2026-02-20T15:30:00.000Z";
     ev_errorMessage := Some "Expected HTTP 200, got 503";
     ev_matchedValue := None |}.

(** The earliest rejection among the promises, the first of the list on
    a tie. *)
Fixpoint first_rejection {A} (ps : list (Promise A)) : option (N * Thrown) :=
  match ps with
  | [] => None
  | p :: rest =>
      match p, first_rejection rest with
      | SettlesAfter ms (Rejected error), Some (ms', error') =>
          if (ms <=? ms')%N then Some (ms, error) else Some (ms', error')
      | SettlesAfter ms (Rejected error), None => Some (ms, error)
      | _, found => found
      end
  end.

(** The values of the promises and the time the last one fulfils, when
    they all fulfil. *)
Fixpoint all_fulfilled {A} (ps : list (Promise A)) : option (N * list A) :=
  match ps with
  | [] => Some (0%N, [])
  | SettlesAfter ms (Fulfilled a) :: rest =>
      match all_fulfilled rest with
      | Some (ms', values) => Some (N.max ms ms', a :: values)
      | None => None
      end
  | _ :: _ => None
  end.

(** [Promise.all] *)
Definition Promise_all {A} (ps : list (Promise A)) : Promise (list A) :=
  match first_rejection ps with
  | Some (ms, error) => SettlesAfter ms (Rejected error)
  | None =>
      match all_fulfilled ps with
      | Some (ms, values) => SettlesAfter ms (Fulfilled values)
      | None => NeverSettles
      end
  end.

(** [Promise.all(items.map(async ...))]: the callbacks all start; their
    effects are listed callback by callback. *)
Definition all_tasks {A} (tasks : list (Task A)) : Task (list A) :=
  {| effects := concat (map effects tasks);
     promise := Promise_all (map promise tasks) |}.

Section Notifier.
Context `{Platform}.
Variable config : Config.
Variable network : Network.

Import TaskMonad.

(** [buildSlackPayload], lines 24-98; [None] where [toISOString] throws. *)
Definition buildSlackPayload (event : StatusChangeEvent)
  : option (list (string * JsValue)) :=
  let isUp := bool_decide (currentStatus event = up) in
  let title := if isUp then "Monitor UP" else "Monitor DOWN" in
  let color := if isUp then "#16a34a" else "#dc2626" in
  let environment := nodeEnv config in
  match Date_toISOString (ev_checkedAt event) with
  | None => None
  | Some checkedAt =>
      let heading := "[" ++ environment ++ "] " ++ title ++ ": " ++ ev_endpointName event in
      let group :=
        match ev_groupName event with
        | Some name => name
        | None => "#" ++ Z_to_string (ev_groupId event)
        end in
      let code :=
        match ev_responseCode event with
        | Some code => Z_to_string code
        | None => "n/a"
        end in
      let latency := Z_to_string (ev_responseTimeMs event) ++ " ms" in
      let fields : list JsValue :=
        ([slack_field "Status" (toUpperCase (status_text (currentStatus event))) true;
          slack_field "Previous" (toUpperCase (status_text (previousStatus event))) true;
          slack_field "Group" group true;
          slack_field "Type" (toUpperCase (type_text (ev_monitorType event))) true;
          slack_field "Response Code" code true;
          slack_field "Latency" latency true;
          slack_field "Checked At" checkedAt false;
          slack_field "URL" (ev_url event) false]
         ++ match nonempty (ev_errorMessage event) with
            | Some message => [slack_field "Error" message false]
            | None => []
            end
         ++ match ev_matchedValue event with
            | Some matched => [slack_field "Matched Value" matched false]
            | None => []
            end)%list in
      Some
        [("text", JStr heading);
         ("attachments",
          JArr [JObj [("color", JStr color);
                      ("title", JStr heading);
                      ("fields", JArr fields)]])]
  end.

(** [buildWebhookPayload], lines 100-122. *)
Definition buildWebhookPayload (event : StatusChangeEvent) : JsValue :=
  JObj
    [("source", JStr "uptime-monitor");
     ("eventType", JStr "monitor.status_changed");
     ("currentStatus", JStr (status_text (currentStatus event)));
     ("previousStatus", JStr (status_text (previousStatus event)));
     ("endpoint",
      JObj
        [("id", num (ev_endpointId event));
         ("name", JStr (ev_endpointName event));
         ("groupId", num (ev_groupId event));
         ("groupName", nullable_string (ev_groupName event));
         ("monitorType", JStr (type_text (ev_monitorType event)));
         ("url", JStr (ev_url event))]);
     ("check",
      JObj
        [("responseCode", nullable_number (ev_responseCode event));
         ("responseTimeMs", num (ev_responseTimeMs event));
         ("checkedAt", JStr (ev_checkedAt event));
         ("errorMessage", nullable_string (ev_errorMessage event));
         ("matchedValue", nullable_string (ev_matchedValue event))])].

(** The request [postJson] sends, lines 7-14. *)
Definition webhook_request (url : string) (payload : JsValue)
    (headers : list (string * string)) : FetchRequest :=
  {| fetch_url := url;
     fetch_method := "POST";
     fetch_headers := spread_headers [("Content-Type", "application/json")] headers;
     fetch_body := Some (JSON_stringify payload) |}.

(** [postJson], lines 6-22. *)
Definition postJson (url : string) (payload : JsValue) (headers : list (string * string))
  : Task unit :=
  let request := webhook_request url payload headers in
  response ← perform (Fetch request) (fetch network request);
  if negb (resp_ok response) then
    body ← await (promise_catch (resp_text response) (fun _ => ""));
    throw (ErrorObject
             ("Notification request failed (" ++ Z_to_string (resp_status response) ++ "): "
              ++ (if String.eqb body "" then "no response body" else body)))
  else ret tt.

(** The request sent to Slack, lines 126-136. *)
Definition slack_request (target : NotificationTarget)
    (message : list (string * JsValue)) : FetchRequest :=
  {| fetch_url := SLACK_POST_MESSAGE_URL;
     fetch_method := "POST";
     fetch_headers :=
       [("Content-Type", "application/json");
        ("Authorization", "Bearer " ++ target_token target)];
     fetch_body :=
       Some (JSON_stringify
               (JObj (("channel", JStr (target_channel target)) :: message))) |}.

(** [notifyTarget], lines 124-149. *)
Definition notifyTarget (target : NotificationTarget) (event : StatusChangeEvent)
  : Task unit :=
  match target_type target with
  | slack =>
      match buildSlackPayload event with
      | None => throw (ErrorObject invalid_date_message)
      | Some message =>
          let request := slack_request target message in
          response ← perform (Fetch request) (fetch network request);
          payload ← await (promise_catch (resp_json response) (fun _ => JNull));
          if negb (resp_ok response) || negb (truthy (optional_member payload "ok")) then
            let reason :=
              ToString (nullish_or (optional_member payload "error")
                          (JStr "unknown_error")) in
            throw (ErrorObject
                     ("Slack chat.postMessage failed ("
                      ++ Z_to_string (resp_status response) ++ "): " ++ reason))
          else ret tt
      end
  | webhook =>
      postJson (target_url target) (buildWebhookPayload event) (target_headers target)
  end.

(** The callback mapped over the targets, lines 164-180. *)
Definition deliver (event : StatusChangeEvent) (target : NotificationTarget)
  : Task unit :=
  if negb (subscribed target (currentStatus event)) then ret tt
  else
    try_catch (notifyTarget target event)
      (fun error => emit (ConsoleError (failure_line target event error))).

(** [notifyStatusChange], lines 151-182. *)
Definition notifyStatusChange (event : StatusChangeEvent) : Task unit :=
  _ ← emit (ConsoleLog
              ("[notify] status change detected for endpoint="
               ++ Z_to_string (ev_endpointId event)
               ++ " status=" ++ status_text (currentStatus event)));
  if negb (notifications_enabled config) then ret tt
  else if negb (isValidEvent (currentStatus event)) then ret tt
  else if bool_decide (notifications_targets config = []) then ret tt
  else
    _ ← all_tasks (map (deliver event) (notifications_targets config));
    ret tt.

(** The callback of the timer set when the module loads, lines 184-201:
    it logs and calls [notifyStatusChange] without awaiting it. *)
Definition notifier_startup_timer : Task unit :=
  {| effects :=
       ConsoleLog "[notify] notifier initialized"
       :: effects (notifyStatusChange startup_event);
     promise := SettlesAfter 0 (Fulfilled tt) |}.

(** The request a delivery to a target starts with, when its payload can
    be built. *)
Definition delivery_request (target : NotificationTarget) (event : StatusChangeEvent)
  : option FetchRequest :=
  match target_type target with
  | webhook =>
      Some (webhook_request (target_url target) (buildWebhookPayload event)
              (target_headers target))
  | slack => slack_request target <$> buildSlackPayload event
  end.

End Notifier.

(** ** The check pipeline *)

(** A row of [monitor_endpoints]: the columns an endpoint is read from and
    the ones only [runCheck] writes.  Times are seconds. *)
Record EndpointRow := {
  columns : MonitorEndpoint;
  last_checked_at : option Z;
  last_response_code : option Z;
  last_error : option string;
  last_match_value : option string;
  next_check_at : Z;
}.

(** A row of [monitor_check_runs]. *)
Record CheckRun := {
  run_endpoint_id : Z;
  run_status : MonitorStatus;
  run_response_code : option Z;
  run_matched_value : option string;
  run_error_message : option string;
  run_response_time_ms : Z;
}.

(** [interface MonitorCheckedPayload] *)
Record MonitorCheckedPayload := {
  endpointId : Z;
  groupId : Z;
  monitorType : MonitorType;
  payload_status : MonitorStatus;
  payload_responseCode : option Z;
  lastCheckedAt : string;
  lastError : option string;
  lastMatchValue : option string;
  consecutiveFailures : Z;
  consecutiveSuccesses : Z;
  responseTimeMs : Z;
  payload_errorMessage : option string;
}.

(** What outlives a check: the two tables and the events emitted on
    [monitorEvents]. *)
Record World := {
  monitor_endpoints : gmap Z EndpointRow;
  monitor_check_runs : list CheckRun;
  emitted : list MonitorCheckedPayload;
}.

(** The clock readings of one check: the two [Date.now()], the [NOW()] of
    the [UPDATE] statement, and [new Date().toISOString()]. *)
Record Clock := {
  startedAt : Z;
  finishedAt : Z;
  sql_now : Z;
  iso_now : string;
}.

(** The [UPDATE monitor_endpoints ... WHERE id = ?] of lines 564-588:
    [NOW()] has one value throughout the statement. *)
Definition update_endpoint (now : Z) (next : StatusComputation) (result : CheckResult)
    (interval : Z) (id : Z) (table : gmap Z EndpointRow) : gmap Z EndpointRow :=
  alter
    (fun row =>
       {| columns := with_computation (columns row) next;
          last_checked_at := Some now;
          last_response_code := responseCode result;
          last_error := errorMessage result;
          last_match_value := matchedValue result;
          next_check_at := now + interval |})
    id table.

(** What the process does, one activity after the other: the timer of
    notifier.js fires once after the module has loaded; checks are run
    by the tick and by "check now". *)
Inductive Activity :=
| StartupTimerFires
| CheckRuns (clock : Clock) (endpoint : MonitorEndpoint).

(** The tables and the events, and what the process has done so far. *)
Record Process := {
  world : World;
  log : list Effect;
}.

Section Pipeline.
Context `{Platform}.
Variable config : Config.
Variable network : Network.

Import TaskMonad.

(** The executor [runCheck] picks, lines 548-559. *)
Definition run_probe (endpoint : MonitorEndpoint) : Task CheckResult :=
  match monitor_type endpoint with
  | mysql => runMysqlCheck config network endpoint
  | redis => runRedisCheck config network endpoint
  | nats => runNatsCheck config network endpoint
  | tcp => runTcpCheck config network endpoint
  | http => runHttpCheck network endpoint
  end.

(** The event handed to the dispatcher, when the test of line 623 lets
    the call happen. *)
Definition transition_event (clock : Clock) (endpoint : MonitorEndpoint)
    (result : CheckResult) : option StatusChangeEvent :=
  let previous := default pending (status endpoint) in
  let next := computeStatus endpoint (checkPassed result) in
  if bool_decide (previous ≠ sc_status next)
     && (bool_decide (sc_status next = up) || bool_decide (sc_status next = down))
  then
    Some {| ev_endpointId := ep_id endpoint;
            ev_endpointName := ep_name endpoint;
            ev_groupId := group_id endpoint;
            ev_groupName := group_name endpoint;
            ev_monitorType := monitor_type endpoint;
            ev_url := ep_url endpoint;
            previousStatus := previous;
            currentStatus := sc_status next;
            ev_responseCode := responseCode result;
            ev_responseTimeMs := finishedAt clock - startedAt clock;
            ev_checkedAt := iso_now clock;
            ev_errorMessage := errorMessage result;
            ev_matchedValue := matchedValue result |}
  else None.

(** The payload emitted on [monitorEvents], lines 606-619. *)
Definition checked_payload (clock : Clock) (endpoint : MonitorEndpoint)
    (result : CheckResult) : MonitorCheckedPayload :=
  let next := computeStatus endpoint (checkPassed result) in
  {| endpointId := ep_id endpoint;
     groupId := group_id endpoint;
     monitorType := monitor_type endpoint;
     payload_status := sc_status next;
     payload_responseCode := responseCode result;
     lastCheckedAt := iso_now clock;
     lastError := errorMessage result;
     lastMatchValue := matchedValue result;
     consecutiveFailures := failures next;
     consecutiveSuccesses := successes next;
     responseTimeMs := finishedAt clock - startedAt clock;
     payload_errorMessage := errorMessage result |}.

(** The writes of [runCheck] once the probe has answered, lines 561-621:
    the [UPDATE], the [INSERT] and the emitted event.  The pool is taken
    to carry out both statements. *)
Definition record_check (clock : Clock) (endpoint : MonitorEndpoint)
    (result : CheckResult) (before : World) : World :=
  let next := computeStatus endpoint (checkPassed result) in
  {| monitor_endpoints :=
       update_endpoint (sql_now clock) next result (interval_seconds endpoint)
         (ep_id endpoint) (monitor_endpoints before);
     monitor_check_runs :=
       monitor_check_runs before ++
       [{| run_endpoint_id := ep_id endpoint;
           run_status := sc_status next;
           run_response_code := responseCode result;
           run_matched_value := matchedValue result;
           run_error_message := errorMessage result;
           run_response_time_ms := finishedAt clock - startedAt clock |}];
     emitted := emitted before ++ [checked_payload clock endpoint result] |}.

(** [runCheck], lines 540-642: the world it leaves and the task it is. *)
Definition runCheck (clock : Clock) (endpoint : MonitorEndpoint) (before : World)
  : World * Task (option MonitorCheckedPayload) :=
  if is_paused endpoint =? 1 then (before, ret None)
  else
    let probe := run_probe endpoint in
    match promise probe with
    | SettlesAfter _ (Fulfilled result) =>
        (record_check clock endpoint result before,
         _ ← probe;
         _ ← match transition_event clock endpoint result with
             | Some event => notifyStatusChange config network event
             | None => ret tt
             end;
         ret (Some (checked_payload clock endpoint result)))
    | _ => (before, _ ← probe; ret None)
    end.

(** One activity of the process. *)
Definition step (p : Process) (a : Activity) : Process :=
  match a with
  | StartupTimerFires =>
      {| world := world p;
         log := log p ++ effects (notifier_startup_timer config network) |}
  | CheckRuns clock endpoint =>
      let '(after, task) := runCheck clock endpoint (world p) in
      {| world := after; log := log p ++ effects task |}
  end.

Definition run_process (p : Process) (activities : list Activity) : Process :=
  fold_left step activities p.

End Pipeline.

(** ** A reference runtime

    A small implementation of the built-ins, enough to run the engine on
    examples: JSON without [\u] escapes, numbers as the rationals their
    decimal spelling denotes, the timer rule of Node.js. *)
Module Reference.

Definition char_is (code : nat) (c : ascii) : bool := (nat_of_ascii c =? code)%nat.

(** Does [s] start with [word]?  Then what follows it. *)
Fixpoint after_prefix (word s : string) : option string :=
  match word, s with
  | EmptyString, _ => Some s
  | String a word', String b s' =>
      if Ascii.eqb a b then after_prefix word' s' else None
  | _, _ => None
  end.

(** The character an escape sequence stands for. *)
Definition unescape (e : ascii) : option ascii :=
  if char_is 34 e || char_is 92 e || char_is 47 e then Some e
  else if char_is 110 e then Some (ascii_of_nat 10)
  else if char_is 116 e then Some (ascii_of_nat 9)
  else if char_is 114 e then Some (ascii_of_nat 13)
  else if char_is 98 e then Some (ascii_of_nat 8)
  else if char_is 102 e then Some (ascii_of_nat 12)
  else None.

(** The characters of a string literal up to its closing quote. *)
Fixpoint parse_chars (s : string) : option (string * string) :=
  match s with
  | EmptyString => None
  | String c rest =>
      if char_is 34 c then Some (EmptyString, rest)
      else if char_is 92 c then
        match rest with
        | String e rest' =>
            match unescape e, parse_chars rest' with
            | Some u, Some (text, more) => Some (String u text, more)
            | _, _ => None
            end
        | EmptyString => None
        end
      else if (nat_of_ascii c <? 32)%nat then None
      else
        match parse_chars rest with
        | Some (text, more) => Some (String c text, more)
        | None => None
        end
  end.

(** An integer literal: an optional minus sign and digits without a
    leading zero. *)
Definition parse_integer (s : string) : option (Z * string) :=
  let '(negative, unsigned) :=
    match s with
    | String c rest => if char_is 45 c then (true, rest) else (false, s)
    | EmptyString => (false, s)
    end in
  match span is_digit unsigned with
  | (EmptyString, _) => None
  | (String d ds, more) =>
      if char_is 48 d && negb (String.eqb ds "") then None
      else
        let magnitude := Z.of_N (digits_value 0 (String d ds)) in
        Some (if negative then - magnitude else magnitude, more)
  end.

(** The fraction of a number literal: its digits, or nothing. *)
Definition parse_fraction (s : string) : option (string * string) :=
  match s with
  | String c rest =>
      if char_is 46 c then
        match span is_digit rest with
        | (EmptyString, _) => None
        | (digits, more) => Some (digits, more)
        end
      else Some (EmptyString, s)
  | EmptyString => Some (EmptyString, s)
  end.

(** The exponent of a number literal, [0] when there is none. *)
Definition parse_exponent (s : string) : option (Z * string) :=
  match s with
  | String c rest =>
      if char_is 101 c || char_is 69 c then
        let '(negative, unsigned) :=
          match rest with
          | String sign rest' =>
              if char_is 45 sign then (true, rest')
              else if char_is 43 sign then (false, rest')
              else (false, rest)
          | EmptyString => (false, rest)
          end in
        match span is_digit unsigned with
        | (EmptyString, _) => None
        | (digits, more) =>
            let magnitude := Z.of_N (digits_value 0 digits) in
            Some (if negative then - magnitude else magnitude, more)
        end
      else Some (0, s)
  | EmptyString => Some (0, s)
  end.

(** A number literal and the rational it denotes. *)
Definition parse_number (s : string) : option (Q * string) :=
  match parse_integer s with
  | Some (whole, more) =>
      match parse_fraction more with
      | Some (digits, more') =>
          match parse_exponent more' with
          | Some (exponent, more'') =>
              let negative := match s with String c _ => char_is 45 c | _ => false end in
              let places := Z.of_nat (String.length digits) in
              let fraction := Z.of_N (digits_value 0 digits) in
              let mantissa :=
                whole * 10 ^ places + (if negative then - fraction else fraction) in
              let shift := exponent - places in
              Some (Qred (if 0 <=? shift
                          then inject_Z (mantissa * 10 ^ shift)
                          else mantissa # Z.to_pos (10 ^ (- shift))),
                    more'')
          | None => None
          end
      | None => None
      end
  | None => None
  end.

(** A literal [null], [true] or [false], or a number. *)
Definition parse_atom (text : string) : option (JsValue * string) :=
  match after_prefix "null" text, after_prefix "true" text, after_prefix "false" text with
  | Some more, _, _ => Some (JNull, more)
  | _, Some more, _ => Some (JBool true, more)
  | _, _, Some more => Some (JBool false, more)
  | _, _, _ =>
      match parse_number text with
      | Some (q, more) => Some (JNum (Finite q), more)
      | None => None
      end
  end.

(** [o[key] = value] on the properties read so far: a key read twice
    keeps its place and takes the later value. *)
Fixpoint set_property (key : string) (value : JsValue) (props : list (string * JsValue))
  : list (string * JsValue) :=
  match props with
  | [] => [(key, value)]
  | (k, v) :: rest =>
      if String.eqb k key then (k, value) :: rest
      else (k, v) :: set_property key value rest
  end.

Definition object_of_members (members : list (string * JsValue)) : JsValue :=
  JObj (fold_left (fun props '(key, value) => set_property key value props) members []).

Fixpoint parse_value (fuel : nat) (s : string) : option (JsValue * string) :=
  match fuel with
  | O => None
  | S fuel' =>
      match trimStart s with
      | EmptyString => None
      | String c rest as text =>
          if char_is 34 c then
            match parse_chars rest with
            | Some (str, more) => Some (JStr str, more)
            | None => None
            end
          else if char_is 91 c then
            match trimStart rest with
            | String c' more =>
                if char_is 93 c' then Some (JArr [], more)
                else
                  match parse_elements fuel' rest with
                  | Some (items, more') => Some (JArr items, more')
                  | None => None
                  end
            | EmptyString => None
            end
          else if char_is 123 c then
            match trimStart rest with
            | String c' more =>
                if char_is 125 c' then Some (JObj [], more)
                else
                  match parse_members fuel' rest with
                  | Some (members, more') => Some (object_of_members members, more')
                  | None => None
                  end
            | EmptyString => None
            end
          else parse_atom text
      end
  end
with parse_elements (fuel : nat) (s : string) : option (list JsValue * string) :=
  match fuel with
  | O => None
  | S fuel' =>
      match parse_value fuel' s with
      | Some (item, more) =>
          match trimStart more with
          | String c more' =>
              if char_is 44 c then
                match parse_elements fuel' more' with
                | Some (items, tail) => Some (item :: items, tail)
                | None => None
                end
              else if char_is 93 c then Some ([item], more')
              else None
          | EmptyString => None
          end
      | None => None
      end
  end
with parse_members (fuel : nat) (s : string)
  : option (list (string * JsValue) * string) :=
  match fuel with
  | O => None
  | S fuel' =>
      match trimStart s with
      | String q rest =>
          if char_is 34 q then
            match parse_chars rest with
            | Some (key, more) =>
                match trimStart more with
                | String colon more' =>
                    if char_is 58 colon then
                      match parse_value fuel' more' with
                      | Some (value, more'') =>
                          match trimStart more'' with
                          | String c tail =>
                              if char_is 44 c then
                                match parse_members fuel' tail with
                                | Some (props, tail') =>
                                    Some ((key, value) :: props, tail')
                                | None => None
                                end
                              else if char_is 125 c then Some ([(key, value)], tail)
                              else None
                          | EmptyString => None
                          end
                      | None => None
                      end
                    else None
                | EmptyString => None
                end
            | None => None
            end
          else None
      | EmptyString => None
      end
  end.

(** [JSON.parse]: one value, white space around it, nothing else. *)
Definition parse (s : string) : option JsValue :=
  match parse_value (S (S (String.length s))) s with
  | Some (value, more) =>
      if String.eqb (trimStart more) "" then Some value else None
  | None => None
  end.

(** The least [k <= fuel] with [den] dividing [10^k], if any. *)
Fixpoint decimal_places (fuel : nat) (k : Z) (den : Z) : option Z :=
  if (10 ^ k) mod den =? 0 then Some k
  else match fuel with
       | O => None
       | S fuel' => decimal_places fuel' (k + 1) den
       end.

(** The digits of [n], padded with zeros on the left to [width] digits. *)
Definition padded (width : nat) (n : Z) : string :=
  let digits := Z_to_string n in
  String.concat "" (repeat "0" (width - String.length digits)) ++ digits.

(** Integers and finite decimals print in decimal notation (no exponent
    notation for the very large and the very small); a rational with no
    finite decimal expansion, which no text parses to, prints as a
    fraction. *)
Definition number_text (n : JsNumber) : string :=
  match n with
  | Finite q =>
      let numerator := Qnum (Qred q) in
      let denominator := Zpos (Qden (Qred q)) in
      match decimal_places 400 0 denominator with
      | Some 0 => Z_to_string numerator
      | Some places =>
          let scaled := Z.abs numerator * 10 ^ places / denominator in
          (if numerator <? 0 then "-" else "")
          ++ Z_to_string (scaled / 10 ^ places) ++ "."
          ++ padded (Z.to_nat places) (scaled mod 10 ^ places)
      | None => Z_to_string numerator ++ "/" ++ Z_to_string denominator
      end
  | NaN => "NaN"
  | Infinity true => "-Infinity"
  | Infinity false => "Infinity"
  end.

Definition hex_digit (n : nat) : ascii :=
  if (n <? 10)%nat then ascii_of_nat (48 + n) else ascii_of_nat (87 + n).

(** The escape of a character inside a JSON string. *)
Definition escape_char (c : ascii) : string :=
  let n := nat_of_ascii c in
  let backslash := String (ascii_of_nat 92) EmptyString in
  if char_is 34 c || char_is 92 c then backslash ++ String c EmptyString
  else if char_is 10 c then backslash ++ "n"
  else if char_is 13 c then backslash ++ "r"
  else if char_is 9 c then backslash ++ "t"
  else if char_is 8 c then backslash ++ "b"
  else if char_is 12 c then backslash ++ "f"
  else if (n <? 32)%nat then
    backslash ++ "u00" ++ String (hex_digit (n / 16)) (String (hex_digit (n mod 16)) "")
  else String c EmptyString.

Fixpoint quote_chars (s : string) : string :=
  match s with
  | EmptyString => EmptyString
  | String c rest => escape_char c ++ quote_chars rest
  end.

Definition quote (s : string) : string := dquote ++ quote_chars s ++ dquote.

Definition join (separator : string) (parts : list string) : string :=
  String.concat separator parts.

(** [JSON.stringify]: properties that are [undefined] are left out. *)
Fixpoint stringify (v : JsValue) : string :=
  match v with
  | JUndefined => "null"
  | JNull => "null"
  | JBool true => "true"
  | JBool false => "false"
  | JNum (Finite q) => number_text (Finite q)
  | JNum _ => "null"
  | JStr s => quote s
  | JArr items => "[" ++ join "," (map stringify items) ++ "]"
  | JObj props =>
      "{" ++ join ","
               ((fix members (ps : list (string * JsValue)) : list string :=
                   match ps with
                   | [] => []
                   | (_, JUndefined) :: rest => members rest
                   | (key, value) :: rest =>
                       (quote key ++ ":" ++ stringify value) :: members rest
                   end) props)
        ++ "}"
  end.

(** [String(object)]: arrays join their elements. *)
Definition object_text (v : JsValue) : string :=
  match v with
  | JArr items =>
      join ","
        (map (fun item =>
                match item with
                | JStr s => s
                | JNum n => number_text n
                | JBool true => "true"
                | JBool false => "false"
                | JNull | JUndefined => ""
                | _ => "[object Object]"
                end) items)
  | _ => "[object Object]"
  end.

(** [Number(text)] on decimal spellings; the empty string is [0]. *)
Definition number_of_text (s : string) : JsNumber :=
  if String.eqb (trim s) "" then Finite 0
  else match parse_number (trim s) with
       | Some (q, EmptyString) => Finite q
       | _ => NaN
       end.

(** Node.js: a delay that is not within [1, 2^31 - 1] is set to 1, and a
    fractional delay is truncated. *)
Definition node_timer_delay (n : JsNumber) : N :=
  match n with
  | Finite q =>
      if Qle_bool 1 q && Qle_bool q 2147483647 then Z.to_N (Qfloor q) else 1%N
  | _ => 1%N
  end.

(** Accepts the spelling [toISOString] itself produces. *)
Definition iso_text (s : string) : option string :=
  if (String.length s =? 24)%nat
     && match String.get 10 s, String.get 23 s with
        | Some t, Some z => char_is 84 t && char_is 90 z
        | _, _ => false
        end
  then Some s else None.

#[export] Instance platform : Platform := {|
  JSON_parse := parse;
  JSON_stringify := stringify;
  Number_toString := number_text;
  String_toNumber := number_of_text;
  Object_toString := object_text;
  Object_toNumber := fun v => number_of_text (object_text v);
  timer_delay := node_timer_delay;
  Date_toISOString := iso_text;
  invalid_date_message := "Invalid time value";
|}.

End Reference.

(** ** Notions the properties are stated with *)

(** The triple the specification writes [(status, failures, successes)]. *)
Definition machine_state (endpoint : MonitorEndpoint) : MonitorStatus * Z * Z :=
  (default pending (status endpoint),
   consecutive_failures endpoint,
   consecutive_successes endpoint).

(** The texts of the comparator examples: [{"a":1}] and ["pong"]. *)
Definition object_a1_text : string := "{" ++ dquote ++ "a" ++ dquote ++ ":1}".
Definition pong_text : string := dquote ++ "pong" ++ dquote.

(** Every value the task may return satisfies [P]. *)
Definition returns {A} (P : A -> Prop) (task : Task A) : Prop :=
  forall ms a, promise task = SettlesAfter ms (Fulfilled a) -> P a.

(** A check that did not pass says why. *)
Definition reported (result : CheckResult) : Prop :=
  checkPassed result = false -> errorMessage result <> None.

(** The probe command of the endpoint has the [stream.info:] form and
    names no stream. *)
Definition names_no_stream (endpoint : MonitorEndpoint) : Prop :=
  let command := trimmed_or (probe_command endpoint) "jetstream.info" in
  String.prefix "stream.info:" command = true
  /\ trim (slice_from (String.length "stream.info:") command) = "".

(** The check a missing stream name ends in. *)
Definition stream_name_required : CheckResult :=
  {| checkPassed := false;
     responseCode := Some 500;
     matchedValue := None;
     errorMessage := Some "stream.info command requires stream name" |}.

(** A reading of the specification: a NATS probe whose command names no
    stream fails without any network call. *)
Definition stream_name_checked_before_network `{Platform} : Prop :=
  forall (config : Config) (network : Network) (endpoint : MonitorEndpoint),
    names_no_stream endpoint ->
    network_calls (runNatsCheck config network endpoint) = []
    /\ exists ms,
         promise (runNatsCheck config network endpoint)
         = SettlesAfter ms (Fulfilled stream_name_required).

(** The check an invalid port ends in. *)
Definition invalid_tcp_port : CheckResult :=
  {| checkPassed := false;
     responseCode := Some 500;
     matchedValue := None;
     errorMessage := Some "Invalid TCP port in connection_json" |}.

(** A check that failed without a network call. *)
Definition failed_locally (task : Task CheckResult) : Prop :=
  network_calls task = []
  /\ exists ms result,
       promise task = SettlesAfter ms (Fulfilled result)
       /\ checkPassed result = false
       /\ errorMessage result <> None.

(** The test of line 497 on a port: it is not finite, or under 1, or over
    65535. *)
Definition port_out_of_range (port : JsNumber) : bool :=
  negb (Number_isFinite port)
  || number_lt port (Finite 1)
  || number_gt port (Finite 65535).

(** The port the probe of the endpoint reads from the connection, with
    its default (lines 311, 372 and 494), for the probes that read one:
    the MySQL and Redis probes do when the connection has no [url]. *)
Definition configured_port `{Platform} (endpoint : MonitorEndpoint) : option JsNumber :=
  let connection := parseConnection (connection_json endpoint) in
  let port (fallback : Z) :=
    ToNumber (nullish_or (get_property connection "port") (num fallback)) in
  match monitor_type endpoint with
  | tcp => Some (port 80)
  | mysql =>
      if is_null (nonblank_string (get_property connection "url"))
      then Some (port 3306) else None
  | redis =>
      if is_null (nonblank_string (get_property connection "url"))
      then Some (port 6379) else None
  | _ => None
  end.

(** The configuration errors the specification names: an HTTP method that
    is not supported, connection JSON that does not parse, a port that is
    not valid. *)
Definition malformed_configuration `{Platform} (endpoint : MonitorEndpoint) : Prop :=
  (monitor_type endpoint = http
   /\ includes ALLOWED_METHODS (ep_method endpoint) = false)
  \/ (monitor_type endpoint <> http
      /\ exists text,
           connection_json endpoint = JStr text /\ text <> "" /\ JSON_parse text = None)
  \/ (exists port,
         configured_port endpoint = Some port /\ port_out_of_range port = true).

(** A reading of the specification: every configuration error fails the
    check before any network call. *)
Definition configuration_errors_fail_locally `{Platform} : Prop :=
  forall (config : Config) (network : Network) (endpoint : MonitorEndpoint),
    malformed_configuration endpoint ->
    failed_locally (run_probe config network endpoint).

(** ** Sample data *)

Module Examples.

(** A monitor of the given kind; the fields the kinds differ in are
    arguments. *)
Definition monitor (id : Z) (name : string) (kind : MonitorType) (method : string)
    (connection : JsValue) (command : option string) (now : option MonitorStatus)
  : MonitorEndpoint :=
  {| ep_id := id;
     group_id := 1;
     group_name := Some "Core";
     ep_name := name;
     monitor_type := kind;
     ep_url := "https://api.example.com/payments/health";
     ep_method := method;
     headers_json := JStr "{}";
     body_text := None;
     expected_status := 200;
     expected_json_path := None;
     expected_json_value := None;
     connection_json := connection;
     probe_command := command;
     expected_probe_value := None;
     interval_seconds := 60;
     down_retries := 3;
     up_retries := 2;
     status := now;
     consecutive_failures := 0;
     consecutive_successes := 0;
     is_paused := 0 |}.

(** A TCP monitor, still [pending], with thresholds 3 and 2. *)
Definition tcp_endpoint : MonitorEndpoint :=
  monitor 7 "gateway" tcp "GET"
    (JObj [("host", JStr "10.0.0.5"); ("port", num 443)]) None (Some pending).

(** A TCP monitor whose port is out of range. *)
Definition bad_port_endpoint : MonitorEndpoint :=
  monitor 13 "bad-port" tcp "GET"
    (JObj [("host", JStr "10.0.0.5"); ("port", num 70000)]) None (Some pending).

(** A NATS monitor whose command names no stream. *)
Definition nats_endpoint : MonitorEndpoint :=
  monitor 8 "orders-stream" nats "GET"
    (JObj [("servers", JArr [JStr "nats://10.0.0.6:4222"])])
    (Some "stream.info: ") (Some up).

(** The same monitor with the default command. *)
Definition jetstream_endpoint : MonitorEndpoint :=
  monitor 9 "jetstream" nats "GET"
    (JObj [("servers", JArr [JStr "nats://10.0.0.6:4222"])]) None (Some up).

(** A MySQL monitor with the default statement. *)
Definition mysql_endpoint : MonitorEndpoint :=
  monitor 10 "orders-db" mysql "GET"
    (JObj [("host", JStr "10.0.0.7"); ("port", num 3306); ("user", JStr "monitor")])
    None (Some up).

(** A Redis monitor whose connection URL has no scheme. *)
Definition redis_endpoint : MonitorEndpoint :=
  monitor 11 "cache" redis "GET" (JObj [("url", JStr "10.0.0.8:6379")]) None (Some up).

(** An HTTP monitor whose method is not one of the allowed ones. *)
Definition http_endpoint : MonitorEndpoint :=
  monitor 12 "Payments API" http "FETCH" JNull None (Some up).

Definition webhook_target : NotificationTarget :=
  {| target_name := "incident-webhook";
     target_type := webhook;
     target_token := "";
     target_channel := "";
     target_url := "https://example.com/hooks/uptime";
     target_events := Some [down];
     target_headers := [("Authorization", "Bearer token")] |}.

Definition slack_target : NotificationTarget :=
  {| target_name := "ops-slack";
     target_type := slack;
     target_token := "xoxb-token";
     target_channel := "C0123456789";
     target_url := "";
     target_events := Some [down; up];
     target_headers := [] |}.

Definition config : Config :=
  {| nodeEnv := "production";
     requestTimeoutMs := Finite 10000;
     notifications_enabled := true;
     notifications_targets := [webhook_target; slack_target] |}.

Definition response_200 : Response :=
  {| resp_status := 200;
     resp_text := SettlesAfter 1 (Fulfilled "ok");
     resp_json := SettlesAfter 1 (Fulfilled (JObj [("ok", JBool true)])) |}.

Definition response_503 : Response :=
  {| resp_status := 503;
     resp_text := SettlesAfter 1 (Fulfilled "unavailable");
     resp_json := SettlesAfter 1 (Rejected (ErrorObject "Unexpected token")) |}.

Definition healthy_mysql : MysqlConnection :=
  {| conn_query := fun _ => SettlesAfter 3 (Fulfilled (JArr [JObj [("health", num 1)]]));
     conn_end := SettlesAfter 1 (Fulfilled tt) |}.

Definition healthy_redis : RedisClient :=
  {| client_connect := SettlesAfter 2 (Fulfilled tt);
     client_sendCommand := fun _ => SettlesAfter 1 (Fulfilled (JStr "PONG"));
     client_isOpen := true;
     client_quit := SettlesAfter 1 (Fulfilled tt) |}.

Definition healthy_jetstream : JetStreamManager :=
  {| getAccountInfo := SettlesAfter 4 (Fulfilled (JObj [("streams", num 2)]));
     streams_info := fun stream =>
       SettlesAfter 4 (Fulfilled (JObj [("config", JObj [("name", JStr stream)])])) |}.

Definition healthy_nats : NatsConnection :=
  {| jetstreamManager := SettlesAfter 4 (Fulfilled healthy_jetstream);
     nc_close := SettlesAfter 1 (Fulfilled tt) |}.

(** Every host answers, and answers well. *)
Definition healthy_network : Network :=
  {| fetch := fun _ => SettlesAfter 30 (Fulfilled response_200);
     mysql_createConnection := fun _ => SettlesAfter 5 (Fulfilled healthy_mysql);
     createClient := fun _ => Fulfilled healthy_redis;
     connectNats := fun _ => SettlesAfter 8 (Fulfilled healthy_nats);
     net_createConnection := fun _ _ => SettlesAfter 12 (Fulfilled tt) |}.

(** The webhook answers 503 and Slack accepts the message. *)
Definition webhook_down_network : Network :=
  {| fetch := fun request =>
       if String.eqb (fetch_url request) "https://example.com/hooks/uptime"
       then SettlesAfter 20 (Fulfilled response_503)
       else SettlesAfter 30 (Fulfilled response_200);
     mysql_createConnection := mysql_createConnection healthy_network;
     createClient := createClient healthy_network;
     connectNats := connectNats healthy_network;
     net_createConnection := net_createConnection healthy_network |}.

(** The NATS server accepts the connection and answers, but closing the
    connection fails. *)
Definition nats_close_fails_network : Network :=
  {| fetch := fetch healthy_network;
     mysql_createConnection := mysql_createConnection healthy_network;
     createClient := createClient healthy_network;
     connectNats := fun _ =>
       SettlesAfter 8
         (Fulfilled
            {| jetstreamManager := jetstreamManager healthy_nats;
               nc_close := SettlesAfter 1 (Rejected (ErrorObject "CONNECTION_CLOSED")) |});
     net_createConnection := net_createConnection healthy_network |}.

(** The Redis driver refuses a URL it cannot parse, as its constructor
    does. *)
Definition strict_redis_network : Network :=
  {| fetch := fetch healthy_network;
     mysql_createConnection := mysql_createConnection healthy_network;
     createClient := fun options =>
       match options with
       | RedisUrl url =>
           if String.prefix "redis://" url || String.prefix "rediss://" url
           then Fulfilled healthy_redis
           else Rejected (ErrorObject "Invalid URL")
       | _ => Fulfilled healthy_redis
       end;
     connectNats := connectNats healthy_network;
     net_createConnection := net_createConnection healthy_network |}.

(** The MySQL server accepts the connection and never answers the
    statement. *)
Definition mysql_silent_network : Network :=
  {| fetch := fetch healthy_network;
     mysql_createConnection := fun _ =>
       SettlesAfter 5
         (Fulfilled
            {| conn_query := fun _ => NeverSettles;
               conn_end := SettlesAfter 1 (Fulfilled tt) |});
     createClient := createClient healthy_network;
     connectNats := connectNats healthy_network;
     net_createConnection := net_createConnection healthy_network |}.

Definition clock : Clock :=
  {| startedAt := 1771601400000;
     finishedAt := 1771601400012;
     sql_now := 1771601400;
     iso_now := "2026-02-20T15:30:00.012Z" |}.

Definition tcp_row : EndpointRow :=
  {| columns := tcp_endpoint;
     last_checked_at := None;
     last_response_code := None;
     last_error := None;
     last_match_value := None;
     next_check_at := 1771601399 |}.

(** One monitor, not checked yet. *)
Definition initial_world : World :=
  {| monitor_endpoints := {[ 7 := tcp_row ]};
     monitor_check_runs := [];
     emitted := [] |}.

(** The process when it has just started. *)
Definition started : Process := {| world := initial_world; log := [] |}.

End Examples.


(** ** The scheduler (monitorService.ts, lines 204-219 and 644-689) *)

From Stdlib Require Import DecimalN Qcanon.
From stdpp Require Import sorting.

Local Open Scope string_scope.
Local Open Scope Z_scope.

(** [getEndpointById], lines 204-219: the row with that [id], [None]
    where the query finds none.  (Every row has its group: the join
    drops nothing.) *)
Definition getEndpointById (before : World) (endpointId : Z) : option MonitorEndpoint :=
  columns <$> (monitor_endpoints before !! endpointId).

(** The [WHERE] clause of the query of [tick], line 656:
    [e.is_paused = 0 AND e.next_check_at <= NOW()]. *)
Definition is_due (now : Z) (row : EndpointRow) : bool :=
  (is_paused (columns row) =? 0) && (next_check_at row <=? now).

(** [ORDER BY e.next_check_at ASC] *)
Definition earlier (a b : EndpointRow) : Prop := next_check_at a <= next_check_at b.

#[global] Instance earlier_dec (a b : EndpointRow) : Decision (earlier a b).
Proof. unfold earlier. apply _. Defined.

#[global] Instance earlier_transitive : Transitive earlier.
Proof. unfold earlier. intros a b c Hab Hbc. lia. Qed.

#[global] Instance earlier_total : Total earlier.
Proof. unfold earlier. intros a b. lia. Qed.

(** The rows the query of [tick] returns, lines 649-660: the rows that
    are due, the most overdue first, fifty at most.  Rows with the same
    [next_check_at] come in the order of the table. *)
Definition due_rows (now : Z) (table : gmap Z EndpointRow) : list EndpointRow :=
  take 50
    (merge_sort earlier
       (filter (fun row => is_due now row = true) (map_to_list table).*2)).

Definition due_endpoints (now : Z) (table : gmap Z EndpointRow) : list MonitorEndpoint :=
  columns <$> due_rows now table.

(** The module's variables [timer] and [isTickRunning], lines 77-78,
    and what the runtime holds on their behalf: the intervals that are
    set, the handle the next [setInterval] will return, and the number of
    calls of [tick] that have passed line 646 and not reached their
    [finally] block. *)
Record Monitor := {
  timer : option nat;
  isTickRunning : bool;
  intervals : list nat;
  next_interval : nat;
  ticks_running : nat;
}.

(** The process before [startMonitor] is called. *)
Definition idle_monitor : Monitor :=
  {| timer := None;
     isTickRunning := false;
     intervals := [];
     next_interval := 0;
     ticks_running := 0 |}.

(** [tick] up to its first [await], lines 645-646: it returns at once
    when a tick is running, and raises the guard otherwise. *)
Definition enter_tick (m : Monitor) : Monitor :=
  if isTickRunning m then m
  else
    {| timer := timer m;
       isTickRunning := true;
       intervals := intervals m;
       next_interval := next_interval m;
       ticks_running := S (ticks_running m) |}.

(** The [finally] block of [tick], lines 663-665. *)
Definition leave_tick (m : Monitor) : Monitor :=
  {| timer := timer m;
     isTickRunning := false;
     intervals := intervals m;
     next_interval := next_interval m;
     ticks_running := pred (ticks_running m) |}.

(** [startMonitor], lines 668-676: nothing when [timer] is set; else an
    interval is set, its handle kept, and [tick] called. *)
Definition startMonitor (m : Monitor) : Monitor :=
  match timer m with
  | Some _ => m
  | None =>
      enter_tick
        {| timer := Some (next_interval m);
           isTickRunning := isTickRunning m;
           intervals := next_interval m :: intervals m;
           next_interval := S (next_interval m);
           ticks_running := ticks_running m |}
  end.

(** [stopMonitor], lines 678-682. *)
Definition stopMonitor (m : Monitor) : Monitor :=
  match timer m with
  | None => m
  | Some handle =>
      {| timer := None;
         isTickRunning := isTickRunning m;
         intervals := filter (fun other => other <> handle) (intervals m);
         next_interval := next_interval m;
         ticks_running := ticks_running m |}
  end.

(** What happens to the scheduler: the two exported functions are
    called, an interval fires (its callback calls [tick]), the checks of a
    running tick have all been awaited. *)
Inductive MonitorEvent :=
| StartMonitor
| StopMonitor
| IntervalFires (handle : nat)
| TickSettles.

Definition monitor_step (m : Monitor) (event : MonitorEvent) : Monitor :=
  match event with
  | StartMonitor => startMonitor m
  | StopMonitor => stopMonitor m
  | IntervalFires handle =>
      if bool_decide (handle ∈ intervals m) then enter_tick m else m
  | TickSettles =>
      match ticks_running m with
      | O => m
      | S _ => leave_tick m
      end
  end.

Definition monitor_run (events : list MonitorEvent) : Monitor :=
  fold_left monitor_step events idle_monitor.

Section Scheduler.
Context `{Platform}.
Variable config : Config.
Variable network : Network.

Import TaskMonad.

(** When the probe of a check returns, if it does: the moment [runCheck]
    goes on to its writes. *)
Definition returns_after (endpoint : MonitorEndpoint) : option N :=
  match promise (run_probe config network endpoint) with
  | SettlesAfter ms (Fulfilled _) => Some ms
  | _ => None
  end.

(** The order in which checks started together reach their writes. *)
Definition writes_before (a b : MonitorEndpoint) : Prop :=
  match returns_after a, returns_after b with
  | Some ms, Some ms' => (ms <= ms')%N
  | Some _, None => True
  | None, Some _ => False
  | None, None => True
  end.

#[global] Instance writes_before_dec (a b : MonitorEndpoint) : Decision (writes_before a b).
Proof.
  unfold writes_before.
  destruct (returns_after a), (returns_after b); apply _.
Defined.

(** [tick], lines 644-666.  With the guard down, the due rows are read
    and their checks all started, each on the row as read; the writes of
    the checks land as their probes return; the task is the [await] of
    [Promise.all] inside [try ... finally].  [clock_of] gives the clock
    readings of each check. *)
Definition tick (clock_of : MonitorEndpoint -> Clock) (now : Z) (running : bool)
    (before : World) : World * Task unit :=
  if running then (before, ret tt)
  else
    let endpoints := due_endpoints now (monitor_endpoints before) in
    let checks :=
      map (fun endpoint => (runCheck config network (clock_of endpoint) endpoint before).2)
        endpoints in
    (fold_left
       (fun world endpoint =>
          (runCheck config network (clock_of endpoint) endpoint world).1)
       (merge_sort writes_before endpoints) before,
     try_finally (_ ← all_tasks checks; ret tt) (ret tt)).

(** The value of [isTickRunning] once [elapsed] milliseconds have passed
    since a tick was entered with the guard down: the guard stays up until
    the [finally] block has run. *)
Definition isTickRunning_after (entered : Task unit) (elapsed : N) : bool :=
  match promise entered with
  | SettlesAfter ms _ => (elapsed <? ms)%N
  | NeverSettles => true
  end.

(** [triggerCheckNow], lines 684-689. *)
Definition triggerCheckNow (clock : Clock) (endpointId : Z) (before : World)
  : World * Task (option MonitorCheckedPayload) :=
  match getEndpointById before endpointId with
  | None => (before, ret None)
  | Some endpoint => runCheck config network clock endpoint before
  end.

End Scheduler.

(** ** The configuration (config.ts) *)

(** [toLowerCase] on the ASCII letters. *)
Definition lower_char (c : ascii) : ascii :=
  let n := nat_of_ascii c in
  if (65 <=? n)%nat && (n <=? 90)%nat then ascii_of_nat (n + 32) else c.

Fixpoint toLowerCase (s : string) : string :=
  match s with
  | EmptyString => EmptyString
  | String c rest => String (lower_char c) (toLowerCase rest)
  end.

(** [s.split(sep)] for a separator of one character; [current] is the
    piece being read. *)
Fixpoint split_on (sep : ascii) (current : string) (s : string) : list string :=
  match s with
  | EmptyString => [current]
  | String c rest =>
      if Ascii.eqb c sep then current :: split_on sep "" rest
      else split_on sep (current ++ String c EmptyString) rest
  end.

(** [process.env]: the text of a variable that is set. *)
Definition Env := string -> option string.

(** [process.env.KEY] *)
Definition env_value (env : Env) (key : string) : JsValue :=
  match env key with
  | Some text => JStr text
  | None => JUndefined
  end.

(** A target as [normalizeNotificationTarget] returns it: the object of
    lines 40-47 or the one of lines 53-59.  A Slack target has empty
    [headers]. *)
Inductive NormalizedTarget :=
| SlackTarget (name token channel : string) (events : list string)
| WebhookTarget (name url : string) (events : list string)
    (headers : list (string * JsValue)).

Definition normalized_events (target : NormalizedTarget) : list string :=
  match target with
  | SlackTarget _ _ _ events => events
  | WebhookTarget _ _ events _ => events
  end.

Module ConfigFile.

(** [config.mysql] *)
Record MysqlSettings := {
  host : string;
  mysql_port : JsNumber;
  user : string;
  password : string;
  database : string;
  connectionLimit : JsNumber;
}.

(** The exported [config], lines 91-112. *)
Record Settings := {
  nodeEnv : string;
  port : JsNumber;
  monitorPollMs : JsNumber;
  requestTimeoutMs : JsNumber;
  corsOrigins : list string;
  mysql_settings : MysqlSettings;
  notifications_enabled : bool;
  notifications_targets : list NormalizedTarget;
}.

Section Load.
Context `{Platform}.
Variable env : Env.

(** [toNumber], lines 5-8. *)
Definition toNumber (value : JsValue) (fallback : JsNumber) : JsNumber :=
  let parsed := ToNumber value in
  if Number_isFinite parsed then parsed else fallback.

(** [parseJson], lines 10-17. *)
Definition parseJson (value : JsValue) (fallback : JsValue) : JsValue :=
  if negb (truthy value) then fallback
  else match JSON_parse (ToString value) with
       | Some parsed => parsed
       | None => fallback
       end.

(** [events && events.length ? events : ['up', 'down']] *)
Definition events_or_both (events : option (list string)) : list string :=
  match events with
  | Some (event :: more) => event :: more
  | _ => ["up"; "down"]
  end.

(** [normalizeNotificationTarget], lines 19-60; [None] is [null]. *)
Definition normalizeNotificationTarget (target : JsValue) : option NormalizedTarget :=
  if negb (truthy target) || negb (is_object target) then None
  else
    let field key := get_member target (TName key) in
    let type := toLowerCase (trim (ToString (nullish_or (field "type") (JStr "webhook")))) in
    let events :=
      match field "events" with
      | JArr items =>
          Some (filter (fun event => event = "up" \/ event = "down")
                  (map (fun event => toLowerCase (trim (ToString event))) items))
      | _ => None
      end in
    let headers :=
      match field "headers" with
      | JObj props => props
      | _ => []
      end in
    if String.eqb type "slack" then
      let token := trim (ToString (nullish_or (field "token") (JStr ""))) in
      let channel := trim (ToString (nullish_or (field "channel") (JStr ""))) in
      if String.eqb token "" || String.eqb channel "" then None
      else
        Some (SlackTarget
                (trim (ToString (nullish_or (field "name") (JStr "slack-target"))))
                token channel (events_or_both events))
    else
      let url := trim (ToString (nullish_or (field "url") (JStr ""))) in
      if String.eqb url "" then None
      else
        Some (WebhookTarget
                (trim (ToString (nullish_or (field "name") (JStr (type ++ "-target")))))
                url (events_or_both events) headers).

(** The test of lines 70-75. *)
Definition is_slack_target_for (slackChannel slackToken : string)
    (target : NormalizedTarget) : bool :=
  match target with
  | SlackTarget _ token channel _ =>
      String.eqb channel slackChannel && String.eqb token slackToken
  | WebhookTarget _ _ _ _ => false
  end.

(** [parseNotificationTargets], lines 62-89. *)
Definition parseNotificationTargets : list NormalizedTarget :=
  let fromJson := parseJson (env_value env "NOTIFICATION_TARGETS_JSON") (JArr []) in
  let jsonTargets :=
    match fromJson with
    | JArr items => omap normalizeNotificationTarget items
    | _ => []
    end in
  let slackToken :=
    trim (ToString (nullish_or (env_value env "SLACK_BOT_TOKEN") (JStr ""))) in
  let slackChannel :=
    trim (ToString (nullish_or (env_value env "SLACK_CHANNEL_ID") (JStr ""))) in
  if String.eqb slackToken "" || String.eqb slackChannel "" then jsonTargets
  else if existsb (is_slack_target_for slackChannel slackToken) jsonTargets
  then jsonTargets
  else
    (jsonTargets
     ++ [SlackTarget "slack-default" slackToken slackChannel ["up"; "down"]])%list.

(** [text.split(',').map((origin) => origin.trim()).filter(Boolean)] *)
Definition origins_of (text : string) : list string :=
  filter (fun origin => origin <> "") (map trim (split_on "," "" text)).

(** [process.env.KEY ?? fallback] *)
Definition env_or (key fallback : string) : string :=
  default fallback (env key).

(** [export const config], lines 91-112. *)
Definition config : Settings :=
  {| nodeEnv := env_or "NODE_ENV" "development";
     port := toNumber (env_value env "PORT") (Finite 3001);
     monitorPollMs := toNumber (env_value env "MONITOR_POLL_MS") (Finite 1000);
     requestTimeoutMs := toNumber (env_value env "REQUEST_TIMEOUT_MS") (Finite 10000);
     corsOrigins :=
       origins_of (env_or "CORS_ORIGINS" "http://localhost:3000,http://localhost:5173");
     mysql_settings :=
       {| host := env_or "MYSQL_HOST" "localhost";
          mysql_port := toNumber (env_value env "MYSQL_PORT") (Finite 3306);
          user := env_or "MYSQL_USER" "root";
          password := env_or "MYSQL_PASSWORD" "";
          database := env_or "MYSQL_DATABASE" "uptime_monitor";
          connectionLimit := toNumber (env_value env "MYSQL_CONNECTION_LIMIT") (Finite 10) |};
     notifications_enabled :=
       negb (String.eqb (toLowerCase (env_or "NOTIFICATIONS_ENABLED" "true")) "false");
     notifications_targets := parseNotificationTargets |}.

End Load.

End ConfigFile.

(** ** The server: migrations (db.ts) and the endpoint routes (index.ts) *)

(** The two files are the text of [src/unnamed/part_002], db.ts first;
    line numbers are those of that text. *)

(** Synchronous code that may throw: [Fulfilled] is a value returned,
    [Rejected] a value thrown. *)
#[global] Instance Settled_ret : MRet Settled := @Fulfilled.
#[global] Instance Settled_bind : MBind Settled :=
  fun A B rest first =>
    match first with
    | Fulfilled a => rest a
    | Rejected error => Rejected error
    end.

(** [if (condition) throw new Error(message)] *)
Definition throw_if (condition : bool) (message : string) : Settled unit :=
  if condition then Rejected (ErrorObject message) else Fulfilled tt.

(** [try { body } catch { handler }] around synchronous code. *)
Definition catching {A} (body : Settled A) (handler : Thrown -> Settled A) : Settled A :=
  match body with
  | Rejected error => handler error
  | Fulfilled _ => body
  end.

(** What the browser side of the runtime adds to [Platform]. *)
Class WebPlatform := {
  (** [new URL(text).protocol], [None] where the constructor throws *)
  URL_protocol : string -> option string;
  (** the message of the [TypeError] the constructor throws *)
  URL_error : string -> string;
  (** the message of the [SyntaxError] [JSON.parse] throws on a text *)
  JSON_parse_error : string -> string;
}.

(** [Math.trunc] *)
Definition Math_trunc (n : JsNumber) : JsNumber :=
  match n with
  | Finite q => Finite (inject_Z (Z.quot (Qnum q) (Zpos (Qden q))))
  | other => other
  end.

(** [Number.isInteger(value)] on a number or [null] ([None]), with the
    integer it is. *)
Definition integer_of (value : option JsNumber) : option Z :=
  match value with
  | Some (Finite q) =>
      if Zpos (Qden (Qred q)) =? 1 then Some (Qnum (Qred q)) else None
  | _ => None
  end.

(** [if (!Number.isInteger(value) || value < least) throw new Error(message)],
    and the integer when nothing is thrown. *)
Definition integer_at_least (value : option JsNumber) (least : Z) (message : string)
  : Settled Z :=
  match integer_of value with
  | Some n => if n <? least then Rejected (ErrorObject message) else Fulfilled n
  | None => Rejected (ErrorObject message)
  end.

(** [MONITOR_TYPES.has(text)], line 236, with the type it names. *)
Definition monitor_type_of_text (text : string) : option MonitorType :=
  if String.eqb text "http" then Some http
  else if String.eqb text "mysql" then Some mysql
  else if String.eqb text "redis" then Some redis
  else if String.eqb text "nats" then Some nats
  else if String.eqb text "tcp" then Some tcp
  else None.

(** The object [normalizeHttpPayload] and
    [normalizeConnectionMonitorPayload] return. *)
Record MonitorSpecific := {
  saved_url : string;
  saved_method : string;
  saved_headers_json : string;
  saved_body_text : option string;
  saved_expected_status : Z;
  saved_expected_json_path : option string;
  saved_expected_json_value : option string;
  saved_connection_json : option string;
  saved_probe_command : option string;
  saved_expected_probe_value : option string;
}.

(** The object [normalizeEndpointPayload] returns: its six own fields and
    the spread of the monitor-specific ones. *)
Record EndpointPayload := {
  saved_name : string;
  saved_monitor_type : MonitorType;
  saved_interval_seconds : Z;
  saved_down_retries : Z;
  saved_up_retries : Z;
  saved_group_id : Z;
  monitorSpecific : MonitorSpecific;
}.

(** A migration of [MIGRATIONS]: its version, its name, and the table its
    [up] creates (the columns are in the source). *)
Record Migration := {
  version : Z;
  migration_name : string;
  creates : string;
}.

(** [const MIGRATIONS], db.ts lines 9-87. *)
Definition MIGRATIONS : list Migration :=
  [{| version := 1; migration_name := "create_monitor_groups";
      creates := "monitor_groups" |};
   {| version := 2; migration_name := "create_monitor_endpoints";
      creates := "monitor_endpoints" |};
   {| version := 3; migration_name := "create_monitor_check_runs";
      creates := "monitor_check_runs" |}].

(** The database as the migrations see it: the tables that exist, and the
    rows of [schema_migrations] (version and name). *)
Record Schema := {
  tables : list string;
  schema_migrations : list (Z * string);
}.

(** [CREATE TABLE IF NOT EXISTS name] *)
Definition create_table_if_not_exists (name : string) (db : Schema) : Schema :=
  if bool_decide (name ∈ tables db) then db
  else {| tables := (tables db ++ [name])%list; schema_migrations := schema_migrations db |}.

(** [ensureSchemaMigrationsTable], lines 89-97. *)
Definition ensureSchemaMigrationsTable (db : Schema) : Schema :=
  create_table_if_not_exists "schema_migrations" db.

(** [getAppliedVersions], lines 99-102. *)
Definition getAppliedVersions (db : Schema) : list Z :=
  map fst (schema_migrations db).

(** One turn of the loop of [initDatabase], lines 108-116. *)
Definition apply_migration (appliedVersions : list Z) (db : Schema) (migration : Migration)
  : Schema :=
  if bool_decide (version migration ∈ appliedVersions) then db
  else
    let created := create_table_if_not_exists (creates migration) db in
    {| tables := tables created;
       schema_migrations :=
         (schema_migrations created
          ++ [(version migration, migration_name migration)])%list |}.

(** [initDatabase], lines 104-117. *)
Definition initDatabase (db : Schema) : Schema :=
  let ensured := ensureSchemaMigrationsTable db in
  let appliedVersions := getAppliedVersions ensured in
  fold_left (apply_migration appliedVersions) MIGRATIONS ensured.

(** The row with [is_paused] set. *)
Definition with_is_paused (paused : Z) (endpoint : MonitorEndpoint) : MonitorEndpoint :=
  {| ep_id := ep_id endpoint;
     group_id := group_id endpoint;
     group_name := group_name endpoint;
     ep_name := ep_name endpoint;
     monitor_type := monitor_type endpoint;
     ep_url := ep_url endpoint;
     ep_method := ep_method endpoint;
     headers_json := headers_json endpoint;
     body_text := body_text endpoint;
     expected_status := expected_status endpoint;
     expected_json_path := expected_json_path endpoint;
     expected_json_value := expected_json_value endpoint;
     connection_json := connection_json endpoint;
     probe_command := probe_command endpoint;
     expected_probe_value := expected_probe_value endpoint;
     interval_seconds := interval_seconds endpoint;
     down_retries := down_retries endpoint;
     up_retries := up_retries endpoint;
     status := status endpoint;
     consecutive_failures := consecutive_failures endpoint;
     consecutive_successes := consecutive_successes endpoint;
     is_paused := paused |}.

(** [SET is_paused = 1, next_check_at = DATE_ADD(NOW(), INTERVAL
    interval_seconds SECOND)], lines 708-711 and 993-996. *)
Definition pause_row (now : Z) (row : EndpointRow) : EndpointRow :=
  {| columns := with_is_paused 1 (columns row);
     last_checked_at := last_checked_at row;
     last_response_code := last_response_code row;
     last_error := last_error row;
     last_match_value := last_match_value row;
     next_check_at := now + interval_seconds (columns row) |}.

(** [SET is_paused = 0, next_check_at = NOW()], lines 743-746 and
    1020-1023. *)
Definition resume_row (now : Z) (row : EndpointRow) : EndpointRow :=
  {| columns := with_is_paused 0 (columns row);
     last_checked_at := last_checked_at row;
     last_response_code := last_response_code row;
     last_error := last_error row;
     last_match_value := last_match_value row;
     next_check_at := now |}.

(** The [UPDATE ... WHERE id = ?] of the pause and resume routes of an
    endpoint, lines 991-1000 and 1018-1027. *)
Definition pause_endpoint (now : Z) (id : Z) (table : gmap Z EndpointRow)
  : gmap Z EndpointRow :=
  alter (pause_row now) id table.

Definition resume_endpoint (now : Z) (id : Z) (table : gmap Z EndpointRow)
  : gmap Z EndpointRow :=
  alter (resume_row now) id table.

(** The [UPDATE ... WHERE group_id = ?] of the pause and resume routes of
    a group, lines 706-715 and 741-750. *)
Definition pause_group (now : Z) (group : Z) (table : gmap Z EndpointRow)
  : gmap Z EndpointRow :=
  (fun row => if group_id (columns row) =? group then pause_row now row else row)
    <$> table.

Definition resume_group (now : Z) (group : Z) (table : gmap Z EndpointRow)
  : gmap Z EndpointRow :=
  (fun row => if group_id (columns row) =? group then resume_row now row else row)
    <$> table.

(** The [origin] callback of [corsOptions], lines 201-205: [Fulfilled
    true] is [callback(null, true)], [Rejected] the error handed to the
    callback. *)
Definition cors_origin (corsOrigins : list string) (origin : option string)
  : Settled bool :=
  match nonempty origin with
  | None => Fulfilled true
  | Some value =>
      if includes corsOrigins value then Fulfilled true
      else Rejected (ErrorObject ("Origin " ++ value ++ " is not allowed by CORS"))
  end.

Section Routes.
Context `{Platform} `{WebPlatform}.

(** [toInteger], lines 239-243; [None] is [null]. *)
Definition toInteger (value : JsValue) (fallback : option JsNumber) : option JsNumber :=
  let parsed := ToNumber value in
  if negb (Number_isFinite parsed) then fallback else Some (Math_trunc parsed).

(** [parseJsonObjectInput], lines 245-263. *)
Definition parseJsonObjectInput (value : JsValue) (fieldLabel : string)
  : Settled (list (string * JsValue)) :=
  if is_nullish value || strict_eq_primitive value (JStr "") then Fulfilled []
  else
    match value with
    | JObj props => Fulfilled props
    | JStr text =>
        match JSON_parse text with
        | None => Rejected (ErrorObject (JSON_parse_error text))
        | Some (JObj props) => Fulfilled props
        | Some _ => Rejected (ErrorObject (fieldLabel ++ " must be a JSON object"))
        end
    | _ => Rejected (ErrorObject (fieldLabel ++ " must be a JSON object or JSON string"))
    end.

(** [String(payload.key ?? '').trim() || null] *)
Definition trimmed_field (payload : list (string * JsValue)) (key : string)
  : option string :=
  nonempty (Some (trim (ToString (nullish_or (get_property payload key) (JStr ""))))).

(** [payload.key == null || String(payload.key).trim() === '' ? null
    : String(payload.key)] *)
Definition unblank_field (payload : list (string * JsValue)) (key : string)
  : option string :=
  if is_nullish (get_property payload key)
     || String.eqb (trim (ToString (get_property payload key))) ""
  then None
  else Some (ToString (get_property payload key)).

(** [normalizeHttpPayload], lines 265-312. *)
Definition normalizeHttpPayload (payload : list (string * JsValue))
  : Settled MonitorSpecific :=
  let url := trim (ToString (nullish_or (get_property payload "url") (JStr ""))) in
  let method :=
    toUpperCase (ToString (nullish_or (get_property payload "method") (JStr "GET"))) in
  let bodyText := optional_string (get_property payload "body_text") in
  let expectedStatus := toInteger (get_property payload "expected_status") (Some NaN) in
  let expectedJsonPath := trimmed_field payload "expected_json_path" in
  let expectedJsonValue := unblank_field payload "expected_json_value" in
  headers ← parseJsonObjectInput (get_property payload "headers_json") "Headers";
  _ ← throw_if (String.eqb url "") "URL is required for HTTP monitors";
  _ ← catching
        (protocol ← match URL_protocol url with
                    | Some protocol => Fulfilled protocol
                    | None => Rejected (ErrorObject (URL_error url))
                    end;
         throw_if (negb (includes ["http:"; "https:"] protocol))
           "URL must use http or https")
        (fun _ => Rejected (ErrorObject "URL must be a valid absolute URL"));
  _ ← throw_if (negb (includes ALLOWED_METHODS method)) "Unsupported HTTP method";
  expected ← match integer_of expectedStatus with
           | Some n =>
               if (n <? 100) || (599 <? n)
               then Rejected (ErrorObject "expected_status must be between 100 and 599")
               else Fulfilled n
           | None => Rejected (ErrorObject "expected_status must be between 100 and 599")
           end;
  _ ← throw_if
        ((negb (is_null expectedJsonPath) && is_null expectedJsonValue)
         || (is_null expectedJsonPath && negb (is_null expectedJsonValue)))
        "expected_json_path and expected_json_value must both be provided together";
  Fulfilled
    {| saved_url := url;
       saved_method := method;
       saved_headers_json := JSON_stringify (JObj headers);
       saved_body_text := bodyText;
       saved_expected_status := expected;
       saved_expected_json_path := expectedJsonPath;
       saved_expected_json_value := expectedJsonValue;
       saved_connection_json := None;
       saved_probe_command := None;
       saved_expected_probe_value := None |}.

(** [defaultPortByType[monitorType] ?? 80], lines 325-332. *)
Definition defaultPort (monitorType : MonitorType) : Z :=
  match monitorType with
  | mysql => 3306
  | redis => 6379
  | nats => 4222
  | tcp => 80
  | http => 80
  end.

(** [normalizeConnectionMonitorPayload], lines 314-352. *)
Definition normalizeConnectionMonitorPayload (payload : list (string * JsValue))
    (monitorType : MonitorType) : Settled MonitorSpecific :=
  connection ← parseJsonObjectInput (get_property payload "connection_json")
                 "connection_json";
  let probeCommand := trimmed_field payload "probe_command" in
  let expectedProbeValue := unblank_field payload "expected_probe_value" in
  let host := nullish_or (get_property connection "host") (JStr "127.0.0.1") in
  let port :=
    ToNumber (nullish_or (get_property connection "port") (num (defaultPort monitorType))) in
  _ ← throw_if
        (negb (truthy (get_property connection "url"))
         && (negb (truthy host) || negb (Number_isFinite port)))
        "connection_json must include a valid host/port or url";
  Fulfilled
    {| saved_url :=
         ToString
           (nullish_or (get_property payload "url")
              (JStr (type_text monitorType ++ "://" ++ ToString host ++ ":"
                     ++ Number_toString port)));
       saved_method := "GET";
       saved_headers_json := JSON_stringify (JObj []);
       saved_body_text := None;
       saved_expected_status := 200;
       saved_expected_json_path := None;
       saved_expected_json_value := None;
       saved_connection_json := Some (JSON_stringify (JObj connection));
       saved_probe_command := probeCommand;
       saved_expected_probe_value := expectedProbeValue |}.

(** [normalizeEndpointPayload], lines 354-399. *)
Definition normalizeEndpointPayload (payload : list (string * JsValue))
  : Settled EndpointPayload :=
  let name := trim (ToString (nullish_or (get_property payload "name") (JStr ""))) in
  let monitorTypeRaw :=
    toLowerCase
      (trim (ToString (nullish_or (get_property payload "monitor_type") (JStr "http")))) in
  let intervalSeconds := toInteger (get_property payload "interval_seconds") (Some NaN) in
  let downRetries := toInteger (get_property payload "down_retries") (Some NaN) in
  let upRetries := toInteger (get_property payload "up_retries") (Some NaN) in
  let groupId := toInteger (get_property payload "group_id") (Some NaN) in
  _ ← throw_if (String.eqb name "") "Name is required";
  monitorType ← match monitor_type_of_text monitorTypeRaw with
                | Some kind => Fulfilled kind
                | None =>
                    Rejected
                      (ErrorObject
                         "monitor_type must be one of http, mysql, redis, nats, tcp")
                end;
  interval ← integer_at_least intervalSeconds 5
               "interval_seconds must be at least 5 seconds";
  downCount ← integer_at_least downRetries 1 "down_retries must be at least 1";
  upCount ← integer_at_least upRetries 1 "up_retries must be at least 1";
  group ← integer_at_least groupId 1 "group_id must be a valid group id";
  specific ← match monitorType with
             | http => normalizeHttpPayload payload
             | _ => normalizeConnectionMonitorPayload payload monitorType
             end;
  Fulfilled
    {| saved_name := name;
       saved_monitor_type := monitorType;
       saved_interval_seconds := interval;
       saved_down_retries := downCount;
       saved_up_retries := upCount;
       saved_group_id := group;
       monitorSpecific := specific |}.

End Routes.

(** The row the [INSERT] of the create route writes for a normalized
    payload, lines 804-842, as the engine reads it with the name of its
    group: the two JSON columns hold the saved texts, and the columns the
    statement does not name have the defaults of the table (lines 30-56). *)
Definition inserted_endpoint (id : Z) (groupName : option string)
    (saved : EndpointPayload) : MonitorEndpoint :=
  let specific := monitorSpecific saved in
  {| ep_id := id;
     group_id := saved_group_id saved;
     group_name := groupName;
     ep_name := saved_name saved;
     monitor_type := saved_monitor_type saved;
     ep_url := saved_url specific;
     ep_method := saved_method specific;
     headers_json := JStr (saved_headers_json specific);
     body_text := saved_body_text specific;
     expected_status := saved_expected_status specific;
     expected_json_path := saved_expected_json_path specific;
     expected_json_value := saved_expected_json_value specific;
     connection_json :=
       match saved_connection_json specific with
       | Some text => JStr text
       | None => JNull
       end;
     probe_command := saved_probe_command specific;
     expected_probe_value := saved_expected_probe_value specific;
     interval_seconds := saved_interval_seconds saved;
     down_retries := saved_down_retries saved;
     up_retries := saved_up_retries saved;
     status := Some pending;
     consecutive_failures := 0;
     consecutive_successes := 0;
     is_paused := 0 |}.

(** ** Notions the further properties are stated with *)

(** The longest run of verdicts equal to [kind] in a row, [streak] of
    them having been seen just before the sequence starts. *)
Fixpoint longest_streak (kind : bool) (streak : Z) (verdicts : list bool) : Z :=
  match verdicts with
  | [] => streak
  | verdict :: rest =>
      if Bool.eqb verdict kind then longest_streak kind (streak + 1) rest
      else Z.max streak (longest_streak kind 0 rest)
  end.

(** At some point of the sequence of checks the endpoint has the status. *)
Definition reaches (endpoint : MonitorEndpoint) (verdicts : list bool)
    (wanted : MonitorStatus) : Prop :=
  exists n, status (run_verdicts endpoint (take n verdicts)) = Some wanted.


(** No character of the text is white space. *)
Fixpoint unspaced (s : string) : bool :=
  match s with
  | EmptyString => true
  | String c rest => negb (is_whitespace c) && unspaced rest
  end.

(** The text with its white space taken out. *)
Fixpoint squeeze (s : string) : string :=
  match s with
  | EmptyString => EmptyString
  | String c rest => if is_whitespace c then squeeze rest else String c (squeeze rest)
  end.

(** One step of [resolveJsonPath]: the callback of [reduce], lines
    166-170. *)
Definition descend (acc : JsValue) (token : PathToken) : JsValue :=
  if is_nullish acc then JUndefined
  else if negb (is_object acc) then JUndefined
  else get_member acc token.

(** No character of the name is [.], [[] or []]. *)
Fixpoint undelimited (key : string) : bool :=
  match key with
  | EmptyString => true
  | String c rest => negb (is_path_delimiter c) && undelimited rest
  end.

(** A token a path can spell: any index, and a name that is not empty
    and holds no delimiter. *)
Definition spellable (token : PathToken) : Prop :=
  match token with
  | TName key => key <> "" /\ undelimited key = true
  | TIndex _ => True
  end.

(** The spelling of a token inside a path: [.name] or [[index]]. *)
Definition render_token (token : PathToken) : string :=
  match token with
  | TName key => "." ++ key
  | TIndex index => "[" ++ index_to_string index ++ "]"
  end.

(** The path that spells the tokens, as one writes it: [a.b[0].c]. *)
Definition render_path (tokens : list PathToken) : string :=
  match tokens with
  | TName key :: more => key ++ String.concat "" (map render_token more)
  | _ => String.concat "" (map render_token tokens)
  end.

(** The host and the time limit of the TCP probe, lines 493 and 495. *)
Definition tcp_host `{Platform} (endpoint : MonitorEndpoint) : string :=
  ToString (nullish_or (get_property (parseConnection (connection_json endpoint)) "host")
              (JStr "127.0.0.1")).

Definition tcp_timeout `{Platform} (config : Config) (endpoint : MonitorEndpoint)
  : JsNumber :=
  ToNumber (nullish_or (get_property (parseConnection (connection_json endpoint)) "timeoutMs")
              (JNum (requestTimeoutMs config))).

(** A result that hangs together: it carries no error message exactly
    when the check passed. *)
Definition coherent (result : CheckResult) : Prop :=
  checkPassed result = true <-> errorMessage result = None.

(** The code of a probe that speaks no HTTP: 200 for a pass, 500 for a
    failure. *)
Definition coded (result : CheckResult) : Prop :=
  responseCode result = Some (if checkPassed result then 200 else 500).

(** Every row is stored under its own [id]. *)
Definition well_keyed (table : gmap Z EndpointRow) : Prop :=
  forall id row, table !! id = Some row -> ep_id (columns row) = id.

(** The world with another [monitor_endpoints] table. *)
Definition with_endpoints (table : gmap Z EndpointRow) (before : World) : World :=
  {| monitor_endpoints := table;
     monitor_check_runs := monitor_check_runs before;
     emitted := emitted before |}.

(** [headers[key]] on a header object: the value of the first entry
    with that name. *)
Fixpoint header_lookup (key : string) (headers : list (string * string))
  : option string :=
  match headers with
  | [] => None
  | (k, v) :: rest => if String.eqb k key then Some v else header_lookup key rest
  end.

(** The body of a failed delivery as the error message shows it. *)
Definition shown_body (outcome : Settled string) : string :=
  match outcome with
  | Fulfilled "" => "no response body"
  | Fulfilled text => text
  | Rejected _ => "no response body"
  end.

(** The payload of the answer of Slack: what [json()] gives, [null] when
    it fails. *)
Definition slack_answer (outcome : Settled JsValue) : JsValue :=
  match outcome with
  | Fulfilled payload => payload
  | Rejected _ => JNull
  end.

(** The character occurs in the text. *)
Fixpoint occurs (c : ascii) (s : string) : bool :=
  match s with
  | EmptyString => false
  | String d rest => Ascii.eqb d c || occurs c rest
  end.

(** A text that is not empty and has no white space at either end. *)
Definition trimmed (text : string) : Prop :=
  text <> "" /\ trim text = text.

(** A notification target that can be delivered to: it names an event or
    two, only [up] and [down], and has what its kind of delivery needs. *)
Definition deliverable (target : NormalizedTarget) : Prop :=
  normalized_events target <> []
  /\ Forall (fun event => event = "up" \/ event = "down") (normalized_events target)
  /\ match target with
     | SlackTarget _ token channel _ => trimmed token /\ trimmed channel
     | WebhookTarget _ url _ _ => trimmed url
     end.

(** The row [initDatabase] writes for a migration. *)
Definition migration_row (migration : Migration) : Z * string :=
  (version migration, migration_name migration).

(** ** Further sample data *)

Module Samples.

(** A NATS monitor that is [down], with thresholds 3 and 2. *)
Definition nats_down : MonitorEndpoint :=
  Examples.monitor 9 "jetstream" nats "GET"
    (JObj [("servers", JArr [JStr "nats://10.0.0.6:4222"])]) None (Some down).

(** The row of the MySQL monitor, due before the TCP one. *)
Definition mysql_row : EndpointRow :=
  {| columns := Examples.mysql_endpoint;
     last_checked_at := None;
     last_response_code := None;
     last_error := None;
     last_match_value := None;
     next_check_at := 1771601390 |}.

(** Two monitors, both due. *)
Definition two_monitors : World :=
  {| monitor_endpoints := {[ 7 := Examples.tcp_row; 10 := mysql_row ]};
     monitor_check_runs := [];
     emitted := [] |}.

(** A JSON document with an array of objects. *)
Definition document : JsValue :=
  JObj [("items", JArr [JObj [("name", JStr "a")]; JObj [("name", JStr "b")]])].

(** The scheme of an absolute URL with its colon, for texts of the form
    [scheme://...]; enough for examples. *)
Fixpoint scheme_of (text : string) : option string :=
  match text with
  | EmptyString => None
  | String c rest =>
      if Reference.char_is 58 c
      then (if String.prefix "//" rest then Some ":" else None)
      else String c <$> scheme_of rest
  end.

#[export] Instance web_platform : WebPlatform := {|
  URL_protocol := scheme_of;
  URL_error := fun _ => "Invalid URL";
  JSON_parse_error := fun _ => "Unexpected token in JSON";
|}.

(** An environment with the two Slack variables set. *)
Definition slack_env : Env :=
  fun key =>
    if String.eqb key "SLACK_BOT_TOKEN" then Some "xoxb-1 "
    else if String.eqb key "SLACK_CHANNEL_ID" then Some "C042"
    else None.

(** The body of a request that creates an HTTP monitor. *)
Definition http_payload : list (string * JsValue) :=
  [("name", JStr " api ");
   ("url", JStr "https://example.org/health");
   ("method", JStr "get");
   ("interval_seconds", JNum (Finite (61 # 2)));
   ("down_retries", JNum (Finite 3));
   ("up_retries", JNum (Finite 2));
   ("group_id", JNum (Finite 1));
   ("expected_status", JNum (Finite 200))].

(** The same for a URL that is not a web address. *)
Definition ftp_payload : list (string * JsValue) :=
  [("name", JStr "files"); ("url", JStr "ftp://files.example.org/")].

(** The row of the Redis monitor whose URL has no scheme, due. *)
Definition redis_row : EndpointRow :=
  {| columns := Examples.redis_endpoint;
     last_checked_at := None;
     last_response_code := None;
     last_error := None;
     last_match_value := None;
     next_check_at := 1771601395 |}.

Definition redis_world : World :=
  {| monitor_endpoints := {[ 11 := redis_row ]};
     monitor_check_runs := [];
     emitted := [] |}.

(** A TCP monitor whose connection text is not JSON. *)
Definition broken_json_endpoint : MonitorEndpoint :=
  Examples.monitor 15 "broken" tcp "GET" (JStr "{host:") None (Some pending).

(** The body of a request that creates a MySQL monitor on port 0. *)
Definition port_zero_payload : list (string * JsValue) :=
  [("name", JStr "orders-db");
   ("monitor_type", JStr "mysql");
   ("interval_seconds", num 60);
   ("down_retries", num 3);
   ("up_retries", num 2);
   ("group_id", num 1);
   ("connection_json", JObj [("host", JStr "10.0.0.7"); ("port", num 0)])].

(** The row the create route writes for it. *)
Definition port_zero_endpoint : MonitorEndpoint :=
  {| ep_id := 14;
     group_id := 1;
     group_name := Some "Core";
     ep_name := "orders-db";
     monitor_type := mysql;
     ep_url := "mysql://10.0.0.7:0";
     ep_method := "GET";
     headers_json := JStr "{}";
     body_text := None;
     expected_status := 200;
     expected_json_path := None;
     expected_json_value := None;
     connection_json :=
       JStr ("{" ++ dquote ++ "host" ++ dquote ++ ":" ++ dquote ++ "10.0.0.7" ++ dquote
             ++ "," ++ dquote ++ "port" ++ dquote ++ ":0}");
     probe_command := None;
     expected_probe_value := None;
     interval_seconds := 60;
     down_retries := 3;
     up_retries := 2;
     status := Some pending;
     consecutive_failures := 0;
     consecutive_successes := 0;
     is_paused := 0 |}.

(** No MySQL server listens: the connection is refused. *)
Definition refusing_network : Network :=
  {| fetch := fetch Examples.healthy_network;
     mysql_createConnection := fun _ =>
       SettlesAfter 5 (Rejected (ErrorObject "connect ECONNREFUSED 10.0.0.7:0"));
     createClient := createClient Examples.healthy_network;
     connectNats := connectNats Examples.healthy_network;
     net_createConnection := net_createConnection Examples.healthy_network |}.

(** The body of a request that creates a TCP monitor. *)
Definition tcp_payload : list (string * JsValue) :=
  [("name", JStr "gateway");
   ("monitor_type", JStr "tcp");
   ("interval_seconds", num 60);
   ("down_retries", num 3);
   ("up_retries", num 2);
   ("group_id", num 1);
   ("connection_json", JObj [("host", JStr "10.0.0.5"); ("port", num 443)])].


End Samples.
(** * Properties *)

(** ** The status state machine *)

Lemma number_or_zero (x : Z) : number_or x 0 = x.
Proof. unfold number_or. destruct (Z.eqb_spec x 0); congruence. Qed.

(** A threshold read through [Math.max(1, Number(x) || 1)] is the column
    floored at 1. *)
Lemma threshold_floor (x : Z) : Z.max 1 (number_or x 1) = Z.max 1 x.
Proof. unfold number_or. destruct (Z.eqb_spec x 0); subst; reflexivity. Qed.

Lemma computeStatus_pass (endpoint : MonitorEndpoint) :
  computeStatus endpoint true =
  {| sc_status :=
       match default pending (status endpoint) with
       | down =>
           if Z.max 1 (up_retries endpoint) <=? consecutive_successes endpoint + 1
           then up else down
       | _ => up
       end;
     failures := 0;
     successes := consecutive_successes endpoint + 1 |}.
Proof.
  unfold computeStatus. rewrite threshold_floor, number_or_zero. reflexivity.
Qed.

Lemma computeStatus_fail (endpoint : MonitorEndpoint) :
  computeStatus endpoint false =
  {| sc_status :=
       if Z.max 1 (down_retries endpoint) <=? consecutive_failures endpoint + 1
       then down else default pending (status endpoint);
     failures := consecutive_failures endpoint + 1;
     successes := 0 |}.
Proof.
  unfold computeStatus. rewrite threshold_floor, number_or_zero.
  destruct (default pending (status endpoint)); reflexivity.
Qed.

Lemma machine_state_with_computation endpoint next :
  machine_state (with_computation endpoint next)
  = (sc_status next, failures next, successes next).
Proof. reflexivity. Qed.

(** Unfolds a run of verdicts from a known starting triple. *)
Ltac run_scenario Hstate Hdown Hup :=
  let Hs := fresh "Hs" in
  let Hf := fresh "Hf" in
  let Hc := fresh "Hc" in
  unfold machine_state in Hstate; injection Hstate as Hs Hf Hc;
  unfold run_verdicts; rewrite machine_state_with_computation;
  rewrite ?computeStatus_pass, ?computeStatus_fail; cbn;
  rewrite ?Hs, ?Hf, ?Hc, ?Hdown, ?Hup; reflexivity.

(** C1.  The transition rules of the status state machine.  With both
    thresholds floored at 1: a passing probe adds one to the successes and
    resets the failures, takes a [down] endpoint to [up] only when the
    successes have reached [upRetries] (else it stays [down]) and takes a
    [pending] or [up] endpoint to [up] whatever [upRetries] is; a failing
    probe adds one to the failures and resets the successes, and the
    status becomes [down] when the failures have reached [downRetries] and
    is left as it was otherwise.  From [(pending, 0, 0)] with thresholds 3
    and 2: a fail gives [(pending, 1, 0)], two more give [(down, 3, 0)], a
    pass gives [(down, 0, 1)], a second pass gives [(up, 0, 2)]. *)
Theorem computeStatus_transition_rules (endpoint : MonitorEndpoint) :
  let downRetries := Z.max 1 (down_retries endpoint) in
  let upRetries := Z.max 1 (up_retries endpoint) in
  let current := default pending (status endpoint) in
  let passed := computeStatus endpoint true in
  let failed := computeStatus endpoint false in
  (successes passed = consecutive_successes endpoint + 1
   /\ failures passed = 0
   /\ (current = down ->
       sc_status passed = if upRetries <=? successes passed then up else down)
   /\ (current <> down -> sc_status passed = up))
  /\ (failures failed = consecutive_failures endpoint + 1
      /\ successes failed = 0
      /\ (downRetries <= failures failed -> sc_status failed = down)
      /\ (failures failed < downRetries -> sc_status failed = current)
      /\ (current <> down ->
          (sc_status failed = down <-> downRetries <= failures failed)))
  /\ (machine_state endpoint = (pending, 0, 0) ->
      down_retries endpoint = 3 -> up_retries endpoint = 2 ->
      machine_state (run_verdicts endpoint [false]) = (pending, 1, 0)
      /\ machine_state (run_verdicts endpoint [false; false; false]) = (down, 3, 0)
      /\ machine_state (run_verdicts endpoint [false; false; false; true]) = (down, 0, 1)
      /\ machine_state (run_verdicts endpoint [false; false; false; true; true])
         = (up, 0, 2)).
Proof.
  cbv zeta. rewrite computeStatus_pass, computeStatus_fail.
  cbn [successes failures sc_status].
  split; [| split].
  - repeat split.
    + intros ->. reflexivity.
    + intros Hcur. destruct (default pending (status endpoint)); congruence.
  - split; [reflexivity |]. split; [reflexivity |]. split; [| split].
    + intros Hle. apply Z.leb_le in Hle. rewrite Hle. reflexivity.
    + intros Hlt. apply Z.leb_gt in Hlt. rewrite Hlt. reflexivity.
    + intros Hcur.
      destruct (Z.leb_spec (Z.max 1 (down_retries endpoint))
                  (consecutive_failures endpoint + 1)); split; auto; try lia.
      contradiction.
  - intros Hstate Hdown Hup.
    repeat split; run_scenario Hstate Hdown Hup.
Qed.

Lemma computeStatus_transition_rules_witness :
  machine_state (run_verdicts Examples.tcp_endpoint [false]) = (pending, 1, 0)
  /\ machine_state (run_verdicts Examples.tcp_endpoint [false; false; false]) = (down, 3, 0)
  /\ machine_state (run_verdicts Examples.tcp_endpoint [false; false; false; true])
     = (down, 0, 1)
  /\ machine_state (run_verdicts Examples.tcp_endpoint [false; false; false; true; true])
     = (up, 0, 2).
Proof.
  apply (computeStatus_transition_rules Examples.tcp_endpoint); reflexivity.
Defined.

(** C10.  The counter invariant of the status state machine: from
    counters that are not negative, the returned counters are not
    negative; one of them is 0; after a passing probe the status is [up]
    or [down], never [pending]. *)
Theorem computeStatus_counter_invariant (endpoint : MonitorEndpoint) (verdict : bool) :
  0 <= consecutive_failures endpoint ->
  0 <= consecutive_successes endpoint ->
  let next := computeStatus endpoint verdict in
  0 <= failures next
  /\ 0 <= successes next
  /\ (failures next = 0 \/ successes next = 0)
  /\ (verdict = true -> sc_status next = up \/ sc_status next = down).
Proof.
  intros Hf Hs. cbv zeta. destruct verdict.
  - rewrite computeStatus_pass. cbn [successes failures sc_status].
    repeat split; try lia.
    intros _. destruct (default pending (status endpoint)); auto.
    destruct (_ <=? _); auto.
  - rewrite computeStatus_fail. cbn [successes failures sc_status].
    repeat split; lia || discriminate.
Qed.

Lemma computeStatus_counter_invariant_witness :
  0 <= failures (computeStatus Examples.nats_endpoint true)
  /\ 0 <= successes (computeStatus Examples.nats_endpoint true)
  /\ (failures (computeStatus Examples.nats_endpoint true) = 0
      \/ successes (computeStatus Examples.nats_endpoint true) = 0)
  /\ (true = true ->
      sc_status (computeStatus Examples.nats_endpoint true) = up
      \/ sc_status (computeStatus Examples.nats_endpoint true) = down).
Proof.
  apply (computeStatus_counter_invariant Examples.nats_endpoint true); simpl; lia.
Defined.

(** ** The comparator *)

Section ComparatorProperties.
Context `{Platform}.

(** The expected value of a raw text that is not blank. *)
Lemma parseExpectedValue_text (raw : string) :
  trim raw <> "" ->
  parseExpectedValue (Some raw)
  = match JSON_parse (trim raw) with
    | Some parsed => parsed
    | None => JStr (trim raw)
    end.
Proof.
  intros Hraw. unfold parseExpectedValue.
  destruct (String.eqb_spec (trim raw) ""); [contradiction | reflexivity].
Qed.

Lemma validate_unchecked (actual : JsValue) (expectedRaw : option string) :
  (expectedRaw = None \/ exists raw, expectedRaw = Some raw /\ trim raw = "") ->
  validateExpectedProbeValue actual expectedRaw
  = {| ok := true;
       pv_matchedValue := normalizeComparable actual;
       pv_errorMessage := None |}.
Proof.
  intros [-> | (raw & -> & Hraw)]; unfold validateExpectedProbeValue; [reflexivity |].
  rewrite Hraw. reflexivity.
Qed.

Lemma validate_checked (actual : JsValue) (raw : string) :
  trim raw <> "" ->
  validateExpectedProbeValue actual (Some raw)
  = let equal := deepEqual actual (parseExpectedValue (Some raw)) in
    {| ok := equal;
       pv_matchedValue := normalizeComparable actual;
       pv_errorMessage := if equal then None else Some "Probe value mismatch" |}.
Proof.
  intros Hraw. unfold validateExpectedProbeValue.
  destruct (String.eqb_spec (trim raw) ""); [contradiction | reflexivity].
Qed.

(** Whatever the expectation, the matched value is the normal form of
    the actual value. *)
Lemma validate_matchedValue (actual : JsValue) (expectedRaw : option string) :
  pv_matchedValue (validateExpectedProbeValue actual expectedRaw)
  = normalizeComparable actual.
Proof.
  unfold validateExpectedProbeValue.
  destruct (match expectedRaw with None => true | Some raw => _ end); reflexivity.
Qed.

(** A mismatch and an error message go together. *)
Lemma validate_error_iff (actual : JsValue) (expectedRaw : option string) :
  pv_errorMessage (validateExpectedProbeValue actual expectedRaw)
  = if ok (validateExpectedProbeValue actual expectedRaw) then None
    else Some "Probe value mismatch".
Proof.
  unfold validateExpectedProbeValue.
  destruct (match expectedRaw with None => true | Some raw => _ end); reflexivity.
Qed.

Lemma deepEqual_true (actual expected : JsValue) :
  deepEqual actual expected = true <->
  if is_object actual && is_object expected
  then JSON_stringify actual = JSON_stringify expected
  else strict_eq_primitive actual expected = true.
Proof.
  unfold deepEqual. destruct (is_object actual && is_object expected); [| tauto].
  apply String.eqb_eq.
Qed.

End ComparatorProperties.

(** C3.  The comparator.  The matched value is the normal form of the
    actual value: the marker [__UNDEFINED__] for [undefined], [null] for
    [null], the JSON text of an object or array, the string form of any
    other value.  An expected value that is absent or blank always
    succeeds.  Otherwise the expected text, trimmed, is parsed as JSON
    where that is possible and taken literally where not, and the
    comparison succeeds exactly when the two values are objects with the
    same JSON text or are strictly equal; a failure carries the error
    ['Probe value mismatch'].  With a [JSON.parse] that reads ["5"],
    [{"a":1}] and ["pong"] as it should: [5] matches ["5"], the object
    [{a:1}] matches [{"a":1}], and ["PONG"] does not match ["pong"]. *)
Theorem validateExpectedProbeValue_compares `{Platform}
    (actual : JsValue) (expectedRaw : option string) :
  let result := validateExpectedProbeValue actual expectedRaw in
  pv_matchedValue result
  = match actual with
    | JUndefined => Some "__UNDEFINED__"
    | JNull => None
    | JArr _ | JObj _ => Some (JSON_stringify actual)
    | _ => Some (ToString actual)
    end
  /\ ((expectedRaw = None \/ exists raw, expectedRaw = Some raw /\ trim raw = "") ->
      ok result = true /\ pv_errorMessage result = None)
  /\ (forall raw, expectedRaw = Some raw -> trim raw <> "" ->
      let expected :=
        match JSON_parse (trim raw) with
        | Some parsed => parsed
        | None => JStr (trim raw)
        end in
      (ok result = true <->
       if is_object actual && is_object expected
       then JSON_stringify actual = JSON_stringify expected
       else strict_eq_primitive actual expected = true)
      /\ pv_errorMessage result
         = if ok result then None else Some "Probe value mismatch")
  /\ (JSON_parse "5" = Some (num 5) ->
      ok (validateExpectedProbeValue (num 5) (Some "5")) = true)
  /\ (JSON_parse object_a1_text = Some (JObj [("a", num 1)]) ->
      ok (validateExpectedProbeValue (JObj [("a", num 1)]) (Some object_a1_text)) = true)
  /\ (JSON_parse pong_text = Some (JStr "pong") ->
      validateExpectedProbeValue (JStr "PONG") (Some pong_text)
      = {| ok := false;
           pv_matchedValue := Some "PONG";
           pv_errorMessage := Some "Probe value mismatch" |}).
Proof.
  cbv zeta. split; [| split; [| split; [| split; [| split]]]].
  - rewrite validate_matchedValue. destruct actual; reflexivity.
  - intros Hblank. rewrite (validate_unchecked _ _ Hblank). split; reflexivity.
  - intros raw -> Hraw. rewrite (validate_checked _ _ Hraw). cbn [ok pv_errorMessage].
    rewrite (parseExpectedValue_text _ Hraw). split; [apply deepEqual_true | reflexivity].
  - intros Hfive. rewrite validate_checked by (vm_compute; discriminate).
    cbn [ok]. rewrite parseExpectedValue_text by (vm_compute; discriminate).
    change (trim "5") with "5". rewrite Hfive. reflexivity.
  - intros Hobject. rewrite validate_checked by (vm_compute; discriminate).
    cbn [ok]. rewrite parseExpectedValue_text by (vm_compute; discriminate).
    change (trim object_a1_text) with object_a1_text. rewrite Hobject.
    unfold deepEqual. cbn [is_object andb]. apply String.eqb_refl.
  - intros Hpong. rewrite validate_checked by (vm_compute; discriminate).
    rewrite parseExpectedValue_text by (vm_compute; discriminate).
    change (trim pong_text) with pong_text. rewrite Hpong. reflexivity.
Qed.

Lemma validateExpectedProbeValue_compares_witness :
  ok (validateExpectedProbeValue (H := Reference.platform) (num 5) (Some "5")) = true
  /\ ok (validateExpectedProbeValue (H := Reference.platform)
           (JObj [("a", num 1)]) (Some object_a1_text)) = true
  /\ validateExpectedProbeValue (H := Reference.platform) (JStr "PONG") (Some pong_text)
     = {| ok := false;
          pv_matchedValue := Some "PONG";
          pv_errorMessage := Some "Probe value mismatch" |}.
Proof.
  destruct (validateExpectedProbeValue_compares (H := Reference.platform) JNull None)
    as (_ & _ & _ & Hfive & Hobject & Hpong).
  split; [apply Hfive; reflexivity |].
  split; [apply Hobject; reflexivity | apply Hpong; reflexivity].
Defined.

(** ** Tasks: how outcomes and effects compose *)

Lemma later_rejected {T} (elapsed : N) (p : Promise T) :
  is_rejected (later elapsed p) = is_rejected p.
Proof. destruct p as [ms [a | e] |]; reflexivity. Qed.

Lemma later_settles {T} (elapsed : N) (p : Promise T) :
  settles (later elapsed p) = settles p.
Proof. destruct p as [ms [a | e] |]; reflexivity. Qed.

Lemma later_fulfilled {T} (elapsed ms : N) (p : Promise T) (a : T) :
  later elapsed p = SettlesAfter ms (Fulfilled a) ->
  exists ms', p = SettlesAfter ms' (Fulfilled a).
Proof.
  destruct p as [ms' [a' | e] |]; cbn; intros Heq; try discriminate.
  injection Heq as _ ->. eexists. reflexivity.
Qed.

Section TaskLaws.
Import TaskMonad.
Context {A B : Type}.


(** A sequence settles if its first part and its continuation do. *)
Lemma bind_settles (first : Task A) (rest : A -> Task B) :
  settles (promise first) = true ->
  (forall a, settles (promise (rest a)) = true) ->
  settles (promise (bind first rest)) = true.
Proof.
  intros Hfirst Hrest. unfold bind.
  destruct (promise first) as [ms [a | e] |]; cbn [promise].
  - rewrite later_settles. apply Hrest.
  - reflexivity.
  - cbn in Hfirst. discriminate.
Qed.

(** A sequence whose first part never settles never settles. *)
Lemma bind_never (first : Task A) (rest : A -> Task B) :
  promise first = NeverSettles -> promise (bind first rest) = NeverSettles.
Proof. intros Hfirst. unfold bind. rewrite Hfirst. reflexivity. Qed.

(** The effects of the first part of a sequence are performed. *)
Lemma bind_effects_first (first : Task A) (rest : A -> Task B) (e : Effect) :
  e ∈ effects first -> e ∈ effects (bind first rest).
Proof.
  intros He. unfold bind.
  destruct (promise first) as [ms [a | err] |]; cbn; [apply elem_of_app; left |..]; exact He.
Qed.

(** What a sequence returns, its continuation returned. *)
Lemma bind_returns (P : B -> Prop) (first : Task A) (rest : A -> Task B) :
  (forall a, returns P (rest a)) -> returns P (bind first rest).
Proof.
  intros Hrest ms b. unfold bind.
  destruct (promise first) as [ms' [a | e] |]; cbn [promise]; try discriminate.
  intros Hlater. destruct (later_fulfilled _ _ _ _ Hlater) as [ms'' Hpromise].
  exact (Hrest a ms'' b Hpromise).
Qed.

(** A [catch] clause that returns makes a task that never rejects. *)
Lemma try_catch_not_rejected (body : Task A) (handler : Thrown -> Task A) :
  (forall error, is_rejected (promise (handler error)) = false) ->
  is_rejected (promise (try_catch body handler)) = false.
Proof.
  intros Hhandler. unfold try_catch.
  destruct (promise body) as [ms [a | e] |] eqn:Hbody; cbn [promise].
  - rewrite Hbody. reflexivity.
  - rewrite later_rejected. apply Hhandler.
  - rewrite Hbody. reflexivity.
Qed.

Lemma try_catch_settles (body : Task A) (handler : Thrown -> Task A) :
  settles (promise body) = true ->
  (forall error, settles (promise (handler error)) = true) ->
  settles (promise (try_catch body handler)) = true.
Proof.
  intros Hbody Hhandler. unfold try_catch.
  destruct (promise body) as [ms [a | e] |] eqn:Hpromise; cbn [promise].
  - rewrite Hpromise. reflexivity.
  - rewrite later_settles. apply Hhandler.
  - cbn in Hbody. discriminate.
Qed.

(** A [catch] clause does not help a body that never settles. *)
Lemma try_catch_never (body : Task A) (handler : Thrown -> Task A) :
  promise body = NeverSettles -> promise (try_catch body handler) = NeverSettles.
Proof. intros Hbody. unfold try_catch. rewrite Hbody. exact Hbody. Qed.

(** What a guarded task performs: its body, then the handler if the body
    rejected. *)
Lemma try_catch_effects (body : Task A) (handler : Thrown -> Task A) :
  effects (try_catch body handler)
  = (effects body ++
     match promise body with
     | SettlesAfter _ (Rejected error) => effects (handler error)
     | _ => []
     end)%list.
Proof.
  unfold try_catch.
  destruct (promise body) as [ms [a | e] |]; cbn; rewrite ?app_nil_r; reflexivity.
Qed.

(** What a guarded task returns, its body or its handler returned. *)
Lemma try_catch_returns (P : A -> Prop) (body : Task A) (handler : Thrown -> Task A) :
  returns P body -> (forall error, returns P (handler error)) ->
  returns P (try_catch body handler).
Proof.
  intros Hbody Hhandler ms a. unfold try_catch.
  destruct (promise body) as [ms' [a' | e] |] eqn:Hpromise; cbn [promise].
  - rewrite Hpromise. intros [= <- <-]. exact (Hbody ms' a' Hpromise).
  - intros Hlater. destruct (later_fulfilled _ _ _ _ Hlater) as [ms'' Hhandled].
    exact (Hhandler e ms'' a Hhandled).
  - rewrite Hpromise. discriminate.
Qed.

(** A [finally] block rejects only if the body or the cleanup does. *)
Lemma try_finally_not_rejected (body : Task A) (cleanup : Task unit) :
  is_rejected (promise body) = false ->
  is_rejected (promise cleanup) = false ->
  is_rejected (promise (try_finally body cleanup)) = false.
Proof.
  intros Hbody Hcleanup. unfold try_finally.
  destruct (promise body) as [ms [a | e] |]; cbn in Hbody; try discriminate;
    cbn [promise]; [| reflexivity].
  destruct (promise cleanup) as [ms' [[] | e'] |]; cbn in Hcleanup; try discriminate;
    reflexivity.
Qed.

(** A cleanup that rejects makes the whole block reject, whatever the
    body returned. *)
Lemma try_finally_cleanup_rejects (body : Task A) (cleanup : Task unit)
    (ms ms' : N) (outcome : Settled A) (error : Thrown) :
  promise body = SettlesAfter ms outcome ->
  promise cleanup = SettlesAfter ms' (Rejected error) ->
  promise (try_finally body cleanup) = SettlesAfter (ms + ms') (Rejected error).
Proof.
  intros Hbody Hcleanup. unfold try_finally. rewrite Hbody. cbn. rewrite Hcleanup.
  reflexivity.
Qed.

(** A [finally] block is not entered while the body has not settled. *)
Lemma try_finally_never (body : Task A) (cleanup : Task unit) :
  promise body = NeverSettles ->
  promise (try_finally body cleanup) = NeverSettles
  /\ effects (try_finally body cleanup) = effects body.
Proof. intros Hbody. unfold try_finally. rewrite Hbody. split; reflexivity. Qed.

(** What a [finally] block returns, its body returned. *)
Lemma try_finally_returns (P : A -> Prop) (body : Task A) (cleanup : Task unit) :
  returns P body -> returns P (try_finally body cleanup).
Proof.
  intros Hbody ms a. unfold try_finally.
  destruct (promise body) as [ms' [a' | e] |] eqn:Hpromise; cbn [promise];
    try discriminate;
    destruct (promise cleanup) as [ms'' [[] | e'] |]; try discriminate.
  intros [= _ <-]. exact (Hbody ms' a' Hpromise).
Qed.

End TaskLaws.

Lemma ret_returns {A} (P : A -> Prop) (a : A) : P a -> returns P (TaskMonad.ret a).
Proof. intros Ha ms a' [= _ <-]. exact Ha. Qed.

Section TimeoutLaws.
Context `{Platform}.
Context {A : Type}.

(** A promise under [withTimeout] settles, and no later than the timer. *)
Lemma withTimeout_bounded (p : Promise A) (timeoutMs : JsNumber) (label : string) :
  exists ms outcome,
    withTimeout p timeoutMs label = SettlesAfter ms outcome
    /\ (ms <= timer_delay timeoutMs)%N.
Proof.
  unfold withTimeout. destruct p as [ms outcome |].
  - destruct (N.ltb_spec ms (timer_delay timeoutMs)).
    + exists ms, outcome. split; [reflexivity | lia].
    + eexists _, _. split; [reflexivity | lia].
  - eexists _, _. split; [reflexivity | lia].
Qed.

(** A promise that has not settled when the timer fires is replaced by
    the labelled timeout error. *)
Lemma withTimeout_expired (p : Promise A) (timeoutMs : JsNumber) (label : string) :
  match p with
  | SettlesAfter ms _ => (timer_delay timeoutMs <= ms)%N
  | NeverSettles => True
  end ->
  withTimeout p timeoutMs label
  = SettlesAfter (timer_delay timeoutMs)
      (Rejected (ErrorObject
         (label ++ " timed out after " ++ Number_toString timeoutMs ++ "ms"))).
Proof.
  unfold withTimeout. destruct p as [ms outcome |]; [| reflexivity].
  intros Hlate. destruct (N.ltb_spec ms (timer_delay timeoutMs)); [lia | reflexivity].
Qed.

(** A promise that settles before the timer is left alone. *)
Lemma withTimeout_in_time (ms : N) (outcome : Settled A) (timeoutMs : JsNumber)
    (label : string) :
  (ms < timer_delay timeoutMs)%N ->
  withTimeout (SettlesAfter ms outcome) timeoutMs label = SettlesAfter ms outcome.
Proof.
  intros Hearly. unfold withTimeout.
  destruct (N.ltb_spec ms (timer_delay timeoutMs)); [reflexivity | lia].
Qed.

End TimeoutLaws.

(** ** What the probes return, reject with, or wait for *)

Section ProbeOutcomes.
Import TaskMonad.
Context `{Platform}.
Variable config : Config.
Variable network : Network.

Lemma check_of_validation_reported (actual : JsValue) (expectedRaw : option string) :
  reported (check_of_validation (validateExpectedProbeValue actual expectedRaw)).
Proof.
  unfold reported, check_of_validation. cbn [checkPassed errorMessage].
  rewrite validate_error_iff. intros ->. discriminate.
Qed.

Lemma failed_check_reported (error : Thrown) (fallback : string) :
  reported (failed_check error fallback).
Proof. intros _. discriminate. Qed.

(** The TCP probe never rejects. *)
Lemma runTcpCheck_not_rejected (endpoint : MonitorEndpoint) :
  is_rejected (promise (runTcpCheck config network endpoint)) = false.
Proof.
  unfold runTcpCheck. cbv zeta. destruct (tcp_port_invalid endpoint); [reflexivity |].
  apply try_catch_not_rejected. intros error. reflexivity.
Qed.

(** The TCP probe settles, whatever the socket does: its one wait is
    under [withTimeout]. *)
Lemma runTcpCheck_settles (endpoint : MonitorEndpoint) :
  settles (promise (runTcpCheck config network endpoint)) = true.
Proof.
  unfold runTcpCheck. cbv zeta. destruct (tcp_port_invalid endpoint); [reflexivity |].
  apply try_catch_settles; [| intros error; reflexivity].
  unfold mbind, Task_bind. apply bind_settles; [| intros []; reflexivity].
  cbn [perform promise].
  destruct (withTimeout_bounded
              (net_createConnection network
                 (ToString (nullish_or
                    (get_property (parseConnection (connection_json endpoint)) "host")
                    (JStr "127.0.0.1")))
                 (tcp_port endpoint))
              (ToNumber (nullish_or
                 (get_property (parseConnection (connection_json endpoint)) "timeoutMs")
                 (JNum (requestTimeoutMs config))))
              "TCP connect") as (ms & outcome & -> & _).
  reflexivity.
Qed.

(** A TCP check that did not pass says why. *)
Lemma runTcpCheck_reports (endpoint : MonitorEndpoint) :
  returns reported (runTcpCheck config network endpoint).
Proof.
  unfold runTcpCheck. cbv zeta. destruct (tcp_port_invalid endpoint).
  - apply ret_returns. intros _. discriminate.
  - apply try_catch_returns.
    + unfold mbind, Task_bind. apply bind_returns. intros _.
      apply ret_returns, check_of_validation_reported.
    + intros error. apply ret_returns, failed_check_reported.
Qed.

(** The HTTP probe never rejects. *)
Lemma runHttpCheck_not_rejected (endpoint : MonitorEndpoint) :
  is_rejected (promise (runHttpCheck network endpoint)) = false.
Proof.
  unfold runHttpCheck. cbv zeta. apply try_catch_not_rejected. intros error. reflexivity.
Qed.

(** An HTTP check that did not pass says why. *)
Lemma runHttpCheck_reports (endpoint : MonitorEndpoint) :
  returns reported (runHttpCheck network endpoint).
Proof.
  unfold runHttpCheck. cbv zeta. apply try_catch_returns.
  - unfold mbind, Task_bind. apply bind_returns. intros response.
    apply try_catch_returns.
    + apply bind_returns. intros [[jsonValidationOk matched] message].
      apply ret_returns. unfold reported. cbn [checkPassed errorMessage].
      intros ->. cbn [negb andb].
      destruct message as [[| c text] |]; cbn; discriminate.
    + intros error. apply ret_returns. intros _. discriminate.
  - intros error. apply ret_returns. intros _. discriminate.
Qed.

(** The MySQL probe never rejects: its [catch] returns and the failure of
    [end] is swallowed. *)
Lemma runMysqlCheck_not_rejected (endpoint : MonitorEndpoint) :
  is_rejected (promise (runMysqlCheck config network endpoint)) = false.
Proof.
  unfold runMysqlCheck. cbv zeta. apply try_finally_not_rejected.
  - apply try_catch_not_rejected. intros error. reflexivity.
  - destruct (mysql_createConnection network (mysql_options config endpoint))
      as [ms [conn | e] |]; [| reflexivity | reflexivity].
    cbn [perform promise]. unfold promise_catch.
    destruct (conn_end conn) as [ms' [[] | e] |]; reflexivity.
Qed.

(** A MySQL check that did not pass says why. *)
Lemma runMysqlCheck_reports (endpoint : MonitorEndpoint) :
  returns reported (runMysqlCheck config network endpoint).
Proof.
  unfold runMysqlCheck. cbv zeta. apply try_finally_returns, try_catch_returns.
  - unfold mbind, Task_bind. apply bind_returns. intros conn.
    apply bind_returns. intros rows.
    apply ret_returns, check_of_validation_reported.
  - intros error. apply ret_returns, failed_check_reported.
Qed.

(** What the body of the NATS probe returns says why it did not pass. *)
Lemma nats_probe_reports (endpoint : MonitorEndpoint) (nc : NatsConnection) :
  returns reported (nats_probe config endpoint nc).
Proof.
  unfold nats_probe. cbv zeta. unfold mbind, Task_bind.
  destruct (String.eqb _ "jetstream.info").
  - apply bind_returns. intros jsm. apply bind_returns. intros accountInfo.
    apply ret_returns, check_of_validation_reported.
  - destruct (String.prefix "stream.info:" _).
    + destruct (String.eqb _ "").
      * apply ret_returns. intros _. discriminate.
      * apply bind_returns. intros jsm. apply bind_returns. intros streamInfo.
        apply ret_returns, check_of_validation_reported.
    + apply ret_returns, check_of_validation_reported.
Qed.

(** A NATS check that did not pass says why. *)
Lemma runNatsCheck_reports (endpoint : MonitorEndpoint) :
  returns reported (runNatsCheck config network endpoint).
Proof.
  unfold runNatsCheck. cbv zeta. unfold mbind, Task_bind.
  apply bind_returns. intros _. apply try_finally_returns, try_catch_returns.
  - apply bind_returns. intros nc. apply nats_probe_reports.
  - intros error. apply ret_returns, failed_check_reported.
Qed.

(** A Redis check that did not pass says why. *)
Lemma runRedisCheck_reports (endpoint : MonitorEndpoint) :
  returns reported (runRedisCheck config network endpoint).
Proof.
  unfold runRedisCheck. cbv zeta.
  destruct (createClient network (redis_options config endpoint)) as [client | error].
  - unfold mbind, Task_bind. apply bind_returns. intros _.
    apply try_finally_returns, try_catch_returns.
    + apply bind_returns. intros _. apply bind_returns. intros rawResult.
      apply ret_returns, check_of_validation_reported.
    + intros error. apply ret_returns, failed_check_reported.
  - intros ms result. cbn [promise]. discriminate.
Qed.

(** The Redis probe rejects with what the constructor of the client
    throws: the call is made before the [try] block. *)
Lemma runRedisCheck_constructor_throws (endpoint : MonitorEndpoint) (error : Thrown) :
  createClient network (redis_options config endpoint) = Rejected error ->
  promise (runRedisCheck config network endpoint) = SettlesAfter 0 (Rejected error).
Proof. intros Hclient. unfold runRedisCheck. cbv zeta. rewrite Hclient. reflexivity. Qed.

(** The NATS probe under a connection that is up in time: one connect,
    the command, one close. *)
Lemma runNatsCheck_connected (endpoint : MonitorEndpoint) (nc : NatsConnection) (ms : N) :
  connectNats network (nats_options config endpoint) = SettlesAfter ms (Fulfilled nc) ->
  (ms < timer_delay (requestTimeoutMs config))%N ->
  runNatsCheck config network endpoint
  = (_ ← emit (ConsoleLog ("Connecting to NATS servers: "
                           ++ JSON_stringify
                                (JObj (parseConnection (connection_json endpoint)))));
     try_finally
       (try_catch
          (nc' ← perform (NatsConnect (nats_options config endpoint))
                   (SettlesAfter ms (Fulfilled nc));
           nats_probe config endpoint nc')
          (fun error => ret (failed_check error "NATS check failed")))
       (perform NatsClose (nc_close nc))).
Proof.
  intros Hconnect Hearly. unfold runNatsCheck. cbv zeta.
  rewrite Hconnect, (withTimeout_in_time ms _ _ _ Hearly). reflexivity.
Qed.

(** The NATS probe rejects with what [close] rejects with: the call in
    the [finally] block is not guarded. *)
Lemma runNatsCheck_close_rejects (endpoint : MonitorEndpoint) (nc : NatsConnection)
    (ms ms' : N) (error : Thrown) :
  connectNats network (nats_options config endpoint) = SettlesAfter ms (Fulfilled nc) ->
  (ms < timer_delay (requestTimeoutMs config))%N ->
  settles (promise (nats_probe config endpoint nc)) = true ->
  nc_close nc = SettlesAfter ms' (Rejected error) ->
  exists elapsed,
    promise (runNatsCheck config network endpoint)
    = SettlesAfter elapsed (Rejected error).
Proof.
  intros Hconnect Hearly Hprobe Hclose.
  rewrite (runNatsCheck_connected endpoint nc ms Hconnect Hearly).
  unfold mbind, Task_bind.
  assert (Hbody : settles
            (promise
               (try_catch
                  (bind (perform (NatsConnect (nats_options config endpoint))
                           (SettlesAfter ms (Fulfilled nc)))
                     (fun nc' => nats_probe config endpoint nc'))
                  (fun error => ret (failed_check error "NATS check failed")))) = true).
  { apply try_catch_settles; [| intros e; reflexivity].
    unfold bind. cbn [perform promise]. rewrite later_settles. exact Hprobe. }
  destruct (promise (try_catch _ _)) as [elapsed outcome |] eqn:Hpromise;
    [| cbn in Hbody; discriminate].
  unfold bind at 1. cbn [emit promise].
  rewrite (try_finally_cleanup_rejects _ (perform NatsClose (nc_close nc))
             elapsed ms' outcome error Hpromise Hclose).
  eexists. reflexivity.
Qed.

End ProbeOutcomes.

(** C4.  Where the probe executors do throw.  The Redis probe constructs
    its client before its [try] block: what the constructor throws (as it
    does for a connection URL it cannot parse) is what the probe rejects
    with.  The NATS probe closes its connection in a [finally] block with
    no guard: once connected, if the command settles and [close] rejects,
    the probe rejects with that error, whatever result it was about to
    return. *)
Theorem probe_executors_can_reject `{Platform}
    (config : Config) (network : Network) (endpoint : MonitorEndpoint) :
  (forall error,
      createClient network (redis_options config endpoint) = Rejected error ->
      promise (runRedisCheck config network endpoint) = SettlesAfter 0 (Rejected error))
  /\ (forall nc ms ms' error,
         connectNats network (nats_options config endpoint)
         = SettlesAfter ms (Fulfilled nc) ->
         (ms < timer_delay (requestTimeoutMs config))%N ->
         settles (promise (nats_probe config endpoint nc)) = true ->
         nc_close nc = SettlesAfter ms' (Rejected error) ->
         exists elapsed,
           promise (runNatsCheck config network endpoint)
           = SettlesAfter elapsed (Rejected error)).
Proof.
  split.
  - apply runRedisCheck_constructor_throws.
  - apply runNatsCheck_close_rejects.
Qed.

Lemma probe_executors_can_reject_witness :
  promise (runRedisCheck (H := Reference.platform) Examples.config
             Examples.strict_redis_network Examples.redis_endpoint)
  = SettlesAfter 0 (Rejected (ErrorObject "Invalid URL"))
  /\ exists elapsed,
       promise (runNatsCheck (H := Reference.platform) Examples.config
                  Examples.nats_close_fails_network Examples.jetstream_endpoint)
       = SettlesAfter elapsed (Rejected (ErrorObject "CONNECTION_CLOSED")).
Proof.
  split.
  - apply (probe_executors_can_reject (H := Reference.platform) Examples.config
             Examples.strict_redis_network Examples.redis_endpoint).
    reflexivity.
  - eapply (proj2 (probe_executors_can_reject (H := Reference.platform) Examples.config
                     Examples.nats_close_fails_network Examples.jetstream_endpoint)).
    + reflexivity.
    + reflexivity.
    + reflexivity.
    + reflexivity.
Defined.

(** C5.  The MySQL probe awaits its statement with no timeout around it:
    when the server has accepted the connection and never answers the
    statement, the probe never settles; it has made its two calls and has
    not released the connection. *)
Theorem runMysqlCheck_waits_without_timeout `{Platform}
    (config : Config) (network : Network) (endpoint : MonitorEndpoint)
    (conn : MysqlConnection) (ms : N) :
  mysql_createConnection network (mysql_options config endpoint)
  = SettlesAfter ms (Fulfilled conn) ->
  conn_query conn (trimmed_or (probe_command endpoint) "SELECT 1 AS health")
  = NeverSettles ->
  promise (runMysqlCheck config network endpoint) = NeverSettles
  /\ effects (runMysqlCheck config network endpoint)
     = [MysqlCreateConnection (mysql_options config endpoint);
        MysqlQuery (trimmed_or (probe_command endpoint) "SELECT 1 AS health")].
Proof.
  intros Hconnect Hquery. unfold runMysqlCheck. cbv zeta. rewrite Hconnect.
  set (query := trimmed_or (probe_command endpoint) "SELECT 1 AS health") in *.
  set (handler := fun error => TaskMonad.ret (failed_check error "MySQL check failed")).
  set (body := TaskMonad.try_catch _ handler).
  assert (Hbody : promise body = NeverSettles
                  /\ effects body
                     = [MysqlCreateConnection (mysql_options config endpoint);
                        MysqlQuery query]).
  { subst body. unfold mbind, TaskMonad.Task_bind, TaskMonad.try_catch, TaskMonad.bind,
      TaskMonad.perform.
    cbn [promise effects]. rewrite Hquery. cbn [promise effects later app].
    split; reflexivity. }
  destruct Hbody as [Hpromise Heffects].
  destruct (try_finally_never body
              (TaskMonad.perform MysqlEnd
                 (TaskMonad.promise_catch (conn_end conn) (fun _ => tt)))
              Hpromise) as [Hnever Hsame].
  split; [exact Hnever | rewrite Hsame; exact Heffects].
Qed.

Lemma runMysqlCheck_waits_without_timeout_witness :
  promise (runMysqlCheck (H := Reference.platform) Examples.config
             Examples.mysql_silent_network Examples.mysql_endpoint) = NeverSettles
  /\ effects (runMysqlCheck (H := Reference.platform) Examples.config
                Examples.mysql_silent_network Examples.mysql_endpoint)
     = [MysqlCreateConnection
          (mysql_options (H := Reference.platform) Examples.config Examples.mysql_endpoint);
        MysqlQuery "SELECT 1 AS health"].
Proof.
  eapply (runMysqlCheck_waits_without_timeout (H := Reference.platform) Examples.config
            Examples.mysql_silent_network Examples.mysql_endpoint).
  - reflexivity.
  - reflexivity.
Defined.


(** ** Configuration errors *)

Section ConfigurationProperties.
Import TaskMonad.
Context `{Platform}.
Variable config : Config.
Variable network : Network.

(** An invalid port ends the TCP probe before the socket is created. *)
Lemma runTcpCheck_invalid_port (endpoint : MonitorEndpoint) :
  tcp_port_invalid endpoint = true ->
  runTcpCheck config network endpoint = ret invalid_tcp_port.
Proof. intros Hinvalid. unfold runTcpCheck. rewrite Hinvalid. reflexivity. Qed.

(** A valid port lets the TCP probe create the socket. *)
Lemma runTcpCheck_valid_port (endpoint : MonitorEndpoint) :
  tcp_port_invalid endpoint = false ->
  exists host,
    hd_error (effects (runTcpCheck config network endpoint))
    = Some (TcpCreateConnection host (tcp_port endpoint)).
Proof.
  intros Hvalid. unfold runTcpCheck. rewrite Hvalid. cbv zeta.
  eexists. rewrite try_catch_effects. unfold mbind, Task_bind, bind, perform.
  cbn [effects promise].
  destruct (withTimeout _ _ _) as [ms [[] | e] |]; reflexivity.
Qed.

(** The HTTP probe starts by sending its request. *)
Lemma runHttpCheck_sends (endpoint : MonitorEndpoint) :
  hd_error (effects (runHttpCheck network endpoint))
  = Some (Fetch (http_request endpoint)).
Proof.
  unfold runHttpCheck. cbv zeta. rewrite try_catch_effects.
  unfold mbind, Task_bind, bind, perform. cbn [effects promise].
  destruct (fetch network (http_request endpoint)) as [ms [response | e] |]; reflexivity.
Qed.

(** A method that is not supported is replaced by [GET]. *)
Lemma http_request_method (endpoint : MonitorEndpoint) :
  fetch_method (http_request endpoint)
  = if includes ALLOWED_METHODS (ep_method endpoint) then ep_method endpoint else "GET".
Proof. reflexivity. Qed.

(** Connection JSON that does not parse reads as the empty object. *)
Lemma parseConnection_malformed (text : string) :
  JSON_parse text = None -> parseConnection (JStr text) = [].
Proof.
  intros Hparse. unfold parseConnection, parseJson. cbn [truthy is_nullish orb ToString].
  destruct (String.eqb text ""); cbn [negb strict_eq_primitive]; [reflexivity |].
  destruct (String.eqb text ""); [reflexivity |]. rewrite Hparse. reflexivity.
Qed.

(** A sequence starts with what its first task starts with. *)
Lemma bind_effects_head {A B} (first : Task A) (rest : A -> Task B) (e : Effect) :
  hd_error (effects first) = Some e -> hd_error (effects (bind first rest)) = Some e.
Proof.
  intros He. unfold bind.
  destruct (promise first) as [ms [a | err] |]; cbn [effects]; [| exact He | exact He].
  destruct (effects first); [discriminate | exact He].
Qed.

Lemma try_catch_effects_head {A} (body : Task A) (handler : Thrown -> Task A)
    (e : Effect) :
  hd_error (effects body) = Some e -> hd_error (effects (try_catch body handler)) = Some e.
Proof.
  intros He. rewrite try_catch_effects. destruct (effects body); [discriminate | exact He].
Qed.

Lemma try_finally_effects_head {A} (body : Task A) (cleanup : Task unit) (e : Effect) :
  hd_error (effects body) = Some e ->
  hd_error (effects (try_finally body cleanup)) = Some e.
Proof.
  intros He. unfold try_finally.
  destruct (promise body) as [ms outcome |]; cbn [effects]; [| exact He].
  destruct (effects body); [discriminate | exact He].
Qed.

(** The MySQL probe starts by connecting with the options it has read,
    whatever they are. *)
Lemma runMysqlCheck_connects (endpoint : MonitorEndpoint) :
  hd_error (effects (runMysqlCheck config network endpoint))
  = Some (MysqlCreateConnection (mysql_options config endpoint)).
Proof.
  unfold runMysqlCheck. cbv zeta.
  apply try_finally_effects_head, try_catch_effects_head.
  unfold mbind, Task_bind. apply bind_effects_head. reflexivity.
Qed.

(** The Redis probe starts by constructing its client with the options it
    has read, whatever they are, and then connects. *)
Lemma runRedisCheck_constructs (endpoint : MonitorEndpoint) :
  hd_error (effects (runRedisCheck config network endpoint))
  = Some (RedisCreateClient (redis_options config endpoint))
  /\ (forall client,
        createClient network (redis_options config endpoint) = Fulfilled client ->
        hd_error (network_calls (runRedisCheck config network endpoint))
        = Some RedisConnect).
Proof.
  unfold runRedisCheck. cbv zeta.
  destruct (createClient network (redis_options config endpoint)) as [client | error].
  - split; [reflexivity |]. intros other _.
    unfold network_calls, mbind, Task_bind. unfold bind at 1.
    cbn [emit promise effects app later].
    rewrite filter_cons. cbn [is_network_call].
    destruct (decide (false = true)) as [Hfalse | _]; [discriminate |].
    match goal with
    | |- hd_error (filter _ (effects ?task)) = _ =>
        assert (Hhead : hd_error (effects task) = Some RedisConnect)
    end.
    { apply try_finally_effects_head, try_catch_effects_head.
      apply bind_effects_head. reflexivity. }
    match goal with
    | |- hd_error (filter _ ?l) = _ => destruct l as [| e rest]; [discriminate |]
    end.
    injection Hhead as ->. rewrite filter_cons. reflexivity.
  - split; [reflexivity | discriminate].
Qed.

(** The first network call of the NATS probe is the connection, with the
    options it has read. *)
Lemma runNatsCheck_connects (endpoint : MonitorEndpoint) :
  hd_error (network_calls (runNatsCheck config network endpoint))
  = Some (NatsConnect (nats_options config endpoint)).
Proof.
  unfold runNatsCheck. cbv zeta.
  unfold network_calls, mbind, Task_bind. unfold bind at 1.
  cbn [emit promise effects app later].
  rewrite filter_cons. cbn [is_network_call].
  destruct (decide (false = true)) as [Hfalse | _]; [discriminate |].
  match goal with
  | |- hd_error (filter _ (effects ?task)) = _ =>
      assert (Hhead : hd_error (effects task)
                      = Some (NatsConnect (nats_options config endpoint)))
  end.
  { apply try_finally_effects_head, try_catch_effects_head.
    apply bind_effects_head. reflexivity. }
  match goal with
  | |- hd_error (filter _ ?l) = _ => destruct l as [| e rest]; [discriminate |]
  end.
  injection Hhead as ->. rewrite filter_cons. reflexivity.
Qed.

(** With a valid port the TCP probe creates its socket and does nothing
    else. *)
Lemma runTcpCheck_effects (endpoint : MonitorEndpoint) :
  tcp_port_invalid endpoint = false ->
  effects (runTcpCheck config network endpoint)
  = [TcpCreateConnection
       (ToString
          (nullish_or (get_property (parseConnection (connection_json endpoint)) "host")
             (JStr "127.0.0.1")))
       (tcp_port endpoint)].
Proof.
  intros Hvalid. unfold runTcpCheck. rewrite Hvalid. cbv zeta.
  rewrite try_catch_effects. unfold mbind, Task_bind, bind, perform.
  cbn [effects promise].
  destruct (withTimeout _ _ _) as [ms [[] | e] |]; reflexivity.
Qed.

End ConfigurationProperties.

(** C6, as amended.  A TCP port that is not finite or lies outside
    [1, 65535] is detected before anything else is done and the check
    fails with ['Invalid TCP port in connection_json'].  The port of a
    MySQL or Redis monitor is not looked at: the probe starts by handing
    the options it has read to the driver.  An HTTP method that is not
    supported is replaced by [GET] and the request is sent.  Connection
    JSON that does not parse is read as the empty object, so the defaults
    apply and the probe goes on to its first call: the TCP probe opens a
    socket to 127.0.0.1:80, the MySQL probe connects to 127.0.0.1:3306,
    the Redis probe constructs its client for 127.0.0.1:6379 and connects,
    the NATS probe connects to [nats://127.0.0.1:4222]. *)
Theorem configuration_errors_as_handled `{Platform}
    (config : Config) (network : Network) (endpoint : MonitorEndpoint) :
  (tcp_port_invalid endpoint = true ->
   effects (runTcpCheck config network endpoint) = []
   /\ promise (runTcpCheck config network endpoint)
      = SettlesAfter 0 (Fulfilled invalid_tcp_port))
  /\ (includes ALLOWED_METHODS (ep_method endpoint) = false ->
      fetch_method (http_request endpoint) = "GET"
      /\ hd_error (effects (runHttpCheck network endpoint))
         = Some (Fetch (http_request endpoint)))
  /\ (forall text,
         connection_json endpoint = JStr text ->
         JSON_parse text = None ->
         parseConnection (connection_json endpoint) = []
         /\ tcp_port endpoint = Finite (inject_Z 80)
         /\ mysql_options config endpoint
            = MysqlFields "127.0.0.1" (Finite (inject_Z 3306)) None None None
                (requestTimeoutMs config)
         /\ effects (runTcpCheck config network endpoint)
            = [TcpCreateConnection "127.0.0.1" (Finite (inject_Z 80))]
         /\ hd_error (effects (runMysqlCheck config network endpoint))
            = Some (MysqlCreateConnection
                      (MysqlFields "127.0.0.1" (Finite (inject_Z 3306)) None None None
                         (requestTimeoutMs config)))
         /\ hd_error (effects (runRedisCheck config network endpoint))
            = Some (RedisCreateClient
                      (RedisSocket "127.0.0.1" (Finite (inject_Z 6379))
                         (requestTimeoutMs config) None None None))
         /\ (forall client,
               createClient network
                 (RedisSocket "127.0.0.1" (Finite (inject_Z 6379))
                    (requestTimeoutMs config) None None None)
               = Fulfilled client ->
               hd_error (network_calls (runRedisCheck config network endpoint))
               = Some RedisConnect)
         /\ hd_error (network_calls (runNatsCheck config network endpoint))
            = Some (NatsConnect
                      {| servers := ["nats://127.0.0.1:4222"];
                         nats_user := None;
                         nats_pass := None;
                         nats_token := None;
                         nats_timeout := requestTimeoutMs config |}))
  /\ hd_error (effects (runMysqlCheck config network endpoint))
     = Some (MysqlCreateConnection (mysql_options config endpoint))
  /\ hd_error (effects (runRedisCheck config network endpoint))
     = Some (RedisCreateClient (redis_options config endpoint)).
Proof.
  split; [| split; [| split; [| split]]].
  - intros Hinvalid. rewrite (runTcpCheck_invalid_port config network endpoint Hinvalid).
    split; reflexivity.
  - intros Hmethod. split; [| apply runHttpCheck_sends].
    rewrite http_request_method, Hmethod. reflexivity.
  - intros text Hjson Hparse.
    assert (Hconnection : parseConnection (connection_json endpoint) = []).
    { rewrite Hjson. apply parseConnection_malformed, Hparse. }
    assert (Hport : tcp_port endpoint = Finite (inject_Z 80)).
    { unfold tcp_port. rewrite Hconnection. reflexivity. }
    assert (Hmysql : mysql_options config endpoint
                     = MysqlFields "127.0.0.1" (Finite (inject_Z 3306)) None None None
                         (requestTimeoutMs config)).
    { unfold mysql_options. rewrite Hconnection. reflexivity. }
    assert (Hredis : redis_options config endpoint
                     = RedisSocket "127.0.0.1" (Finite (inject_Z 6379))
                         (requestTimeoutMs config) None None None).
    { unfold redis_options. rewrite Hconnection. reflexivity. }
    assert (Hnats : nats_options config endpoint
                    = {| servers := ["nats://127.0.0.1:4222"];
                         nats_user := None;
                         nats_pass := None;
                         nats_token := None;
                         nats_timeout := requestTimeoutMs config |}).
    { unfold nats_options. rewrite Hconnection. reflexivity. }
    split; [exact Hconnection |]. split; [exact Hport |]. split; [exact Hmysql |].
    split.
    { rewrite runTcpCheck_effects.
      - rewrite Hconnection, Hport. reflexivity.
      - unfold tcp_port_invalid. rewrite Hport. reflexivity. }
    split; [rewrite <- Hmysql; apply runMysqlCheck_connects |].
    rewrite <- Hredis, <- Hnats.
    split; [apply runRedisCheck_constructs |].
    split; [apply runRedisCheck_constructs | apply runNatsCheck_connects].
  - apply runMysqlCheck_connects.
  - apply runRedisCheck_constructs.
Qed.

Lemma configuration_errors_as_handled_witness :
  (effects (runTcpCheck (H := Reference.platform) Examples.config Examples.healthy_network
              Examples.bad_port_endpoint) = []
   /\ promise (runTcpCheck (H := Reference.platform) Examples.config
                 Examples.healthy_network Examples.bad_port_endpoint)
      = SettlesAfter 0 (Fulfilled invalid_tcp_port))
  /\ (fetch_method (http_request (H := Reference.platform) Examples.http_endpoint) = "GET"
      /\ hd_error (effects (runHttpCheck (H := Reference.platform)
                              Examples.healthy_network Examples.http_endpoint))
         = Some (Fetch (http_request (H := Reference.platform) Examples.http_endpoint)))
  /\ effects (runTcpCheck (H := Reference.platform) Examples.config
                Examples.healthy_network Samples.broken_json_endpoint)
     = [TcpCreateConnection "127.0.0.1" (Finite (inject_Z 80))].
Proof.
  split; [| split].
  - apply (configuration_errors_as_handled (H := Reference.platform) Examples.config
             Examples.healthy_network Examples.bad_port_endpoint).
    reflexivity.
  - apply (configuration_errors_as_handled (H := Reference.platform) Examples.config
             Examples.healthy_network Examples.http_endpoint).
    reflexivity.
  - destruct (configuration_errors_as_handled (H := Reference.platform) Examples.config
                Examples.healthy_network Samples.broken_json_endpoint)
      as (_ & _ & Hdefaults & _).
    destruct (Hdefaults "{host:" eq_refl eq_refl) as (_ & _ & _ & Hsocket & _).
    exact Hsocket.
Defined.

(** C6, as the specification states it, fails.  The create route accepts
    a MySQL monitor whose port is 0 and writes the row of the example.
    The port is not valid, yet the probe of that row starts with a network
    call, the connection to port 0; here the connection is refused, and
    the check fails on the error of the driver. *)
Lemma invalid_port_reaches_the_driver :
  match normalizeEndpointPayload (H := Reference.platform) (H0 := Samples.web_platform)
          Samples.port_zero_payload with
  | Fulfilled saved => Some (inserted_endpoint 14 (Some "Core") saved)
  | Rejected _ => None
  end = Some Samples.port_zero_endpoint
  /\ configured_port (H := Reference.platform) Samples.port_zero_endpoint
     = Some (Finite (inject_Z 0))
  /\ port_out_of_range (Finite (inject_Z 0)) = true
  /\ run_probe (H := Reference.platform) Examples.config Samples.refusing_network
       Samples.port_zero_endpoint
     = {| effects :=
            [MysqlCreateConnection
               (MysqlFields "10.0.0.7" (Finite (inject_Z 0)) None None None
                  (Finite 10000))];
          promise :=
            SettlesAfter 5
              (Fulfilled {| checkPassed := false;
                            responseCode := Some 500;
                            matchedValue := None;
                            errorMessage := Some "connect ECONNREFUSED 10.0.0.7:0" |}) |}
  /\ ~ configuration_errors_fail_locally (H := Reference.platform).
Proof.
  split; [vm_compute; reflexivity |]. split; [vm_compute; reflexivity |].
  split; [reflexivity |]. split; [vm_compute; reflexivity |].
  intros Hclaim.
  destruct (Hclaim Examples.config Samples.refusing_network Samples.port_zero_endpoint)
    as [Hcalls _].
  - right. right. exists (Finite (inject_Z 0)). split; vm_compute; reflexivity.
  - vm_compute in Hcalls. discriminate.
Qed.

(** ** The NATS probe *)

Section NatsProperties.
Import TaskMonad.
Context `{Platform}.
Variable config : Config.
Variable network : Network.

(** With a command that names no stream, the probe answers without a
    JetStream request. *)
Lemma nats_probe_no_stream (endpoint : MonitorEndpoint) (nc : NatsConnection) :
  names_no_stream endpoint ->
  nats_probe config endpoint nc = ret stream_name_required.
Proof.
  intros [Hprefix Hname]. unfold nats_probe.
  destruct (String.eqb_spec (trimmed_or (probe_command endpoint) "jetstream.info")
              "jetstream.info") as [Hdefault | _].
  - rewrite Hdefault in Hprefix. vm_compute in Hprefix. discriminate.
  - rewrite Hprefix, Hname. reflexivity.
Qed.

End NatsProperties.

(** C9, as amended.  A NATS probe whose command has the [stream.info:]
    form and names no stream connects to the servers first; once the
    connection is up, it makes no JetStream request, closes the
    connection and fails with ['stream.info command requires stream
    name']. *)
Theorem runNatsCheck_stream_name_checked_once_connected `{Platform}
    (config : Config) (network : Network) (endpoint : MonitorEndpoint)
    (nc : NatsConnection) (ms ms' : N) :
  names_no_stream endpoint ->
  connectNats network (nats_options config endpoint) = SettlesAfter ms (Fulfilled nc) ->
  (ms < timer_delay (requestTimeoutMs config))%N ->
  nc_close nc = SettlesAfter ms' (Fulfilled tt) ->
  network_calls (runNatsCheck config network endpoint)
  = [NatsConnect (nats_options config endpoint); NatsClose]
  /\ promise (runNatsCheck config network endpoint)
     = SettlesAfter (ms + ms') (Fulfilled stream_name_required).
Proof.
  intros Hname Hconnect Hearly Hclose.
  rewrite (runNatsCheck_connected config network endpoint nc ms Hconnect Hearly).
  unfold network_calls, mbind, TaskMonad.Task_bind.
  unfold TaskMonad.bind, TaskMonad.try_catch, TaskMonad.try_finally, TaskMonad.perform,
    TaskMonad.emit.
  cbn [promise effects later app].
  rewrite (nats_probe_no_stream config endpoint nc Hname).
  unfold TaskMonad.ret. cbn [promise effects later app].
  rewrite Hclose. cbn [promise effects later app].
  split.
  - reflexivity.
  - f_equal. lia.
Qed.

Lemma runNatsCheck_stream_name_checked_once_connected_witness :
  network_calls (runNatsCheck (H := Reference.platform) Examples.config
                   Examples.healthy_network Examples.nats_endpoint)
  = [NatsConnect (nats_options (H := Reference.platform) Examples.config
                    Examples.nats_endpoint);
     NatsClose]
  /\ promise (runNatsCheck (H := Reference.platform) Examples.config
                Examples.healthy_network Examples.nats_endpoint)
     = SettlesAfter (8 + 1) (Fulfilled stream_name_required).
Proof.
  apply (runNatsCheck_stream_name_checked_once_connected (H := Reference.platform)
           Examples.config Examples.healthy_network Examples.nats_endpoint
           Examples.healthy_nats 8 1).
  - split; reflexivity.
  - reflexivity.
  - reflexivity.
  - reflexivity.
Defined.

(** C9, as the specification states it, fails.  The command of the example
    endpoint is [stream.info:] followed by a blank, so it names no stream;
    its probe connects to the servers and closes the connection, two
    network calls, before it fails. *)
Lemma stream_name_not_checked_before_network :
  names_no_stream Examples.nats_endpoint
  /\ network_calls (runNatsCheck (H := Reference.platform) Examples.config
                      Examples.healthy_network Examples.nats_endpoint)
     = [NatsConnect
          {| servers := ["nats://10.0.0.6:4222"];
             nats_user := None;
             nats_pass := None;
             nats_token := None;
             nats_timeout := Finite 10000 |};
        NatsClose]
  /\ ~ stream_name_checked_before_network (H := Reference.platform).
Proof.
  split; [split; reflexivity |]. split; [reflexivity |].
  intros Hclaim.
  destruct (Hclaim Examples.config Examples.healthy_network Examples.nats_endpoint)
    as [Hcalls _].
  - split; reflexivity.
  - vm_compute in Hcalls. discriminate.
Qed.

(** ** Scheduling the next check *)

Section Scheduling.
Context `{Platform}.
Variable config : Config.
Variable network : Network.

(** The [UPDATE] touches the row of the endpoint and no other. *)
Lemma update_endpoint_other now next result interval id other table :
  id <> other ->
  update_endpoint now next result interval id table !! other = table !! other.
Proof. intros Hne. unfold update_endpoint. apply lookup_alter_ne. exact Hne. Qed.

Lemma update_endpoint_row now next result interval id table row :
  table !! id = Some row ->
  exists row',
    update_endpoint now next result interval id table !! id = Some row'
    /\ last_checked_at row' = Some now
    /\ next_check_at row' = now + interval
    /\ columns row' = with_computation (columns row) next.
Proof.
  intros Hrow. unfold update_endpoint. rewrite lookup_alter_eq, Hrow.
  eexists. split; [reflexivity |]. repeat split.
Qed.

(** A paused endpoint is not checked: nothing is written, no probe runs. *)
Lemma runCheck_paused clock endpoint world :
  is_paused endpoint = 1 ->
  runCheck config network clock endpoint world = (world, TaskMonad.ret None).
Proof. intros Hpaused. unfold runCheck. rewrite Hpaused. reflexivity. Qed.

(** The world a check leaves once its probe has answered. *)
Lemma runCheck_world clock endpoint world ms result :
  is_paused endpoint <> 1 ->
  promise (run_probe config network endpoint) = SettlesAfter ms (Fulfilled result) ->
  fst (runCheck config network clock endpoint world)
  = record_check clock endpoint result world.
Proof.
  intros Hpaused Hprobe. unfold runCheck.
  destruct (Z.eqb_spec (is_paused endpoint) 1); [contradiction |].
  rewrite Hprobe. reflexivity.
Qed.

(** A check whose probe rejects or never settles writes nothing. *)
Lemma runCheck_unanswered clock endpoint world :
  is_fulfilled (promise (run_probe config network endpoint)) = false ->
  fst (runCheck config network clock endpoint world) = world.
Proof.
  intros Hprobe. unfold runCheck.
  destruct (is_paused endpoint =? 1); [reflexivity |]. cbv zeta.
  destruct (promise (run_probe config network endpoint)) as [ms [result | e] |];
    [discriminate | reflexivity | reflexivity].
Qed.

End Scheduling.

(** C2.  When a check moves [next_check_at], and when it does not.  For
    an endpoint that is not paused and has its row: once the probe has
    returned a result, passed or failed, the row holds the time of the
    check in [last_checked_at] and that time plus [interval_seconds]
    seconds in [next_check_at].  When the probe rejects or never settles,
    the check has run its probe and [runCheck] does not return: the table,
    the runs and the events are as they were, so [next_check_at] is not
    moved and an endpoint that was due stays due at every later moment. *)
Theorem runCheck_advances_only_once_answered `{Platform}
    (config : Config) (network : Network) (clock : Clock)
    (endpoint : MonitorEndpoint) (world : World) (row : EndpointRow) :
  is_paused endpoint <> 1 ->
  monitor_endpoints world !! ep_id endpoint = Some row ->
  let check := runCheck config network clock endpoint world in
  (forall ms result,
      promise (run_probe config network endpoint) = SettlesAfter ms (Fulfilled result) ->
      exists row',
        monitor_endpoints check.1 !! ep_id endpoint = Some row'
        /\ last_checked_at row' = Some (sql_now clock)
        /\ next_check_at row' = sql_now clock + interval_seconds endpoint)
  /\ (is_fulfilled (promise (run_probe config network endpoint)) = false ->
      effects check.2 = effects (run_probe config network endpoint)
      /\ is_fulfilled (promise check.2) = false
      /\ check.1 = world
      /\ monitor_endpoints check.1 !! ep_id endpoint = Some row
      /\ forall now later,
           is_due now row = true -> now <= later -> is_due later row = true).
Proof.
  intros Hpaused Hrow. cbv zeta. split.
  - intros ms result Hprobe.
    rewrite (runCheck_world config network clock endpoint world ms result Hpaused Hprobe).
    cbn [record_check monitor_endpoints].
    destruct (update_endpoint_row (sql_now clock)
                (computeStatus endpoint (checkPassed result)) result
                (interval_seconds endpoint) (ep_id endpoint) _ row Hrow)
      as (row' & Hlookup & Hchecked & Hnext & _).
    exists row'. auto.
  - intros Hprobe.
    rewrite (runCheck_unanswered config network clock endpoint world Hprobe).
    split; [| split; [| split; [reflexivity | split; [exact Hrow |]]]].
    + unfold runCheck. destruct (Z.eqb_spec (is_paused endpoint) 1); [contradiction |].
      cbv zeta. unfold mbind, TaskMonad.Task_bind, TaskMonad.bind.
      destruct (promise (run_probe config network endpoint)) as [ms [result | e] |] eqn:Hp;
        [discriminate | |]; cbn [snd effects promise]; rewrite ?Hp, ?app_nil_r;
        reflexivity.
    + unfold runCheck. destruct (Z.eqb_spec (is_paused endpoint) 1); [contradiction |].
      cbv zeta. unfold mbind, TaskMonad.Task_bind, TaskMonad.bind.
      destruct (promise (run_probe config network endpoint)) as [ms [result | e] |] eqn:Hp;
        [discriminate | |]; cbn [snd effects promise]; rewrite ?Hp; reflexivity.
    + intros now later Hdue Hlater. unfold is_due in *.
      apply andb_true_iff in Hdue as [Hunpaused Hdue]. rewrite Hunpaused.
      apply Z.leb_le in Hdue. apply Z.leb_le. lia.
Qed.

Lemma runCheck_advances_only_once_answered_witness :
  ((runCheck (H := Reference.platform) Examples.config Examples.strict_redis_network
      Examples.clock Examples.redis_endpoint Samples.redis_world).1
   = Samples.redis_world
   /\ is_fulfilled
        (promise
           (runCheck (H := Reference.platform) Examples.config
              Examples.strict_redis_network Examples.clock Examples.redis_endpoint
              Samples.redis_world).2)
      = false
   /\ is_due 1771601460 Samples.redis_row = true)
  /\ (exists row',
        monitor_endpoints
          (runCheck (H := Reference.platform) Examples.config Examples.healthy_network
             Examples.clock Examples.tcp_endpoint Examples.initial_world).1
          !! 7 = Some row'
        /\ last_checked_at row' = Some 1771601400
        /\ next_check_at row' = 1771601400 + 60).
Proof.
  split.
  - destruct (runCheck_advances_only_once_answered (H := Reference.platform)
                Examples.config Examples.strict_redis_network Examples.clock
                Examples.redis_endpoint Samples.redis_world Samples.redis_row)
      as [_ Hunanswered]; [discriminate | reflexivity |].
    destruct (Hunanswered eq_refl) as (_ & Hpending & Hworld & _ & Hdue).
    split; [exact Hworld |]. split; [exact Hpending |].
    apply (Hdue 1771601400); [reflexivity | discriminate].
  - destruct (runCheck_advances_only_once_answered (H := Reference.platform)
                Examples.config Examples.healthy_network Examples.clock
                Examples.tcp_endpoint Examples.initial_world Examples.tcp_row)
      as [Hanswered _]; [discriminate | reflexivity |].
    eapply Hanswered. vm_compute. reflexivity.
Defined.

(** ** The notification dispatcher *)

Section NotifierProperties.
Import TaskMonad.
Context `{Platform}.
Variable config : Config.
Variable network : Network.


Lemma first_rejection_none {A} (ps : list (Promise A)) :
  Forall (fun p => is_rejected p = false) ps -> first_rejection ps = None.
Proof.
  induction 1 as [| p ps Hp _ IH]; [reflexivity |].
  cbn [first_rejection]. rewrite IH.
  destruct p as [ms [a | e] |]; cbn in Hp; try discriminate; reflexivity.
Qed.


(** When every promise settles and none rejects, [Promise.all] fulfils. *)
Lemma Promise_all_fulfils {A} (ps : list (Promise A)) :
  Forall (fun p => is_fulfilled p = true) ps ->
  is_fulfilled (Promise_all ps) = true.
Proof.
  intros Hps. unfold Promise_all.
  assert (Hnone : first_rejection ps = None).
  { apply first_rejection_none. eapply Forall_impl; [exact Hps |].
    intros [ms [a | e] |]; cbn; congruence. }
  rewrite Hnone.
  assert (Hall : exists found, all_fulfilled ps = Some found).
  { clear Hnone. induction Hps as [| p ps Hp _ [[ms values] IH]]; [eexists; reflexivity |].
    destruct p as [ms' [a | e] |]; cbn in Hp; try discriminate.
    cbn [all_fulfilled]. rewrite IH. eexists; reflexivity. }
  destruct Hall as [[ms values] ->]. reflexivity.
Qed.

Lemma all_tasks_effects {A} (tasks : list (Task A)) (task : Task A) (e : Effect) :
  task ∈ tasks -> e ∈ effects task -> e ∈ effects (all_tasks tasks).
Proof.
  intros Htask He. unfold all_tasks. cbn [effects].
  apply list_elem_of_In, in_concat. exists (effects task).
  split; [apply in_map, list_elem_of_In, Htask | apply list_elem_of_In, He].
Qed.

(** Past the three guards, what the dispatcher performs is its first log
    line and then what the callbacks perform, target by target. *)
Lemma notifyStatusChange_effects (event : StatusChangeEvent) :
  notifications_enabled config = true ->
  isValidEvent (currentStatus event) = true ->
  effects (notifyStatusChange config network event)
  = ConsoleLog ("[notify] status change detected for endpoint="
                ++ Z_to_string (ev_endpointId event)
                ++ " status=" ++ status_text (currentStatus event))
    :: concat (map effects
                 (map (deliver config network event) (notifications_targets config))).
Proof.
  intros Henabled Hvalid. unfold notifyStatusChange.
  rewrite Henabled, Hvalid. cbn [negb].
  unfold mbind, Task_bind, bind. cbn [emit promise effects app].
  f_equal. case_bool_decide as Htargets.
  - rewrite Htargets. reflexivity.
  - unfold all_tasks. cbn [promise effects].
    destruct (Promise_all _) as [ms [values | e] |]; cbn [effects];
      rewrite ?app_nil_r; reflexivity.
Qed.



End NotifierProperties.

Section DeliveryProperties.
Import TaskMonad.
Context `{Platform}.
Variable config : Config.
Variable network : Network.

(** A delivery starts by posting its request. *)
Lemma notifyTarget_posts (target : NotificationTarget) (event : StatusChangeEvent)
    (request : FetchRequest) :
  delivery_request config target event = Some request ->
  Fetch request ∈ effects (notifyTarget config network target event).
Proof.
  unfold delivery_request, notifyTarget, postJson.
  destruct (target_type target).
  - destruct (buildSlackPayload config event) as [message |]; [| discriminate].
    cbn [fmap option_fmap option_map]. intros [= <-].
    unfold mbind, Task_bind. apply bind_effects_first. apply list_elem_of_singleton.
    reflexivity.
  - intros [= <-].
    unfold mbind, Task_bind. apply bind_effects_first. apply list_elem_of_singleton.
    reflexivity.
Qed.

(** A webhook that answers outside 200-299 makes the delivery reject. *)
Lemma postJson_rejects_non_2xx (url : string) (payload : JsValue)
    (headers : list (string * string)) (ms : N) (response : Response) :
  fetch network (webhook_request url payload headers) = SettlesAfter ms (Fulfilled response) ->
  resp_ok response = false ->
  settles (resp_text response) = true ->
  is_rejected (promise (postJson network url payload headers)) = true.
Proof.
  intros Hfetch Hstatus Hbody. unfold postJson. cbv zeta.
  unfold mbind, Task_bind, bind, perform, await, promise_catch, throw.
  cbn [promise]. rewrite Hfetch, Hstatus. cbn [negb promise].
  destruct (resp_text response) as [ms' [text | e] |]; [| | discriminate];
    reflexivity.
Qed.

(** What the callback performs for a target it delivers to: the delivery,
    then the error line if the delivery was rejected. *)
Lemma deliver_effects (event : StatusChangeEvent) (target : NotificationTarget) :
  subscribed target (currentStatus event) = true ->
  effects (deliver config network event target)
  = (effects (notifyTarget config network target event) ++
     match promise (notifyTarget config network target event) with
     | SettlesAfter _ (Rejected error) =>
         [ConsoleError (failure_line target event error)]
     | _ => []
     end)%list.
Proof.
  intros Hsubscribed. unfold deliver. rewrite Hsubscribed. cbn [negb].
  rewrite try_catch_effects. reflexivity.
Qed.

Lemma deliver_performed (event : StatusChangeEvent) (target : NotificationTarget)
    (e : Effect) :
  notifications_enabled config = true ->
  isValidEvent (currentStatus event) = true ->
  target ∈ notifications_targets config ->
  e ∈ effects (deliver config network event target) ->
  e ∈ effects (notifyStatusChange config network event).
Proof.
  intros Henabled Hvalid Htarget He.
  rewrite (notifyStatusChange_effects config network event Henabled Hvalid).
  apply elem_of_cons. right.
  apply list_elem_of_In, in_concat. exists (effects (deliver config network event target)).
  split; [| apply list_elem_of_In, He].
  apply in_map, in_map, list_elem_of_In, Htarget.
Qed.

End DeliveryProperties.



(** ** When the dispatcher is called *)

Section DispatchProperties.
Import TaskMonad.
Context `{Platform}.
Variable config : Config.
Variable network : Network.

(** [runCheck] hands an event to the dispatcher exactly when the status
    has changed and the new status is [up] or [down]; the event carries
    the two statuses. *)
Lemma transition_event_spec (clock : Clock) (endpoint : MonitorEndpoint)
    (result : CheckResult) :
  let previous := default pending (status endpoint) in
  let next := sc_status (computeStatus endpoint (checkPassed result)) in
  match transition_event clock endpoint result with
  | Some event =>
      previous <> next /\ (next = up \/ next = down)
      /\ previousStatus event = previous /\ currentStatus event = next
  | None => previous = next \/ next = pending
  end.
Proof.
  cbv zeta. unfold transition_event.
  destruct (sc_status (computeStatus endpoint (checkPassed result))) eqn:Hnext;
    repeat case_bool_decide; cbn [andb orb];
    first [congruence | by auto | by repeat split; auto].
Qed.

(** A check whose status does not change, or changes to [pending], does
    what its probe does and nothing more. *)
Lemma runCheck_without_transition (clock : Clock) (endpoint : MonitorEndpoint)
    (world : World) (ms : N) (result : CheckResult) :
  is_paused endpoint <> 1 ->
  promise (run_probe config network endpoint) = SettlesAfter ms (Fulfilled result) ->
  transition_event clock endpoint result = None ->
  effects (snd (runCheck config network clock endpoint world))
  = effects (run_probe config network endpoint).
Proof.
  intros Hpaused Hprobe Hnone. unfold runCheck.
  destruct (Z.eqb_spec (is_paused endpoint) 1); [contradiction |].
  cbv zeta. rewrite Hprobe, Hnone. cbn [snd].
  unfold mbind, Task_bind, bind. rewrite Hprobe. cbn [promise effects ret later].
  rewrite !app_nil_r. reflexivity.
Qed.

End DispatchProperties.

(** C7.  A notification outside any check.  Once the module notifier.js
    is loaded its timer fires and calls the dispatcher with a built-in
    event (endpoint 12, [up] to [down]): with notifications enabled, every
    target that listens to [down] is posted to, although no check has
    run and no row or check run has been written. *)
Theorem startup_timer_notifies_without_a_check `{Platform}
    (config : Config) (network : Network) (process : Process)
    (target : NotificationTarget) (events : list MonitorStatus)
    (request : FetchRequest) :
  notifications_enabled config = true ->
  target ∈ notifications_targets config ->
  target_events target = Some events ->
  down ∈ events ->
  delivery_request config target startup_event = Some request ->
  world (step config network process StartupTimerFires) = world process
  /\ Fetch request ∈ log (step config network process StartupTimerFires).
Proof.
  intros Henabled Htarget Hevents Hdown Hrequest. split; [reflexivity |].
  cbn [step log]. apply elem_of_app. right.
  unfold notifier_startup_timer. cbn [effects]. apply elem_of_cons. right.
  apply (deliver_performed config network startup_event target); auto.
  rewrite deliver_effects.
  - apply elem_of_app. left. apply notifyTarget_posts. exact Hrequest.
  - unfold subscribed. rewrite Hevents. apply bool_decide_eq_true. exact Hdown.
Qed.

Lemma startup_timer_notifies_without_a_check_witness :
  monitor_check_runs
    (world (run_process (H := Reference.platform) Examples.config Examples.healthy_network
              Examples.started [StartupTimerFires])) = []
  /\ Fetch
       (webhook_request (H := Reference.platform) "https://example.com/hooks/uptime"
          (buildWebhookPayload startup_event) [("Authorization", "Bearer token")])
       ∈ log (run_process (H := Reference.platform) Examples.config
                Examples.healthy_network Examples.started [StartupTimerFires]).
Proof.
  destruct (startup_timer_notifies_without_a_check (H := Reference.platform)
              Examples.config Examples.healthy_network Examples.started
              Examples.webhook_target [down]
              (webhook_request (H := Reference.platform) "https://example.com/hooks/uptime"
                 (buildWebhookPayload startup_event) [("Authorization", "Bearer token")]))
    as [Hworld Hposted].
  - reflexivity.
  - apply list_elem_of_here.
  - reflexivity.
  - apply list_elem_of_here.
  - reflexivity.
  - split; [| exact Hposted]. cbn [run_process fold_left]. rewrite Hworld. reflexivity.
Defined.

(** ** The status state machine over a sequence of checks *)

Lemma longest_streak_ge (kind : bool) (streak : Z) (verdicts : list bool) :
  streak <= longest_streak kind streak verdicts.
Proof.
  revert streak. induction verdicts as [| verdict rest IH]; intros streak; cbn; [lia |].
  destruct (Bool.eqb verdict kind); [| lia].
  specialize (IH (streak + 1)). lia.
Qed.

Lemma reaches_cons (endpoint : MonitorEndpoint) (verdict : bool) (rest : list bool)
    (wanted : MonitorStatus) :
  reaches endpoint (verdict :: rest) wanted
  <-> status endpoint = Some wanted
      \/ reaches (with_computation endpoint (computeStatus endpoint verdict)) rest wanted.
Proof.
  unfold reaches. split.
  - intros [[| n] Hn]; [left; exact Hn | right; exists n; exact Hn].
  - intros [Hnow | [n Hn]]; [exists O; exact Hnow | exists (S n); exact Hn].
Qed.

(** X1.  Debouncing of failures.  An endpoint that is not [down], with
    fewer failures in a row than its threshold, is [down] at some point of
    a sequence of checks exactly when the sequence, counted from the
    failures already in a row, holds [downRetries] failed checks in a
    row. *)
Theorem goes_down_after_consecutive_failures (endpoint : MonitorEndpoint)
    (verdicts : list bool) :
  default pending (status endpoint) <> down ->
  consecutive_failures endpoint < Z.max 1 (down_retries endpoint) ->
  reaches endpoint verdicts down
  <-> Z.max 1 (down_retries endpoint)
      <= longest_streak false (consecutive_failures endpoint) verdicts.
Proof.
  revert endpoint. induction verdicts as [| verdict rest IH]; intros endpoint Hstatus Hlow.
  - cbn [longest_streak]. split; [| lia].
    intros [n Hn]. rewrite take_nil in Hn. cbn in Hn.
    rewrite Hn in Hstatus. cbn in Hstatus. congruence.
  - rewrite reaches_cons. cbn [longest_streak]. destruct verdict; cbn [Bool.eqb].
    + specialize (IH (with_computation endpoint (computeStatus endpoint true))).
      rewrite computeStatus_pass in IH |- *. cbn in IH.
      assert (Hnext : match default pending (status endpoint) with
                      | down =>
                          if Z.max 1 (up_retries endpoint)
                             <=? consecutive_successes endpoint + 1
                          then up else down
                      | _ => up
                      end <> down).
      { destruct (default pending (status endpoint)); congruence. }
      specialize (IH Hnext ltac:(lia)). cbn in *. rewrite IH.
      split; [intros [Hnow | Hlater] | intros Hlong; right; lia].
      * rewrite Hnow in Hstatus. cbn in Hstatus. congruence.
      * lia.
    + specialize (IH (with_computation endpoint (computeStatus endpoint false))).
      rewrite computeStatus_fail in IH |- *. cbn in IH |- *.
      destruct (Z.leb_spec (Z.max 1 (down_retries endpoint))
                  (consecutive_failures endpoint + 1)) as [Hreached | Hbelow].
      * pose proof (longest_streak_ge false (consecutive_failures endpoint + 1) rest).
        split; [intros _; lia |]. intros _. right. exists O. reflexivity.
      * specialize (IH Hstatus Hbelow). rewrite IH.
        split; [intros [Hnow | Hlater]; [| exact Hlater] | intros Hlong; right; exact Hlong].
        rewrite Hnow in Hstatus. cbn in Hstatus. congruence.
Qed.

Lemma goes_down_after_consecutive_failures_witness :
  reaches Examples.tcp_endpoint [false; false; true; false; false; false] down
  /\ ~ reaches Examples.tcp_endpoint [false; false; true; false; false; true] down.
Proof.
  split.
  - apply (goes_down_after_consecutive_failures Examples.tcp_endpoint);
      [cbn; congruence | cbn; lia | cbn; lia].
  - intros Hdown.
    apply (goes_down_after_consecutive_failures Examples.tcp_endpoint) in Hdown;
      [cbn in Hdown; lia | cbn; congruence | cbn; lia].
Defined.

(** X2.  Debouncing of recoveries.  An endpoint that is [down], with
    fewer passes in a row than its threshold, is [up] at some point of a
    sequence of checks exactly when the sequence, counted from the passes
    already in a row, holds [upRetries] passed checks in a row. *)
Theorem comes_up_after_consecutive_passes (endpoint : MonitorEndpoint)
    (verdicts : list bool) :
  status endpoint = Some down ->
  consecutive_successes endpoint < Z.max 1 (up_retries endpoint) ->
  reaches endpoint verdicts up
  <-> Z.max 1 (up_retries endpoint)
      <= longest_streak true (consecutive_successes endpoint) verdicts.
Proof.
  revert endpoint. induction verdicts as [| verdict rest IH]; intros endpoint Hstatus Hlow.
  - cbn [longest_streak]. split; [| lia].
    intros [n Hn]. rewrite take_nil in Hn. cbn in Hn. congruence.
  - rewrite reaches_cons. cbn [longest_streak]. destruct verdict; cbn [Bool.eqb].
    + specialize (IH (with_computation endpoint (computeStatus endpoint true))).
      rewrite computeStatus_pass in IH |- *. rewrite Hstatus in IH |- *.
      cbn in IH |- *.
      destruct (Z.leb_spec (Z.max 1 (up_retries endpoint))
                  (consecutive_successes endpoint + 1)) as [Hreached | Hbelow].
      * pose proof (longest_streak_ge true (consecutive_successes endpoint + 1) rest).
        split; [intros _; lia |]. intros _. right. exists O. reflexivity.
      * specialize (IH eq_refl Hbelow). rewrite IH.
        split; [intros [Hnow | Hlater]; [congruence | exact Hlater]
               | intros Hlong; right; exact Hlong].
    + specialize (IH (with_computation endpoint (computeStatus endpoint false))).
      rewrite computeStatus_fail in IH |- *. rewrite Hstatus in IH |- *.
      cbn in IH |- *.
      assert (Hnext : Some (if Z.max 1 (down_retries endpoint)
                               <=? consecutive_failures endpoint + 1
                            then down else down) = Some down).
      { destruct (_ <=? _); reflexivity. }
      specialize (IH Hnext ltac:(lia)). rewrite IH.
      split; [intros [Hnow | Hlater]; [congruence | lia] | intros Hlong; right; lia].
Qed.

Lemma comes_up_after_consecutive_passes_witness :
  reaches Samples.nats_down [true; false; true; true] up
  /\ ~ reaches Samples.nats_down [true; false; true; false] up.
Proof.
  split.
  - apply (comes_up_after_consecutive_passes Samples.nats_down);
      [reflexivity | cbn; lia | cbn; lia].
  - intros Hup.
    apply (comes_up_after_consecutive_passes Samples.nats_down) in Hup;
      [cbn in Hup; lia | reflexivity | cbn; lia].
Defined.

(** X3.  [pending] is the state before any verdict has counted.  After
    at least one check the status is [pending] exactly when the endpoint
    was [pending] (or had no status), every check failed, and the failures
    in a row are still under [downRetries]. *)
Theorem pending_until_a_verdict_counts (endpoint : MonitorEndpoint)
    (verdicts : list bool) :
  verdicts <> [] ->
  status (run_verdicts endpoint verdicts) = Some pending
  <-> default pending (status endpoint) = pending
      /\ Forall (fun verdict => verdict = false) verdicts
      /\ consecutive_failures endpoint + Z.of_nat (length verdicts)
         < Z.max 1 (down_retries endpoint).
Proof.
  revert endpoint. induction verdicts as [| verdict rest IH]; intros endpoint Hsome;
    [congruence |].
  clear Hsome. cbn [run_verdicts].
  destruct rest as [| verdict' rest'].
  - cbn [run_verdicts with_computation status length].
    destruct verdict.
    + rewrite computeStatus_pass. cbn [sc_status].
      split.
      * destruct (default pending (status endpoint)); [discriminate | discriminate |].
        destruct (_ <=? _); discriminate.
      * intros (_ & Hall & _). inversion Hall; subst. discriminate.
    + rewrite computeStatus_fail. cbn [sc_status].
      destruct (Z.leb_spec (Z.max 1 (down_retries endpoint))
                  (consecutive_failures endpoint + 1)) as [Hreached | Hbelow].
      * split; [discriminate |]. intros (_ & _ & Hlen). cbn in Hlen. lia.
      * split.
        -- intros [= Hpending]. repeat split; [exact Hpending | | cbn; lia].
           constructor; [reflexivity | constructor].
        -- intros (Hpending & _ & _). congruence.
  - rewrite (IH (with_computation endpoint (computeStatus endpoint verdict)))
      by discriminate.
    cbn [with_computation status consecutive_failures down_retries default].
    destruct verdict.
    + rewrite computeStatus_pass. cbn [sc_status failures].
      split.
      * intros (Hpending & _ & _).
        destruct (default pending (status endpoint)); [discriminate | discriminate |].
        destruct (_ <=? _); discriminate.
      * intros (_ & Hall & _). inversion Hall; subst. discriminate.
    + rewrite computeStatus_fail. cbn [sc_status failures].
      change (length (false :: verdict' :: rest')) with (S (length (verdict' :: rest'))).
      rewrite Nat2Z.inj_succ.
      destruct (Z.leb_spec (Z.max 1 (down_retries endpoint))
                  (consecutive_failures endpoint + 1)) as [Hreached | Hbelow].
      * split; [intros (Hdown & _ & _); discriminate |].
        intros (_ & _ & Hlen). lia.
      * split.
        -- intros (Hpending & Hall & Hlen).
           repeat split; [exact Hpending | constructor; [reflexivity | exact Hall] | lia].
        -- intros (Hpending & Hall & Hlen). inversion Hall; subst.
           repeat split; [exact Hpending | assumption | lia].
Qed.

Lemma pending_until_a_verdict_counts_witness :
  status (run_verdicts Examples.tcp_endpoint [false; false]) = Some pending.
Proof.
  apply (pending_until_a_verdict_counts Examples.tcp_endpoint [false; false]);
    [discriminate |].
  split; [reflexivity | split; [repeat constructor | cbn; lia]].
Defined.

(** ** The JSON columns and the probe command *)

Section ColumnProperties.
Context `{Platform}.

Lemma parseJson_text (text : string) :
  text <> "" ->
  parseJson (JStr text)
  = match JSON_parse text with
    | Some parsed => parsed
    | None => JNull
    end.
Proof.
  intros Htext. unfold parseJson. cbn [is_nullish strict_eq_primitive orb ToString].
  destruct (String.eqb_spec text ""); [contradiction | reflexivity].
Qed.

Lemma truthy_text (text : string) : text <> "" -> truthy (JStr text) = true.
Proof.
  intros Htext. cbn. destruct (String.eqb_spec text ""); [contradiction | reflexivity].
Qed.

End ColumnProperties.

(** X4.  A JSON column read as text and read as an object.  Whatever the
    driver hands over for [headers_json] or [connection_json], the text of
    a JSON object or the object itself, the engine reads the same: the
    connection is the object, and the headers are its entries with the
    same names in the same order, each value turned into a string. *)
Theorem json_column_as_text_or_object `{Platform}
    (text : string) (props : list (string * JsValue)) :
  text <> "" ->
  JSON_parse text = Some (JObj props) ->
  parseConnection (JStr text) = props
  /\ parseConnection (JObj props) = props
  /\ parseHeaders (JStr text) = parseHeaders (JObj props)
  /\ map fst (parseHeaders (JObj props)) = map fst props
  /\ map snd (parseHeaders (JObj props)) = map (fun entry => ToString (snd entry)) props.
Proof.
  intros Htext Hparse.
  assert (Hparsed : parseJson (JStr text) = JObj props).
  { rewrite (parseJson_text text Htext), Hparse. reflexivity. }
  unfold parseConnection, parseHeaders.
  rewrite (truthy_text text Htext), Hparsed. cbn [negb truthy].
  repeat split.
  - unfold stringify_entries. rewrite map_map. apply map_ext. intros [key value]. reflexivity.
  - unfold stringify_entries. rewrite map_map. apply map_ext. intros [key value]. reflexivity.
Qed.

Lemma json_column_as_text_or_object_witness :
  parseConnection (H := Reference.platform) (JStr object_a1_text) = [("a", num 1)]
  /\ parseHeaders (H := Reference.platform) (JStr object_a1_text) = [("a", "1")].
Proof.
  destruct (json_column_as_text_or_object (H := Reference.platform)
              object_a1_text [("a", num 1)]) as (Htext & _ & Hheaders & _);
    [discriminate | reflexivity |].
  split; [exact Htext | rewrite Hheaders; reflexivity].
Defined.

(** ** Strings *)

Lemma string_app_nil_r (s : string) : s ++ "" = s.
Proof.
  induction s as [| c s IH]; [reflexivity |].
  change (String c (s ++ "") = String c s). f_equal. exact IH.
Qed.

Lemma string_app_assoc (a b c : string) : (a ++ b) ++ c = a ++ (b ++ c).
Proof.
  induction a as [| x a IH]; [reflexivity |].
  change (String x ((a ++ b) ++ c) = String x (a ++ (b ++ c))). f_equal. exact IH.
Qed.

Lemma string_length_app (a b : string) :
  String.length (a ++ b) = (String.length a + String.length b)%nat.
Proof.
  induction a as [| x a IH]; [reflexivity |].
  change (S (String.length (a ++ b)) = S (String.length a + String.length b)).
  f_equal. exact IH.
Qed.

Lemma unspaced_app (a b : string) :
  unspaced (a ++ b) = unspaced a && unspaced b.
Proof.
  induction a as [| x a IH]; [reflexivity |].
  change (negb (is_whitespace x) && unspaced (a ++ b)
          = negb (is_whitespace x) && unspaced a && unspaced b).
  rewrite IH. apply andb_assoc.
Qed.

Lemma squeeze_trimStart (s : string) : squeeze (trimStart s) = squeeze s.
Proof.
  induction s as [| c s IH]; cbn; [reflexivity |].
  destruct (is_whitespace c) eqn:Hc; [exact IH |]. cbn. rewrite Hc. reflexivity.
Qed.

Lemma squeeze_trimEnd (s : string) : squeeze (trimEnd s) = squeeze s.
Proof.
  induction s as [| c s IH]; cbn; [reflexivity |].
  destruct (trimEnd s) as [| d kept] eqn:Hkept.
  - cbn in IH. destruct (is_whitespace c) eqn:Hc; cbn; rewrite ?Hc; rewrite <- IH; reflexivity.
  - cbn [squeeze]. cbn [squeeze] in IH. rewrite <- IH. reflexivity.
Qed.

(** Trimming takes out white space only. *)
Lemma squeeze_trim (s : string) : squeeze (trim s) = squeeze s.
Proof. unfold trim. rewrite squeeze_trimEnd. apply squeeze_trimStart. Qed.

Lemma trimStart_head (s : string) (c : ascii) (rest : string) :
  trimStart s = String c rest -> is_whitespace c = false.
Proof.
  induction s as [| d s IH]; cbn; [discriminate |].
  destruct (is_whitespace d) eqn:Hd; [exact IH |]. intros [= <- _]. exact Hd.
Qed.

Lemma trimEnd_head (s : string) (c : ascii) (rest : string) :
  is_whitespace c = false -> exists kept, trimEnd (String c rest) = String c kept.
Proof.
  intros Hc. cbn. destruct (trimEnd rest); [rewrite Hc |]; eexists; reflexivity.
Qed.

(** A text that trims to something holds a character that is not white
    space. *)
Lemma squeeze_of_unblank (s : string) : trim s <> "" -> squeeze s <> "".
Proof.
  intros Htrim. rewrite <- squeeze_trim. unfold trim in *.
  destruct (trimStart s) as [| c rest] eqn:Hstart; [cbn in Htrim; congruence |].
  pose proof (trimStart_head s c rest Hstart) as Hc.
  destruct (trimEnd_head (String c rest) c rest Hc) as [kept ->].
  cbn. rewrite Hc. discriminate.
Qed.

Lemma concat_cons (word : string) (words : list string) :
  String.concat "" (word :: words) = word ++ String.concat "" words.
Proof.
  destruct words as [| next more].
  - symmetry. apply string_app_nil_r.
  - reflexivity.
Qed.

(** The words [split_words] returns: none is empty, none holds white
    space, and together they are the text without its white space. *)
Lemma split_words_spec (current s : string) :
  unspaced current = true ->
  Forall (fun word => word <> "" /\ unspaced word = true) (split_words current s)
  /\ String.concat "" (split_words current s) = current ++ squeeze s.
Proof.
  revert current. induction s as [| c s IH]; intros current Hcurrent; cbn [split_words squeeze].
  - rewrite string_app_nil_r.
    destruct (String.eqb_spec current ""); [subst; split; [constructor | reflexivity] |].
    split; [repeat constructor; assumption | reflexivity].
  - destruct (is_whitespace c) eqn:Hc.
    + destruct (IH "" eq_refl) as [Hwords Hconcat].
      change ("" ++ squeeze s) with (squeeze s) in Hconcat.
      destruct (String.eqb_spec current ""); [subst; split; assumption |].
      split; [constructor; [split |]; assumption |].
      rewrite concat_cons, Hconcat. reflexivity.
    + assert (Hnext : unspaced (current ++ String c "") = true).
      { rewrite unspaced_app, Hcurrent. cbn. rewrite Hc. reflexivity. }
      destruct (IH _ Hnext) as [Hwords Hconcat]. split; [exact Hwords |].
      rewrite Hconcat, string_app_assoc. reflexivity.
Qed.

(** X5.  The Redis command.  [parseRedisCommand] never returns an empty
    command.  When the probe command is not blank and is not the JSON text
    of a non-empty array, its words are returned: none is empty, none
    holds white space, and together they are the command without its white
    space. *)
Theorem parseRedisCommand_words `{Platform} (probeCommand : option string) :
  parseRedisCommand probeCommand <> []
  /\ (forall text,
        probeCommand = Some text ->
        trim text <> "" ->
        (forall part parts, parseJson (JStr text) <> JArr (part :: parts)) ->
        Forall (fun word => word <> "" /\ unspaced word = true)
          (parseRedisCommand probeCommand)
        /\ String.concat "" (parseRedisCommand probeCommand) = squeeze text).
Proof.
  assert (Hwords : forall text,
             trim text <> "" ->
             (forall part parts, parseJson (JStr text) <> JArr (part :: parts)) ->
             parseRedisCommand (Some text) = split_words "" (trim text)).
  { intros text Htrim Hjson. unfold parseRedisCommand.
    destruct (String.eqb_spec text ""); [subst; cbn in Htrim; congruence |].
    destruct (String.eqb_spec (trim text) ""); [contradiction |]. cbn [orb].
    destruct (parseJson (JStr text)) as [| | | | | [| part parts] |] eqn:Hparsed;
      try reflexivity.
    exfalso. exact (Hjson part parts eq_refl). }
  split.
  - destruct probeCommand as [text |]; [| discriminate].
    unfold parseRedisCommand.
    destruct (String.eqb text "" || String.eqb (trim text) "") eqn:Hblank; [discriminate |].
    apply orb_false_iff in Hblank as [_ Htrim]. apply String.eqb_neq in Htrim.
    destruct (parseJson (JStr text)) as [| | | | | [| part parts] |] eqn:Hparsed;
      try discriminate;
      destruct (split_words_spec "" (trim text) eq_refl) as [_ Hconcat];
      intros Hempty; rewrite Hempty in Hconcat; cbn in Hconcat;
      rewrite squeeze_trim in Hconcat;
      exact (squeeze_of_unblank text Htrim (eq_sym Hconcat)).
  - intros text -> Htrim Hjson. rewrite (Hwords text Htrim Hjson).
    destruct (split_words_spec "" (trim text) eq_refl) as [Hall Hconcat].
    split; [exact Hall |]. rewrite Hconcat. cbn. apply squeeze_trim.
Qed.

(** ** Paths into a JSON document *)

Lemma span_app (p : ascii -> bool) (taken more : string) :
  (forall c rest, more = String c rest -> p c = false) ->
  (fix all (s : string) : bool :=
     match s with
     | EmptyString => true
     | String c rest => p c && all rest
     end) taken = true ->
  span p (taken ++ more) = (taken, more).
Proof.
  intros Hstop. induction taken as [| c taken IH]; intros Hall.
  - change ("" ++ more) with more. destruct more as [| c rest]; [reflexivity |].
    cbn. rewrite (Hstop c rest eq_refl). reflexivity.
  - apply andb_true_iff in Hall as [Hc Hrest].
    change (String c taken ++ more) with (String c (taken ++ more)).
    cbn [span]. rewrite Hc, (IH Hrest). reflexivity.
Qed.

Lemma span_undelimited (key more : string) :
  undelimited key = true ->
  (forall c rest, more = String c rest -> is_path_delimiter c = true) ->
  span (fun x => negb (is_path_delimiter x)) (key ++ more) = (key, more).
Proof.
  intros Hkey Hmore. apply span_app.
  - intros c rest Heq. rewrite (Hmore c rest Heq). reflexivity.
  - clear Hmore. induction key as [| c key IH]; [reflexivity |].
    cbn in Hkey |- *. apply andb_true_iff in Hkey as [Hc Hrest].
    rewrite Hc. exact (IH Hrest).
Qed.

Lemma digits_value_pos (d : Decimal.uint) (acc : positive) :
  digits_value (Npos acc) (NilEmpty.string_of_uint d) = Npos (Pos.of_uint_acc d acc).
Proof.
  revert acc. induction d as [| d IH | d IH | d IH | d IH | d IH | d IH | d IH | d IH | d IH | d IH];
    intros acc; [reflexivity |..]; cbn [NilEmpty.string_of_uint digits_value Pos.of_uint_acc];
    match goal with
    | |- digits_value ?n _ = N.pos (Pos.of_uint_acc _ ?m) =>
        replace n with (Npos m); [apply IH |]
    end;
    match goal with
    | |- context [N.of_nat ?k] =>
        let v := eval vm_compute in (N.of_nat k) in change (N.of_nat k) with v
    end; lia.
Qed.

Lemma digits_value_uint (d : Decimal.uint) :
  digits_value 0 (NilEmpty.string_of_uint d) = Pos.of_uint d.
Proof.
  induction d as [| d IH | d IH | d IH | d IH | d IH | d IH | d IH | d IH | d IH | d IH];
    [reflexivity | exact IH |..];
    cbn [NilEmpty.string_of_uint digits_value Pos.of_uint];
    match goal with
    | |- digits_value ?n _ = N.pos (Pos.of_uint_acc _ ?m) =>
        replace n with (Npos m); [apply digits_value_pos |]
    end;
    match goal with
    | |- context [N.of_nat ?k] =>
        let v := eval vm_compute in (N.of_nat k) in change (N.of_nat k) with v
    end; lia.
Qed.

Lemma all_digits_uint (d : Decimal.uint) : all_digits (NilEmpty.string_of_uint d) = true.
Proof. induction d; cbn; auto. Qed.

Lemma to_uint_not_nil (n : N) : N.to_uint n <> Decimal.Nil.
Proof.
  intros Hnil. pose proof (DecimalN.Unsigned.of_to n) as Hback.
  rewrite Hnil in Hback. cbn in Hback. subst n. discriminate.
Qed.

(** The decimal spelling of an index: digits, at least one, and they
    read back as the index. *)
Lemma index_to_string_spec (index : N) :
  exists d ds,
    index_to_string index = String d ds
    /\ all_digits (String d ds) = true
    /\ digits_value 0 (String d ds) = index.
Proof.
  unfold index_to_string, NilZero.string_of_uint.
  pose proof (to_uint_not_nil index) as Hnil.
  pose proof (all_digits_uint (N.to_uint index)) as Hdigits.
  pose proof (digits_value_uint (N.to_uint index)) as Hvalue.
  change (Pos.of_uint (N.to_uint index)) with (N.of_uint (N.to_uint index)) in Hvalue.
  rewrite DecimalN.Unsigned.of_to in Hvalue.
  destruct (N.to_uint index); [congruence |..];
    cbn [NilEmpty.string_of_uint] in *; eexists _, _; repeat split; eassumption.
Qed.

Lemma rendered_head (tokens : list PathToken) (c : ascii) (rest : string) :
  String.concat "" (map render_token tokens) = String c rest ->
  is_path_delimiter c = true.
Proof.
  destruct tokens as [| [key | index] more]; [discriminate |..];
    rewrite map_cons, concat_cons; intros [= <- _]; reflexivity.
Qed.

(** A name at the head of a path is one token. *)
Lemma path_tokens_name (fuel : nat) (key more : string) :
  key <> "" -> undelimited key = true ->
  (forall c rest, more = String c rest -> is_path_delimiter c = true) ->
  path_tokens (S fuel) (key ++ more) = TName key :: path_tokens fuel more.
Proof.
  intros Hkey Hplain Hmore. destruct key as [| c key]; [congruence |].
  pose proof (span_undelimited (String c key) more Hplain Hmore) as Hspan.
  change (String c key ++ more) with (String c (key ++ more)) in Hspan |- *.
  cbn [path_tokens]. cbn [undelimited] in Hplain.
  apply andb_true_iff in Hplain as [Hc _]. rewrite Hc, Hspan. reflexivity.
Qed.

(** A bracketed index at the head of a path is one token. *)
Lemma path_tokens_index (fuel : nat) (index : N) (more : string) :
  path_tokens (S fuel) ("[" ++ index_to_string index ++ "]" ++ more)
  = TIndex index :: path_tokens fuel more.
Proof.
  destruct (index_to_string_spec index) as (d & ds & -> & Hdigits & Hvalue).
  change ("[" ++ String d ds ++ "]" ++ more)
    with (String "[" (String d ds ++ String "]" more)).
  cbn [path_tokens].
  change (negb (is_path_delimiter "[")) with false.
  change (nat_of_ascii "[" =? 91)%nat with true. cbn iota.
  rewrite (span_app is_digit (String d ds) (String "]" more)).
  - change (nat_of_ascii "]" =? 93)%nat with true. cbn iota. rewrite Hvalue. reflexivity.
  - intros c rest [= <- _]. reflexivity.
  - exact Hdigits.
Qed.

Lemma path_tokens_rendered (tokens : list PathToken) (fuel : nat) :
  Forall spellable tokens ->
  (String.length (String.concat "" (map render_token tokens)) < fuel)%nat ->
  path_tokens fuel (String.concat "" (map render_token tokens)) = tokens.
Proof.
  revert fuel. induction tokens as [| token more IH]; intros fuel Hall Hfuel.
  - destruct fuel; reflexivity.
  - rewrite map_cons, concat_cons in Hfuel |- *.
    inversion Hall as [| ? ? Htoken Hmore]; subst.
    destruct fuel as [| fuel]; [lia |].
    destruct token as [key | index].
    + destruct Htoken as [Hkey Hplain].
      change (render_token (TName key) ++ String.concat "" (map render_token more))
        with (String "." (key ++ String.concat "" (map render_token more))) in Hfuel |- *.
      cbn [String.length] in Hfuel. rewrite string_length_app in Hfuel.
      cbn [path_tokens].
      change (negb (is_path_delimiter ".")) with false.
      change (nat_of_ascii "." =? 91)%nat with false. cbn iota.
      destruct fuel as [| fuel]; [destruct key; [congruence | cbn in Hfuel; lia] |].
      rewrite (path_tokens_name fuel key _ Hkey Hplain (rendered_head more)).
      f_equal. apply IH; [exact Hmore |].
      destruct key; [congruence | cbn [String.length] in Hfuel; lia].
    + change (render_token (TIndex index) ++ String.concat "" (map render_token more))
        with (("[" ++ index_to_string index ++ "]")
              ++ String.concat "" (map render_token more)) in Hfuel |- *.
      assert (Hshape : ("[" ++ index_to_string index ++ "]")
                       ++ String.concat "" (map render_token more)
                       = "[" ++ index_to_string index ++ "]"
                         ++ String.concat "" (map render_token more)).
      { rewrite !string_app_assoc. reflexivity. }
      rewrite Hshape in Hfuel |- *. rewrite path_tokens_index. f_equal.
      apply IH; [exact Hmore |].
      rewrite !string_length_app in Hfuel. cbn [String.length] in Hfuel. lia.
Qed.

Lemma descend_undefined (tokens : list PathToken) :
  fold_left descend tokens JUndefined = JUndefined.
Proof. induction tokens as [| token more IH]; [reflexivity | exact IH]. Qed.

(** X6.  A path is read as it is written.  For tokens that a path can
    spell (names that are not empty and hold no [.], [[] or []], and
    indexes), the path written [a.b[0].c] is split into exactly these
    tokens, and [resolveJsonPath] descends by them from the document, one
    member at a time; it answers [undefined] for a document that is not an
    object or array. *)
Theorem resolveJsonPath_follows_tokens (data : JsValue) (tokens : list PathToken) :
  tokens <> [] ->
  Forall spellable tokens ->
  path_tokens (S (String.length (render_path tokens))) (render_path tokens) = tokens
  /\ resolveJsonPath data (Some (render_path tokens)) = fold_left descend tokens data
  /\ (is_object data = false ->
      resolveJsonPath data (Some (render_path tokens)) = JUndefined).
Proof.
  intros Hsome Hall.
  assert (Htokens : path_tokens (S (String.length (render_path tokens)))
                      (render_path tokens) = tokens).
  { destruct tokens as [| [key | index] more]; [congruence |..].
    - inversion Hall as [| ? ? Htoken Hmore]; subst. destruct Htoken as [Hkey Hplain].
      cbn [render_path].
      rewrite (path_tokens_name _ key _ Hkey Hplain (rendered_head more)).
      f_equal. apply path_tokens_rendered; [exact Hmore |].
      rewrite string_length_app. destruct key; [congruence | cbn [String.length]; lia].
    - cbn [render_path]. apply path_tokens_rendered; [exact Hall | lia]. }
  assert (Hresolve : resolveJsonPath data (Some (render_path tokens))
                     = fold_left descend tokens data).
  { unfold resolveJsonPath.
    destruct (render_path tokens) as [| c rest] eqn:Hpath.
    - destruct tokens as [| [key | index] more]; [congruence |..].
      + inversion Hall as [| ? ? Htoken _]; subst. destruct Htoken as [Hkey _].
        cbn [render_path] in Hpath.
        destruct key; [congruence | discriminate].
      + cbn [render_path] in Hpath. rewrite map_cons, concat_cons in Hpath. discriminate.
    - rewrite Htokens. reflexivity. }
  split; [exact Htokens |]. split; [exact Hresolve |].
  intros Hdata. rewrite Hresolve.
  destruct tokens as [| token more]; [congruence |]. cbn [fold_left].
  replace (descend data token) with JUndefined; [apply descend_undefined |].
  unfold descend. rewrite Hdata. destruct (is_nullish data); reflexivity.
Qed.

Lemma resolveJsonPath_follows_tokens_witness :
  resolveJsonPath Samples.document (Some "items[1].name") = JStr "b"
  /\ resolveJsonPath (JStr "text") (Some "items[1].name") = JUndefined.
Proof.
  destruct (resolveJsonPath_follows_tokens Samples.document
              [TName "items"; TIndex 1; TName "name"]) as (_ & Hresolve & _);
    [discriminate | repeat constructor; discriminate |].
  destruct (resolveJsonPath_follows_tokens (JStr "text")
              [TName "items"; TIndex 1; TName "name"]) as (_ & _ & Hprimitive);
    [discriminate | repeat constructor; discriminate |].
  split; [exact Hresolve | exact (Hprimitive eq_refl)].
Defined.

(** ** What the editor accepts and what the engine reads *)

(** X7.  What is saved is what the engine reads.  For a payload the
    create route accepts, the JSON column of the row it writes
    ([headers_json] for an HTTP monitor, [connection_json] for the others)
    holds the [JSON.stringify] text of the object [parseJsonObjectInput]
    returned.  The engine reads from that column what [JSON.parse] makes
    of the text: when the text parses to an object, [parseConnection]
    returns that object and [parseHeaders] its entries as strings.  So an
    accepted object that survives being written and parsed again is read
    back as it was accepted. *)
Theorem saved_json_is_read_back `{Platform} `{WebPlatform}
    (payload : list (string * JsValue)) (saved : EndpointPayload)
    (id : Z) (groupName : option string) :
  normalizeEndpointPayload payload = Fulfilled saved ->
  let endpoint := inserted_endpoint id groupName saved in
  match saved_monitor_type saved with
  | http =>
      exists headers,
        parseJsonObjectInput (get_property payload "headers_json") "Headers"
        = Fulfilled headers
        /\ headers_json endpoint = JStr (JSON_stringify (JObj headers))
        /\ (forall read,
               JSON_stringify (JObj headers) <> "" ->
               JSON_parse (JSON_stringify (JObj headers)) = Some (JObj read) ->
               parseHeaders (headers_json endpoint) = stringify_entries read)
  | _ =>
      exists connection,
        parseJsonObjectInput (get_property payload "connection_json") "connection_json"
        = Fulfilled connection
        /\ connection_json endpoint = JStr (JSON_stringify (JObj connection))
        /\ (forall read,
               JSON_stringify (JObj connection) <> "" ->
               JSON_parse (JSON_stringify (JObj connection)) = Some (JObj read) ->
               parseConnection (connection_json endpoint) = read)
  end.
Proof.
  unfold normalizeEndpointPayload. intros Hsaved. cbv zeta.
  assert (Hbind : forall A B (first : Settled A) (rest : A -> Settled B) b,
             (first ≫= rest) = Fulfilled b ->
             exists a, first = Fulfilled a /\ rest a = Fulfilled b).
  { intros A B [a | error] rest b; cbn; [eauto | discriminate]. }
  apply Hbind in Hsaved as (u & _ & Hsaved).
  apply Hbind in Hsaved as (monitorType & _ & Hsaved).
  apply Hbind in Hsaved as (interval & _ & Hsaved).
  apply Hbind in Hsaved as (downCount & _ & Hsaved).
  apply Hbind in Hsaved as (upCount & _ & Hsaved).
  apply Hbind in Hsaved as (group & _ & Hsaved).
  apply Hbind in Hsaved as (specific & Hspecific & Hsaved).
  injection Hsaved as <-. cbn [saved_monitor_type monitorSpecific inserted_endpoint
                                 headers_json connection_json].
  assert (Hconnection :
            forall kind,
              normalizeConnectionMonitorPayload payload kind = Fulfilled specific ->
              exists connection,
                parseJsonObjectInput (get_property payload "connection_json")
                  "connection_json"
                = Fulfilled connection
                /\ match saved_connection_json specific with
                   | Some text => JStr text
                   | None => JNull
                   end = JStr (JSON_stringify (JObj connection))
                /\ (forall read,
                       JSON_stringify (JObj connection) <> "" ->
                       JSON_parse (JSON_stringify (JObj connection)) = Some (JObj read) ->
                       parseConnection
                         match saved_connection_json specific with
                         | Some text => JStr text
                         | None => JNull
                         end = read)).
  { intros kind Hkind. unfold normalizeConnectionMonitorPayload in Hkind.
    apply Hbind in Hkind as (connection & Haccepted & Hkind).
    apply Hbind in Hkind as (u' & _ & Hkind). injection Hkind as <-.
    cbn [saved_connection_json]. exists connection.
    split; [exact Haccepted |]. split; [reflexivity |].
    intros read Htext Hparse. unfold parseConnection.
    rewrite (truthy_text _ Htext), (parseJson_text _ Htext), Hparse. reflexivity. }
  destruct monitorType; try exact (Hconnection _ Hspecific).
  unfold normalizeHttpPayload in Hspecific.
  apply Hbind in Hspecific as (headers & Haccepted & Hspecific).
  apply Hbind in Hspecific as (u1 & _ & Hspecific).
  apply Hbind in Hspecific as (u2 & _ & Hspecific).
  apply Hbind in Hspecific as (u3 & _ & Hspecific).
  apply Hbind in Hspecific as (expected & _ & Hspecific).
  apply Hbind in Hspecific as (u4 & _ & Hspecific).
  injection Hspecific as <-. cbn [saved_headers_json]. exists headers.
  split; [exact Haccepted |]. split; [reflexivity |].
  intros read Htext Hparse. unfold parseHeaders.
  rewrite (truthy_text _ Htext), (parseJson_text _ Htext), Hparse. reflexivity.
Qed.

Lemma saved_json_is_read_back_witness :
  exists saved,
    normalizeEndpointPayload (H := Reference.platform) (H0 := Samples.web_platform)
      Samples.tcp_payload
    = Fulfilled saved
    /\ parseConnection (H := Reference.platform)
         (connection_json (inserted_endpoint 7 (Some "Core") saved))
       = [("host", JStr "10.0.0.5"); ("port", num 443)].
Proof.
  destruct (normalizeEndpointPayload (H := Reference.platform) (H0 := Samples.web_platform)
              Samples.tcp_payload) as [saved | error] eqn:Hsaved;
    [| vm_compute in Hsaved; discriminate].
  exists saved. split; [reflexivity |].
  pose proof (saved_json_is_read_back (H := Reference.platform)
                (H0 := Samples.web_platform) Samples.tcp_payload saved 7 (Some "Core")
                Hsaved) as Hread.
  cbv zeta in Hread.
  assert (Hkind : saved_monitor_type saved = tcp)
    by (vm_compute in Hsaved; injection Hsaved as <-; reflexivity).
  rewrite Hkind in Hread. destruct Hread as (connection & Haccepted & _ & Hread).
  vm_compute in Haccepted. injection Haccepted as <-.
  apply Hread; vm_compute; [discriminate | reflexivity].
Defined.

(** ** The probes, case by case *)

(** X8.  The TCP probe, in full.  It always returns a result, never
    later than its timer.  A check that passed had a valid port and a
    socket that connected before the timer, and carries code 200, the
    matched value [open] and no error; a check that failed carries code
    500 and an error message.  With no expected value configured (and a
    [JSON.parse] that reads ["open"] as it should), a socket that connects
    in time on a valid port makes the check pass. *)
Theorem runTcpCheck_outcome `{Platform}
    (config : Config) (network : Network) (endpoint : MonitorEndpoint) :
  let socket := net_createConnection network (tcp_host endpoint) (tcp_port endpoint) in
  let limit := timer_delay (tcp_timeout config endpoint) in
  exists ms result,
    promise (runTcpCheck config network endpoint) = SettlesAfter ms (Fulfilled result)
    /\ (ms <= limit)%N
    /\ (checkPassed result = true ->
        tcp_port_invalid endpoint = false
        /\ (exists ms', socket = SettlesAfter ms' (Fulfilled tt) /\ (ms' < limit)%N)
        /\ responseCode result = Some 200
        /\ matchedValue result = Some "open"
        /\ errorMessage result = None)
    /\ (checkPassed result = false ->
        responseCode result = Some 500 /\ errorMessage result <> None)
    /\ (expected_probe_value endpoint = None ->
        JSON_parse (dquote ++ "open" ++ dquote) = Some (JStr "open") ->
        tcp_port_invalid endpoint = false ->
        (exists ms', socket = SettlesAfter ms' (Fulfilled tt) /\ (ms' < limit)%N) ->
        checkPassed result = true).
Proof.
  cbv zeta. unfold runTcpCheck. cbv zeta.
  fold (tcp_host endpoint). fold (tcp_timeout config endpoint).
  destruct (tcp_port_invalid endpoint) eqn:Hport.
  - exists 0%N. eexists. split; [reflexivity |]. cbn [checkPassed responseCode errorMessage].
    split; [lia |]. split; [discriminate |]. split; [split; [reflexivity | discriminate] |].
    discriminate.
  - pose proof (validate_error_iff (JStr "open")
                  (expected_or endpoint (Some (dquote ++ "open" ++ dquote)))) as Hmessage.
    destruct (net_createConnection network (tcp_host endpoint) (tcp_port endpoint))
      as [ms' [[] | error] |] eqn:Hsocket; unfold withTimeout;
      [destruct (N.ltb_spec ms' (timer_delay (tcp_timeout config endpoint)))
         as [Hearly | Hlate]
      | destruct (N.ltb_spec ms' (timer_delay (tcp_timeout config endpoint)))
         as [Hearly | Hlate]
      |].
    + exists (ms' + 0)%N. eexists. split; [reflexivity |].
      cbn [check_of_validation checkPassed responseCode matchedValue errorMessage].
      rewrite validate_matchedValue, Hmessage.
      split; [lia |]. split; [| split].
      * intros ->. repeat split. exists ms'. split; [reflexivity | exact Hearly].
      * intros ->. split; [reflexivity | discriminate].
      * intros Hexpected Hparse _ _. unfold expected_or. rewrite Hexpected.
        rewrite validate_checked by (vm_compute; discriminate). cbn [ok].
        rewrite parseExpectedValue_text by (vm_compute; discriminate).
        change (trim (dquote ++ "open" ++ dquote)) with (dquote ++ "open" ++ dquote).
        rewrite Hparse. reflexivity.
    + exists (timer_delay (tcp_timeout config endpoint) + 0)%N. eexists.
      split; [reflexivity |]. cbn [failed_check checkPassed responseCode errorMessage].
      split; [lia |]. split; [discriminate |]. split; [split; [reflexivity | discriminate] |].
      intros _ _ _ (ms'' & [= <-] & Hearly). lia.
    + exists (ms' + 0)%N. eexists. split; [reflexivity |].
      cbn [failed_check checkPassed responseCode errorMessage].
      split; [lia |]. split; [discriminate |]. split; [split; [reflexivity | discriminate] |].
      intros _ _ _ (ms'' & Hother & _). discriminate.
    + exists (timer_delay (tcp_timeout config endpoint) + 0)%N. eexists.
      split; [reflexivity |]. cbn [failed_check checkPassed responseCode errorMessage].
      split; [lia |]. split; [discriminate |]. split; [split; [reflexivity | discriminate] |].
      intros _ _ _ (ms'' & Hother & _). discriminate.
    + exists (timer_delay (tcp_timeout config endpoint) + 0)%N. eexists.
      split; [reflexivity |]. cbn [failed_check checkPassed responseCode errorMessage].
      split; [lia |]. split; [discriminate |]. split; [split; [reflexivity | discriminate] |].
      intros _ _ _ (ms'' & Hother & _). discriminate.
Qed.

Lemma runTcpCheck_outcome_witness :
  exists ms result,
    promise (runTcpCheck (H := Reference.platform) Examples.config Examples.healthy_network
               Examples.tcp_endpoint)
    = SettlesAfter ms (Fulfilled result)
    /\ checkPassed result = true.
Proof.
  destruct (runTcpCheck_outcome (H := Reference.platform) Examples.config
              Examples.healthy_network Examples.tcp_endpoint)
    as (ms & result & Hpromise & _ & _ & _ & Hpass).
  exists ms, result. split; [exact Hpromise |].
  apply Hpass; [reflexivity | reflexivity | reflexivity |].
  exists 12%N. split; [reflexivity | vm_compute; reflexivity].
Defined.

(** X9.  The MySQL probe releases its connection.  Once the connection
    is made and the statement has been answered, with rows or with an
    error, the probe has done exactly three things: connect, query, end.
    Its result is the one the answer decides, whether [end] succeeds or
    fails; it is returned once [end] has settled, and never if [end] never
    settles. *)
Theorem runMysqlCheck_closes_connection `{Platform}
    (config : Config) (network : Network) (endpoint : MonitorEndpoint)
    (conn : MysqlConnection) (ms ms' : N) (answer : Settled JsValue) :
  let query := trimmed_or (probe_command endpoint) "SELECT 1 AS health" in
  let result :=
    match answer with
    | Fulfilled rows =>
        check_of_validation
          (validateExpectedProbeValue (first_column rows) (expected_probe_value endpoint))
    | Rejected error => failed_check error "MySQL check failed"
    end in
  mysql_createConnection network (mysql_options config endpoint)
  = SettlesAfter ms (Fulfilled conn) ->
  conn_query conn query = SettlesAfter ms' answer ->
  effects (runMysqlCheck config network endpoint)
  = [MysqlCreateConnection (mysql_options config endpoint); MysqlQuery query; MysqlEnd]
  /\ promise (runMysqlCheck config network endpoint)
     = match conn_end conn with
       | SettlesAfter ms'' _ => SettlesAfter (ms + ms' + ms'') (Fulfilled result)
       | NeverSettles => NeverSettles
       end.
Proof.
  cbv zeta. intros Hconnect Hquery.
  unfold runMysqlCheck. cbv zeta. rewrite Hconnect.
  unfold mbind, TaskMonad.Task_bind, TaskMonad.bind at 1, TaskMonad.perform at 1.
  cbn [promise effects]. unfold TaskMonad.bind, TaskMonad.perform. cbn [promise effects].
  rewrite Hquery.
  destruct answer as [rows | error];
    unfold TaskMonad.try_catch, TaskMonad.try_finally, TaskMonad.promise_catch;
    cbn [promise effects later TaskMonad.ret app];
    (split; [reflexivity |]);
    destruct (conn_end conn) as [ms'' [[] | error'] |]; try reflexivity;
    f_equal; lia.
Qed.

Lemma runMysqlCheck_closes_connection_witness :
  effects (runMysqlCheck (H := Reference.platform) Examples.config Examples.healthy_network
             Examples.mysql_endpoint)
  = [MysqlCreateConnection
       (mysql_options (H := Reference.platform) Examples.config Examples.mysql_endpoint);
     MysqlQuery "SELECT 1 AS health";
     MysqlEnd]
  /\ exists result,
       promise (runMysqlCheck (H := Reference.platform) Examples.config
                  Examples.healthy_network Examples.mysql_endpoint)
       = SettlesAfter 9 (Fulfilled result)
       /\ checkPassed result = true.
Proof.
  destruct (runMysqlCheck_closes_connection (H := Reference.platform) Examples.config
              Examples.healthy_network Examples.mysql_endpoint Examples.healthy_mysql 5 3
              (Fulfilled (JArr [JObj [("health", num 1)]])) eq_refl eq_refl)
    as [Heffects Hpromise].
  split; [exact Heffects |]. eexists. split; [exact Hpromise | reflexivity].
Defined.

(** X10.  The Redis probe and its client.  Once the client is
    constructed the probe connects, sends the command if the connection
    came up in time, and then, if the client is open, quits it, destroying
    it when [quit] fails.  The probe does not reject, and it returns
    exactly when [quit], if called, settles: the two waits before it are
    under a timer. *)
Theorem runRedisCheck_cleans_up `{Platform}
    (config : Config) (network : Network) (endpoint : MonitorEndpoint)
    (client : RedisClient) :
  let connecting :=
    withTimeout (client_connect client) (requestTimeoutMs config) "Redis connect" in
  let probe := runRedisCheck config network endpoint in
  createClient network (redis_options config endpoint) = Fulfilled client ->
  effects probe
  = ([RedisCreateClient (redis_options config endpoint); RedisConnect]
     ++ (if is_fulfilled connecting
         then [RedisSendCommand (parseRedisCommand (probe_command endpoint))] else [])
     ++ (if client_isOpen client
         then RedisQuit :: (if is_rejected (client_quit client) then [RedisDestroy] else [])
         else []))%list
  /\ is_rejected (promise probe) = false
  /\ (settles (promise probe) = true
      <-> (client_isOpen client = true -> settles (client_quit client) = true)).
Proof.
  cbv zeta. intros Hclient. unfold runRedisCheck. cbv zeta. rewrite Hclient.
  destruct (withTimeout_bounded (client_connect client) (requestTimeoutMs config)
              "Redis connect") as (ms & connected & -> & _).
  destruct (withTimeout_bounded
              (client_sendCommand client (parseRedisCommand (probe_command endpoint)))
              (requestTimeoutMs config) "Redis command") as (ms' & answered & Hsend & _).
  unfold mbind, TaskMonad.Task_bind, TaskMonad.bind, TaskMonad.perform, TaskMonad.emit,
    TaskMonad.try_catch, TaskMonad.try_finally.
  cbn [promise effects is_fulfilled].
  destruct connected as [[] | error]; cbn [promise effects later]; rewrite ?Hsend;
    [destruct answered as [rawResult | error] |];
    cbn [promise effects later TaskMonad.ret app];
    destruct (client_isOpen client); cbn [promise effects later TaskMonad.ret app];
    try (destruct (client_quit client) as [ms'' [[] | error'] |]);
    cbn [promise effects later TaskMonad.ret app is_rejected settles];
    (split; [reflexivity |]); (split; [reflexivity |]);
    split; intros; try reflexivity; try discriminate; auto.
Qed.

Lemma runRedisCheck_cleans_up_witness :
  effects (runRedisCheck (H := Reference.platform) Examples.config Examples.healthy_network
             Examples.redis_endpoint)
  = [RedisCreateClient (RedisUrl "10.0.0.8:6379"); RedisConnect; RedisSendCommand ["PING"];
     RedisQuit]
  /\ is_rejected
       (promise (runRedisCheck (H := Reference.platform) Examples.config
                   Examples.healthy_network Examples.redis_endpoint)) = false.
Proof.
  destruct (runRedisCheck_cleans_up (H := Reference.platform) Examples.config
              Examples.healthy_network Examples.redis_endpoint Examples.healthy_redis eq_refl)
    as (Heffects & Hrejected & _).
  split; [rewrite Heffects; reflexivity | exact Hrejected].
Defined.

(** X11.  The verdict of the HTTP probe.  The probe sends one request
    and does not reject.  A check that passed had a response with the
    expected status, and carries that status and no error message; a check
    that failed carries an error message.  When no JSON expectation is
    configured the body is not looked at: the check passes exactly when
    the status is the expected one, and otherwise says which status was
    expected and which one came. *)
Theorem runHttpCheck_verdict `{Platform} (network : Network) (endpoint : MonitorEndpoint) :
  let request := http_request endpoint in
  let probe := runHttpCheck network endpoint in
  effects probe = [Fetch request]
  /\ is_rejected (promise probe) = false
  /\ (forall elapsed result,
        promise probe = SettlesAfter elapsed (Fulfilled result) ->
        (checkPassed result = true ->
         exists ms response,
           fetch network request = SettlesAfter ms (Fulfilled response)
           /\ resp_status response = expected_status endpoint
           /\ responseCode result = Some (expected_status endpoint)
           /\ errorMessage result = None)
        /\ (checkPassed result = false -> errorMessage result <> None))
  /\ (forall ms response,
        fetch network request = SettlesAfter ms (Fulfilled response) ->
        nonempty (expected_json_path endpoint) = None
        \/ expected_json_value endpoint = None ->
        exists elapsed,
          promise probe
          = SettlesAfter elapsed
              (Fulfilled
                 {| checkPassed := resp_status response =? expected_status endpoint;
                    responseCode := Some (resp_status response);
                    matchedValue := None;
                    errorMessage :=
                      if resp_status response =? expected_status endpoint then None
                      else Some ("Expected HTTP " ++ Z_to_string (expected_status endpoint)
                                 ++ ", got " ++ Z_to_string (resp_status response)) |})).
Proof.
  cbv zeta. unfold runHttpCheck. cbv zeta.
  unfold mbind, TaskMonad.Task_bind, TaskMonad.bind at 1, TaskMonad.try_catch at 1,
    TaskMonad.perform.
  cbn [promise effects].
  destruct (fetch network (http_request endpoint)) as [ms [response | error] |] eqn:Hfetch;
    cbn [promise effects later TaskMonad.ret app].
  2: { split; [reflexivity |]. split; [reflexivity |]. split.
       - intros elapsed result [= _ <-]. split; discriminate.
       - intros ms' response [= _ Hother]. }
  2: { split; [reflexivity |]. split; [reflexivity |]. split; intros; discriminate. }
  assert (Hplain :
    let passed := resp_status response =? expected_status endpoint in
    let result :=
      {| checkPassed := passed && true;
         responseCode := Some (resp_status response);
         matchedValue := None;
         errorMessage :=
           if negb (passed && true) && is_null (nonempty None)
           then Some ("Expected HTTP " ++ Z_to_string (expected_status endpoint)
                      ++ ", got " ++ Z_to_string (resp_status response))
           else None |} in
    (checkPassed result = true ->
     exists ms0 response0,
       SettlesAfter ms (Fulfilled response) = SettlesAfter ms0 (Fulfilled response0)
       /\ resp_status response0 = expected_status endpoint
       /\ responseCode result = Some (expected_status endpoint)
       /\ errorMessage result = None)
    /\ (checkPassed result = false -> errorMessage result <> None)
    /\ result
       = {| checkPassed := passed;
            responseCode := Some (resp_status response);
            matchedValue := None;
            errorMessage :=
              if passed then None
              else Some ("Expected HTTP " ++ Z_to_string (expected_status endpoint)
                         ++ ", got " ++ Z_to_string (resp_status response)) |}).
  { cbv zeta. cbn [checkPassed errorMessage responseCode is_null nonempty].
    destruct (Z.eqb_spec (resp_status response) (expected_status endpoint)) as [Hsame | Hdiff];
      cbn [andb negb].
    - split; [| split; [discriminate | reflexivity]].
      intros _. exists ms, response. repeat split; congruence.
    - split; [discriminate | split; [discriminate | reflexivity]]. }
  cbv zeta in Hplain. destruct Hplain as (Hpassed & Hfailed & Hshape).
  unfold http_json_validation.
  destruct (nonempty (expected_json_path endpoint)) as [path |] eqn:Hpath.
  2: { unfold TaskMonad.try_catch, TaskMonad.bind. cbn [promise effects later TaskMonad.ret app].
       split; [reflexivity |]. split; [reflexivity |]. split.
       - intros elapsed result [= _ <-]. split; assumption.
       - intros ms' response' [= _ <-] _. eexists. rewrite Hshape. reflexivity. }
  destruct (expected_json_value endpoint) as [value |] eqn:Hvalue.
  2: { unfold TaskMonad.try_catch, TaskMonad.bind. cbn [promise effects later TaskMonad.ret app].
       split; [reflexivity |]. split; [reflexivity |]. split.
       - intros elapsed result [= _ <-]. split; assumption.
       - intros ms' response' [= _ <-] _. eexists. rewrite Hshape. reflexivity. }
  clear Hpassed Hfailed Hshape.
  unfold mbind, TaskMonad.Task_bind, TaskMonad.try_catch, TaskMonad.bind, TaskMonad.await.
  cbn [promise effects].
  destruct (resp_text response) as [ms' [payload | error] |];
    cbn [promise effects later TaskMonad.ret app].
  2: { split; [reflexivity |]. split; [reflexivity |]. split.
       - intros elapsed result [= _ <-]. split; discriminate.
       - intros ms'' response' _ [Hnone | Hnone]; discriminate. }
  2: { split; [reflexivity |]. split; [reflexivity |]. split.
       - intros elapsed result Hnever. discriminate.
       - intros ms'' response' _ [Hnone | Hnone]; discriminate. }
  destruct (is_nullish (parseJson (JStr payload)));
    cbn [promise effects later TaskMonad.ret app andb negb is_null nonempty].
  - rewrite andb_false_r. cbn [negb andb is_null nonempty].
    split; [reflexivity |]. split; [reflexivity |]. split.
    + intros elapsed result [= _ <-]. split; discriminate.
    + intros ms'' response' _ [Hnone | Hnone]; discriminate.
  - destruct (deepEqual _ _);
      destruct (Z.eqb_spec (resp_status response) (expected_status endpoint))
        as [Hsame | Hdiff];
      cbn [andb negb is_null nonempty];
      (split; [reflexivity |]); (split; [reflexivity |]);
      (split; [| intros ms'' response' _ [Hnone | Hnone]; discriminate]);
      intros elapsed result [= _ <-]; cbn [checkPassed errorMessage responseCode];
      split; try discriminate.
    intros _. exists ms, response. repeat split; congruence.
Qed.

Lemma runHttpCheck_verdict_witness :
  exists elapsed result,
    promise (runHttpCheck (H := Reference.platform) Examples.healthy_network
               Examples.http_endpoint)
    = SettlesAfter elapsed (Fulfilled result)
    /\ checkPassed result = true
    /\ responseCode result = Some 200.
Proof.
  destruct (runHttpCheck_verdict (H := Reference.platform) Examples.healthy_network
              Examples.http_endpoint) as (_ & _ & _ & Hplain).
  destruct (Hplain 30%N Examples.response_200 eq_refl (or_introl eq_refl))
    as [elapsed Hpromise].
  exists elapsed. eexists. split; [exact Hpromise | split; reflexivity].
Defined.

(** X12.  The request of the HTTP probe.  Its method is always one of
    the seven allowed ones: the endpoint's own, or [GET] in place of any
    other.  It carries a body only when the method is neither [GET] nor
    [HEAD] and [body_text] is not empty, and the body is then [body_text]
    as it stands. *)
Theorem http_request_method_and_body `{Platform} (endpoint : MonitorEndpoint) :
  let request := http_request endpoint in
  In (fetch_method request) ALLOWED_METHODS
  /\ (fetch_method request = ep_method endpoint
      \/ fetch_method request = "GET" /\ ~ In (ep_method endpoint) ALLOWED_METHODS)
  /\ (forall body,
        fetch_body request = Some body ->
        body <> "" /\ body_text endpoint = Some body
        /\ fetch_method request <> "GET" /\ fetch_method request <> "HEAD")
  /\ (fetch_body request = None ->
      body_text endpoint = None \/ body_text endpoint = Some ""
      \/ fetch_method request = "GET" \/ fetch_method request = "HEAD").
Proof.
  assert (Hincludes : forall (l : list string) (s : string),
             includes l s = true <-> In s l).
  { intros l s. unfold includes. rewrite existsb_exists. split.
    - intros (x & Hin & Heq). apply String.eqb_eq in Heq. subst. exact Hin.
    - intros Hin. exists s. split; [exact Hin | apply String.eqb_refl]. }
  cbv zeta. unfold http_request. cbn [fetch_method fetch_body].
  destruct (includes ALLOWED_METHODS (ep_method endpoint)) eqn:Hallowed.
  - split; [apply Hincludes; exact Hallowed |]. split; [left; reflexivity |].
    destruct (includes ["GET"; "HEAD"] (ep_method endpoint)) eqn:Hbodyless; cbn [negb].
    + apply Hincludes in Hbodyless. split; [discriminate |].
      intros _. destruct Hbodyless as [<- | [<- | []]]; auto.
    + assert (Hnot : ~ In (ep_method endpoint) ["GET"; "HEAD"]).
      { intros Hin. apply Hincludes in Hin. congruence. }
      split.
      * intros body Hbody. destruct (body_text endpoint) as [[| c text] |];
          cbn in Hbody; try discriminate. injection Hbody as <-.
        repeat split; [discriminate | |]; intros Heq; apply Hnot; rewrite Heq; cbn; auto.
      * intros Hbody. destruct (body_text endpoint) as [[| c text] |];
          cbn in Hbody; try discriminate; auto.
  - split; [cbn; auto |]. split.
    + right. split; [reflexivity |]. intros Hin. apply Hincludes in Hin. congruence.
    + cbn. split; [discriminate | auto].
Qed.

(** ** Results that hang together *)

(** What a sequence returns, its continuation returned on a value its
    first part returned. *)
Lemma bind_returns_from {A B} (Q : A -> Prop) (P : B -> Prop)
    (first : Task A) (rest : A -> Task B) :
  returns Q first ->
  (forall a, Q a -> returns P (rest a)) ->
  returns P (TaskMonad.bind first rest).
Proof.
  intros Hfirst Hrest ms b. unfold TaskMonad.bind.
  destruct (promise first) as [ms' [a | e] |] eqn:Hpromise; cbn [promise]; try discriminate.
  intros Hlater. destruct (later_fulfilled _ _ _ _ Hlater) as [ms'' Hrested].
  exact (Hrest a (Hfirst ms' a Hpromise) ms'' b Hrested).
Qed.

Section CoherentResults.
Import TaskMonad.
Context `{Platform}.
Variable config : Config.
Variable network : Network.

Lemma check_of_validation_coherent (actual : JsValue) (expectedRaw : option string) :
  coherent (check_of_validation (validateExpectedProbeValue actual expectedRaw))
  /\ coded (check_of_validation (validateExpectedProbeValue actual expectedRaw)).
Proof.
  unfold coherent, coded, check_of_validation.
  cbn [checkPassed errorMessage responseCode]. rewrite validate_error_iff.
  destruct (ok _); split; try reflexivity; split; congruence.
Qed.

Lemma failed_check_coherent (error : Thrown) (fallback : string) :
  coherent (failed_check error fallback) /\ coded (failed_check error fallback).
Proof. unfold coherent, coded. cbn. split; [split; discriminate | reflexivity]. Qed.

(** The JSON validation of the HTTP probe answers with a message only
    when it fails. *)
Lemma http_json_validation_message (endpoint : MonitorEndpoint) (response : Response) :
  returns (fun validation => validation.1.1 = true -> validation.2 = None)
    (http_json_validation endpoint response).
Proof.
  unfold http_json_validation.
  destruct (nonempty (expected_json_path endpoint)) as [path |];
    [| apply ret_returns; reflexivity].
  destruct (expected_json_value endpoint) as [value |];
    [| apply ret_returns; reflexivity].
  unfold mbind, Task_bind. apply bind_returns. intros payload.
  destruct (is_nullish (parseJson (JStr payload))).
  - apply ret_returns. cbn. discriminate.
  - apply ret_returns. cbn. intros ->. reflexivity.
Qed.

Lemma runHttpCheck_coherent (endpoint : MonitorEndpoint) :
  returns coherent (runHttpCheck network endpoint).
Proof.
  unfold runHttpCheck. cbv zeta. apply try_catch_returns.
  - unfold mbind, Task_bind. apply bind_returns. intros response.
    apply try_catch_returns.
    + apply (bind_returns_from _ _ _ _ (http_json_validation_message endpoint response)).
      intros [[jsonValidationOk matched] message] Hmessage. cbn in Hmessage.
      apply ret_returns. unfold coherent. cbn [checkPassed errorMessage].
      destruct (resp_status response =? expected_status endpoint); cbn [andb negb].
      * destruct jsonValidationOk; cbn [negb andb].
        -- rewrite (Hmessage eq_refl). split; reflexivity.
        -- destruct message as [[| c text] |]; cbn; split; discriminate.
      * destruct message as [[| c text] |]; cbn; split; discriminate.
    + intros error. apply ret_returns. split; discriminate.
  - intros error. apply ret_returns. split; discriminate.
Qed.

Lemma nats_probe_coherent (endpoint : MonitorEndpoint) (nc : NatsConnection) :
  returns (fun result => coherent result /\ coded result) (nats_probe config endpoint nc).
Proof.
  unfold nats_probe. cbv zeta. unfold mbind, Task_bind.
  destruct (String.eqb _ "jetstream.info").
  - apply bind_returns. intros jsm. apply bind_returns. intros accountInfo.
    apply ret_returns, check_of_validation_coherent.
  - destruct (String.prefix "stream.info:" _).
    + destruct (String.eqb _ "").
      * apply ret_returns. split; [split; discriminate | reflexivity].
      * apply bind_returns. intros jsm. apply bind_returns. intros streamInfo.
        apply ret_returns, check_of_validation_coherent.
    + apply ret_returns, check_of_validation_coherent.
Qed.

End CoherentResults.

(** X13.  Results that hang together.  Whatever a probe returns, it
    carries no error message exactly when the check passed.  The four
    probes that speak no HTTP code a pass as 200 and a failure as 500. *)
Theorem run_probe_result_coherent `{Platform}
    (config : Config) (network : Network) (endpoint : MonitorEndpoint) :
  returns
    (fun result =>
       coherent result /\ (monitor_type endpoint <> http -> coded result))
    (run_probe config network endpoint).
Proof.
  unfold run_probe. destruct (monitor_type endpoint).
  - intros ms result Hpromise. split; [| congruence].
    exact (runHttpCheck_coherent network endpoint ms result Hpromise).
  - unfold runMysqlCheck. cbv zeta. apply try_finally_returns, try_catch_returns.
    + unfold mbind, TaskMonad.Task_bind. apply bind_returns. intros conn.
      apply bind_returns. intros rows. apply ret_returns.
      split; [| intros _]; apply check_of_validation_coherent.
    + intros error. apply ret_returns. split; [| intros _]; apply failed_check_coherent.
  - unfold runRedisCheck. cbv zeta.
    destruct (createClient network (redis_options config endpoint)) as [client | error].
    + unfold mbind, TaskMonad.Task_bind. apply bind_returns. intros _.
      apply try_finally_returns, try_catch_returns.
      * apply bind_returns. intros _. apply bind_returns. intros rawResult.
        apply ret_returns. split; [| intros _]; apply check_of_validation_coherent.
      * intros error. apply ret_returns. split; [| intros _]; apply failed_check_coherent.
    + intros ms result. cbn [promise]. discriminate.
  - unfold runNatsCheck. cbv zeta. unfold mbind, TaskMonad.Task_bind.
    apply bind_returns. intros _. apply try_finally_returns, try_catch_returns.
    + apply bind_returns. intros nc ms result Hpromise.
      destruct (nats_probe_coherent config endpoint nc ms result Hpromise).
      split; auto.
    + intros error. apply ret_returns. split; [| intros _]; apply failed_check_coherent.
  - unfold runTcpCheck. cbv zeta. destruct (tcp_port_invalid endpoint).
    + apply ret_returns. split; [split; discriminate | reflexivity].
    + apply try_catch_returns.
      * unfold mbind, TaskMonad.Task_bind. apply bind_returns. intros _.
        apply ret_returns. split; [| intros _]; apply check_of_validation_coherent.
      * intros error. apply ret_returns. split; [| intros _]; apply failed_check_coherent.
Qed.

(** ** What a check leaves behind *)

(** X14.  The row, the run and the event of a check agree.  After an
    executed check the row of the endpoint, the run appended to
    [monitor_check_runs] and the payload emitted on [monitorEvents] carry
    the same status, counters, response code, error and matched value:
    those of the result and of the status computed from it.  One run and
    one event are added, and no other row is touched. *)
Theorem runCheck_records_agree `{Platform}
    (config : Config) (network : Network) (clock : Clock) (endpoint : MonitorEndpoint)
    (before : World) (ms : N) (result : CheckResult) (row : EndpointRow) :
  is_paused endpoint <> 1 ->
  promise (run_probe config network endpoint) = SettlesAfter ms (Fulfilled result) ->
  monitor_endpoints before !! ep_id endpoint = Some row ->
  let after := (runCheck config network clock endpoint before).1 in
  let next := computeStatus endpoint (checkPassed result) in
  exists row' run payload,
    monitor_endpoints after !! ep_id endpoint = Some row'
    /\ monitor_check_runs after = (monitor_check_runs before ++ [run])%list
    /\ emitted after = (emitted before ++ [payload])%list
    /\ (status (columns row') = Some (sc_status next)
        /\ run_status run = sc_status next
        /\ payload_status payload = sc_status next)
    /\ (consecutive_failures (columns row') = failures next
        /\ consecutiveFailures payload = failures next
        /\ consecutive_successes (columns row') = successes next
        /\ consecutiveSuccesses payload = successes next)
    /\ (last_response_code row' = responseCode result
        /\ run_response_code run = responseCode result
        /\ payload_responseCode payload = responseCode result)
    /\ (last_error row' = errorMessage result
        /\ run_error_message run = errorMessage result
        /\ lastError payload = errorMessage result
        /\ payload_errorMessage payload = errorMessage result)
    /\ (last_match_value row' = matchedValue result
        /\ run_matched_value run = matchedValue result
        /\ lastMatchValue payload = matchedValue result)
    /\ (run_endpoint_id run = ep_id endpoint /\ endpointId payload = ep_id endpoint)
    /\ run_response_time_ms run = responseTimeMs payload
    /\ (forall other,
          other <> ep_id endpoint ->
          monitor_endpoints after !! other = monitor_endpoints before !! other).
Proof.
  intros Hpaused Hprobe Hrow. cbv zeta.
  change ((runCheck config network clock endpoint before).1)
    with (fst (runCheck config network clock endpoint before)).
  rewrite (runCheck_world config network clock endpoint before ms result Hpaused Hprobe).
  unfold record_check. cbn [monitor_endpoints monitor_check_runs emitted].
  unfold update_endpoint at 1. rewrite lookup_alter_eq, Hrow. cbn [fmap option_fmap option_map].
  eexists _, _, _. split; [reflexivity |]. split; [reflexivity |]. split; [reflexivity |].
  cbn. repeat split.
  intros other Hother. apply update_endpoint_other. congruence.
Qed.

Lemma runCheck_records_agree_witness :
  exists row' run payload,
    monitor_endpoints
      (runCheck (H := Reference.platform) Examples.config Examples.healthy_network
         Examples.clock Examples.tcp_endpoint Examples.initial_world).1 !! 7
    = Some row'
    /\ status (columns row') = Some up
    /\ monitor_check_runs
         (runCheck (H := Reference.platform) Examples.config Examples.healthy_network
            Examples.clock Examples.tcp_endpoint Examples.initial_world).1
       = [run]
    /\ run_status run = up
    /\ emitted
         (runCheck (H := Reference.platform) Examples.config Examples.healthy_network
            Examples.clock Examples.tcp_endpoint Examples.initial_world).1
       = [payload]
    /\ payload_status payload = up.
Proof.
  destruct (runCheck_records_agree (H := Reference.platform) Examples.config
              Examples.healthy_network Examples.clock Examples.tcp_endpoint
              Examples.initial_world 12
              {| checkPassed := true;
                 responseCode := Some 200;
                 matchedValue := Some "open";
                 errorMessage := None |}
              Examples.tcp_row)
    as (row' & run & payload & Hrow & Hruns & Hemitted & (Hstatus & Hrun & Hpayload) & _);
    [discriminate | reflexivity | reflexivity |].
  exists row', run, payload.
  split; [exact Hrow |]. split; [exact Hstatus |]. split; [exact Hruns |].
  split; [exact Hrun |]. split; [exact Hemitted | exact Hpayload].
Defined.

(** X15.  Checks of different endpoints do not interfere.  Two checks
    that complete in either order leave the same rows in
    [monitor_endpoints], and the same runs and events up to their order:
    each check writes the row of its own endpoint only. *)
Theorem checks_of_distinct_endpoints_commute `{Platform}
    (config : Config) (network : Network) (clock_a clock_b : Clock)
    (a b : MonitorEndpoint) (before : World) :
  ep_id a <> ep_id b ->
  let a_then_b :=
    (runCheck config network clock_b b
       (runCheck config network clock_a a before).1).1 in
  let b_then_a :=
    (runCheck config network clock_a a
       (runCheck config network clock_b b before).1).1 in
  monitor_endpoints a_then_b = monitor_endpoints b_then_a
  /\ monitor_check_runs a_then_b ≡ₚ monitor_check_runs b_then_a
  /\ emitted a_then_b ≡ₚ emitted b_then_a.
Proof.
  intros Hdistinct. cbv zeta.
  assert (Hworld : forall clock endpoint world,
             (runCheck config network clock endpoint world).1 = world
             \/ exists result,
                  (forall world', (runCheck config network clock endpoint world').1
                                  = record_check clock endpoint result world')).
  { intros clock endpoint world. unfold runCheck.
    destruct (is_paused endpoint =? 1); [left; reflexivity |]. cbv zeta.
    destruct (promise (run_probe config network endpoint)) as [ms [result | e] |];
      [right; exists result; reflexivity | left; reflexivity | left; reflexivity]. }
  assert (Hsame : forall clock endpoint world world',
             (runCheck config network clock endpoint world).1 = world ->
             (runCheck config network clock endpoint world').1 = world').
  { intros clock endpoint world world'. unfold runCheck.
    destruct (is_paused endpoint =? 1); [reflexivity |]. cbv zeta.
    destruct (promise (run_probe config network endpoint)) as [ms [result | e] |];
      [| reflexivity | reflexivity].
    cbn [fst]. unfold record_check. intros Heq.
    apply (f_equal (fun w => length (monitor_check_runs w))) in Heq.
    cbn [monitor_check_runs] in Heq. rewrite length_app in Heq. cbn in Heq. lia. }
  destruct (Hworld clock_a a before) as [Ha | [result_a Ha]];
    destruct (Hworld clock_b b before) as [Hb | [result_b Hb]].
  - rewrite Ha, Hb, Ha. repeat split; reflexivity.
  - rewrite Ha, !Hb, (Hsame _ _ _ _ Ha). repeat split; reflexivity.
  - rewrite Hb, !Ha, (Hsame _ _ _ _ Hb). repeat split; reflexivity.
  - rewrite !Ha, !Hb. unfold record_check.
    cbn [monitor_endpoints monitor_check_runs emitted].
    split; [| split].
    + unfold update_endpoint. apply alter_alter_ne. congruence.
    + rewrite <- !app_assoc. apply Permutation_app_head. apply Permutation_swap.
    + rewrite <- !app_assoc. apply Permutation_app_head. apply Permutation_swap.
Qed.

Lemma checks_of_distinct_endpoints_commute_witness :
  monitor_endpoints
    (runCheck (H := Reference.platform) Examples.config Examples.healthy_network
       Examples.clock Examples.mysql_endpoint
       (runCheck (H := Reference.platform) Examples.config Examples.healthy_network
          Examples.clock Examples.tcp_endpoint Examples.initial_world).1).1
  = monitor_endpoints
      (runCheck (H := Reference.platform) Examples.config Examples.healthy_network
         Examples.clock Examples.tcp_endpoint
         (runCheck (H := Reference.platform) Examples.config Examples.healthy_network
            Examples.clock Examples.mysql_endpoint Examples.initial_world).1).1.
Proof.
  pose proof (checks_of_distinct_endpoints_commute (H := Reference.platform)
                Examples.config Examples.healthy_network Examples.clock Examples.clock
                Examples.tcp_endpoint Examples.mysql_endpoint Examples.initial_world
                ltac:(discriminate)) as Hcommute.
  cbv zeta in Hcommute. destruct Hcommute as [Hrows _]. exact Hrows.
Defined.

(** ** The tick *)

Lemma due_rows_sorted (now : Z) (table : gmap Z EndpointRow) :
  StronglySorted earlier (due_rows now table).
Proof.
  unfold due_rows.
  set (sorted := merge_sort earlier _).
  assert (Hsorted : StronglySorted earlier sorted)
    by (apply StronglySorted_merge_sort; apply _).
  rewrite <- (take_drop 50 sorted) in Hsorted.
  exact (StronglySorted_app_1_l _ _ _ Hsorted).
Qed.

Lemma due_rows_elem_of (now : Z) (table : gmap Z EndpointRow) (row : EndpointRow) :
  row ∈ merge_sort earlier
          (filter (fun row => is_due now row = true) (map_to_list table).*2)
  <-> is_due now row = true /\ exists id, table !! id = Some row.
Proof.
  rewrite merge_sort_Permutation, list_elem_of_filter, list_elem_of_fmap.
  split.
  - intros (Hdue & [id row'] & -> & Hin). apply elem_of_map_to_list in Hin.
    split; [exact Hdue | exists id; exact Hin].
  - intros (Hdue & id & Hrow). split; [exact Hdue |].
    exists (id, row). split; [reflexivity | apply elem_of_map_to_list; exact Hrow].
Qed.

(** X16.  What a tick checks.  With the guard down, a tick starts the
    checks of the rows its query returns and nothing else; with the guard
    up it does nothing.  The rows are at most fifty, in the order of
    [next_check_at]; each is unpaused and due.  A due row is left out only
    when fifty rows were taken, none of them due later than it. *)
Theorem tick_checks_the_most_overdue `{Platform}
    (config : Config) (network : Network) (clock_of : MonitorEndpoint -> Clock)
    (now : Z) (before : World) :
  let rows := due_rows now (monitor_endpoints before) in
  effects (tick config network clock_of now false before).2
  = concat
      (map (fun row =>
              effects (runCheck config network (clock_of (columns row)) (columns row)
                         before).2)
         rows)
  /\ tick config network clock_of now true before = (before, TaskMonad.ret tt)
  /\ (length rows <= 50)%nat
  /\ StronglySorted earlier rows
  /\ (forall row,
        row ∈ rows ->
        is_paused (columns row) = 0 /\ next_check_at row <= now
        /\ exists id, monitor_endpoints before !! id = Some row)
  /\ (forall id row,
        monitor_endpoints before !! id = Some row ->
        is_due now row = true ->
        row ∉ rows ->
        length rows = 50%nat
        /\ forall chosen, chosen ∈ rows -> next_check_at chosen <= next_check_at row).
Proof.
  cbv zeta. split; [| split; [reflexivity |]].
  - unfold tick. cbv zeta. cbn [snd].
    assert (Heffects : forall checks : list (Task (option MonitorCheckedPayload)),
               effects (TaskMonad.try_finally
                          (_ ← all_tasks checks; TaskMonad.ret tt) (TaskMonad.ret tt))
               = concat (map effects checks)).
    { intros checks.
      unfold TaskMonad.try_finally, mbind, TaskMonad.Task_bind, TaskMonad.bind.
      cbn [promise effects all_tasks].
      destruct (Promise_all (map promise checks)) as [ms [values | error] |];
        cbn [promise effects TaskMonad.ret later]; rewrite ?app_nil_r; reflexivity. }
    rewrite Heffects. unfold due_endpoints.
    induction (due_rows now (monitor_endpoints before)) as [| row rows IH];
      [reflexivity |].
    rewrite fmap_cons. cbn [map concat]. rewrite IH. reflexivity.
  - split; [unfold due_rows; rewrite length_take; lia |].
    split; [apply due_rows_sorted |]. split.
    + intros row Hrow. unfold due_rows in Hrow. apply elem_of_take in Hrow as (i & Hrow & _).
      apply list_elem_of_lookup_2 in Hrow. apply due_rows_elem_of in Hrow as [Hdue Htable].
      unfold is_due in Hdue. apply andb_true_iff in Hdue as [Hpaused Hnext].
      split; [apply Z.eqb_eq; exact Hpaused |]. split; [apply Z.leb_le; exact Hnext |].
      exact Htable.
    + intros id row Hrow Hdue Hout. unfold due_rows in *.
      set (sorted := merge_sort earlier _) in *.
      assert (Hin : row ∈ sorted).
      { apply due_rows_elem_of. split; [exact Hdue | exists id; exact Hrow]. }
      rewrite <- (take_drop 50 sorted) in Hin. apply elem_of_app in Hin as [Hin | Hin];
        [contradiction |].
      assert (Hlong : (50 < length sorted)%nat).
      { destruct (Nat.lt_ge_cases 50 (length sorted)) as [Hlt | Hge]; [exact Hlt |].
        rewrite drop_ge in Hin by lia. inversion Hin. }
      split; [rewrite length_take; lia |].
      intros chosen Hchosen.
      assert (Hsorted : StronglySorted earlier sorted)
        by (apply StronglySorted_merge_sort; apply _).
      rewrite <- (take_drop 50 sorted) in Hsorted.
      exact (StronglySorted_app_1_elem_of _ _ _ _ _ Hsorted Hchosen Hin).
Qed.

Lemma due_rows_are_due (now : Z) (table : gmap Z EndpointRow) (row : EndpointRow) :
  row ∈ due_rows now table ->
  is_due now row = true /\ exists id, table !! id = Some row.
Proof.
  unfold due_rows. intros Hrow. apply elem_of_take in Hrow as (i & Hrow & _).
  apply list_elem_of_lookup_2 in Hrow. apply due_rows_elem_of in Hrow. exact Hrow.
Qed.

Lemma first_rejection_some {A} (ps : list (Promise A)) :
  (exists found, first_rejection ps = Some found)
  <-> Exists (fun p => is_rejected p = true) ps.
Proof.
  induction ps as [| p ps IH]; cbn [first_rejection].
  - split; [intros [found Hfound]; discriminate | intros Hex; inversion Hex].
  - rewrite Exists_cons, <- IH.
    destruct p as [ms [a | e] |]; cbn [is_rejected];
      destruct (first_rejection ps) as [[ms' e'] |];
      try (destruct (ms <=? ms')%N);
      split; intros Hfound; eauto;
      destruct Hfound as [Hfound | Hfound]; eauto; discriminate.
Qed.

Lemma all_fulfilled_some {A} (ps : list (Promise A)) :
  (exists found, all_fulfilled ps = Some found)
  <-> Forall (fun p => is_fulfilled p = true) ps.
Proof.
  induction ps as [| p ps IH]; cbn [all_fulfilled].
  - split; [constructor | eauto].
  - rewrite Forall_cons, <- IH.
    destruct p as [ms [a | e] |]; cbn [is_fulfilled];
      try (split; [intros [found Hfound]; discriminate | intros [Hp _]; discriminate]).
    destruct (all_fulfilled ps) as [[ms' values] |].
    + split; eauto.
    + split; [intros [found Hfound]; discriminate | intros [_ [found Hfound]]; discriminate].
Qed.

(** [Promise.all] settles when one of the promises rejects or all of
    them fulfil, and only then. *)
Lemma Promise_all_settles {A} (ps : list (Promise A)) :
  settles (Promise_all ps) = true
  <-> Exists (fun p => is_rejected p = true) ps
      \/ Forall (fun p => is_fulfilled p = true) ps.
Proof.
  rewrite <- first_rejection_some, <- all_fulfilled_some. unfold Promise_all.
  destruct (first_rejection ps) as [[ms e] |].
  - split; [intros _; left; eauto | reflexivity].
  - destruct (all_fulfilled ps) as [[ms values] |].
    + split; [intros _; right; eauto | reflexivity].
    + split; [discriminate |]. intros [[found Hfound] | [found Hfound]]; discriminate.
Qed.

(** X17.  A tick holds the guard until all its checks are in.  The
    task of a tick settles, and [isTickRunning] is lowered, exactly when
    one of the checks it started rejects or all of them return.  If the
    probe of a due endpoint never settles and no check rejects, the tick
    never settles; from then on the guard is up at every moment, and every
    later tick returns at once without a query or a check. *)
Theorem tick_holds_the_guard `{Platform}
    (config : Config) (network : Network) (clock_of : MonitorEndpoint -> Clock)
    (now : Z) (before : World) :
  let checks :=
    map (fun endpoint =>
           (runCheck config network (clock_of endpoint) endpoint before).2)
      (due_endpoints now (monitor_endpoints before)) in
  let started := (tick config network clock_of now false before).2 in
  (settles (promise started) = true
   <-> Exists (fun check => is_rejected (promise check) = true) checks
       \/ Forall (fun check => is_fulfilled (promise check) = true) checks)
  /\ (forall endpoint,
        endpoint ∈ due_endpoints now (monitor_endpoints before) ->
        promise (run_probe config network endpoint) = NeverSettles ->
        Forall (fun check => is_rejected (promise check) = false) checks ->
        promise started = NeverSettles)
  /\ (promise started = NeverSettles ->
      forall elapsed now' world,
        isTickRunning_after started elapsed = true
        /\ tick config network clock_of now' (isTickRunning_after started elapsed) world
           = (world, TaskMonad.ret tt)).
Proof.
  cbv zeta.
  set (checks := map _ (due_endpoints now (monitor_endpoints before))).
  assert (Hpromise :
    promise (tick config network clock_of now false before).2
    = match Promise_all (map promise checks) with
      | SettlesAfter ms (Fulfilled _) => SettlesAfter (ms + 0 + 0) (Fulfilled tt)
      | SettlesAfter ms (Rejected error) => SettlesAfter (ms + 0) (Rejected error)
      | NeverSettles => NeverSettles
      end).
  { unfold tick. cbv zeta. cbn [snd]. fold checks.
    unfold TaskMonad.try_finally, mbind, TaskMonad.Task_bind, TaskMonad.bind.
    cbn [promise effects all_tasks].
    destruct (Promise_all (map promise checks)) as [ms [values | error] |]; reflexivity. }
  assert (Hsettles :
    settles (promise (tick config network clock_of now false before).2) = true
    <-> Exists (fun check => is_rejected (promise check) = true) checks
        \/ Forall (fun check => is_fulfilled (promise check) = true) checks).
  { rewrite Hpromise.
    rewrite <- (@Forall_map _ _ promise (fun p => is_fulfilled p = true)).
    rewrite <- (@Exists_map _ _ promise (fun p => is_rejected p = true)).
    rewrite <- Promise_all_settles.
    destruct (Promise_all (map promise checks)) as [ms [values | error] |]; reflexivity. }
  split; [exact Hsettles |]. split.
  - intros endpoint Hdue Hprobe Hnone.
    destruct (promise (tick config network clock_of now false before).2)
      as [ms outcome |] eqn:Hstarted; [| reflexivity].
    exfalso. destruct (proj1 Hsettles eq_refl) as [Hrejects | Hall].
    + apply Exists_exists in Hrejects as (check & Hin & Hrejected).
      rewrite Forall_forall in Hnone. specialize (Hnone check Hin). congruence.
    + rewrite Forall_forall in Hall.
      pose proof (proj2 (list_elem_of_In _ _)
                    (in_map (fun endpoint =>
                               (runCheck config network (clock_of endpoint) endpoint
                                  before).2)
                       _ endpoint (proj1 (list_elem_of_In _ _) Hdue))) as Hin.
      specialize (Hall _ Hin). unfold due_endpoints in Hdue.
      apply list_elem_of_fmap in Hdue as (row & -> & Hrow).
      apply due_rows_are_due in Hrow as [Hrow _]. unfold is_due in Hrow.
      apply andb_true_iff in Hrow as [Hpaused _]. apply Z.eqb_eq in Hpaused.
      unfold runCheck in Hall. rewrite Hpaused in Hall. cbn [Z.eqb] in Hall.
      cbv zeta in Hall. rewrite Hprobe in Hall.
      unfold mbind, TaskMonad.Task_bind, TaskMonad.bind in Hall. cbn [snd promise] in Hall.
      rewrite Hprobe in Hall. discriminate.
  - intros Hnever elapsed now' world. unfold isTickRunning_after.
    rewrite Hnever. split; reflexivity.
Qed.

Lemma tick_holds_the_guard_witness :
  promise (tick (H := Reference.platform) Examples.config Examples.mysql_silent_network
             (fun _ => Examples.clock) 1771601400 false Samples.two_monitors).2
  = NeverSettles.
Proof.
  destruct (tick_holds_the_guard (H := Reference.platform) Examples.config
              Examples.mysql_silent_network (fun _ => Examples.clock) 1771601400
              Samples.two_monitors) as (_ & Hnever & _).
  assert (Hdue : due_endpoints 1771601400 (monitor_endpoints Samples.two_monitors)
                 = [Examples.mysql_endpoint; Examples.tcp_endpoint])
    by (vm_compute; reflexivity).
  apply (Hnever Examples.mysql_endpoint).
  - rewrite Hdue. apply list_elem_of_here.
  - vm_compute. reflexivity.
  - rewrite Hdue. cbn [map]. repeat constructor; vm_compute; reflexivity.
Defined.

(** ** The life of the scheduler *)

Lemma monitor_step_invariant (m : Monitor) (event : MonitorEvent) :
  intervals m = match timer m with Some handle => [handle] | None => [] end
  /\ ticks_running m = (if isTickRunning m then 1 else 0)%nat ->
  intervals (monitor_step m event)
  = match timer (monitor_step m event) with Some handle => [handle] | None => [] end
  /\ ticks_running (monitor_step m event)
     = (if isTickRunning (monitor_step m event) then 1 else 0)%nat.
Proof.
  intros [Hintervals Hticks].
  destruct event as [| | handle |]; cbn [monitor_step].
  - unfold startMonitor, enter_tick.
    destruct (timer m) as [handle |] eqn:Htimer.
    + rewrite Htimer. split; assumption.
    + cbn [isTickRunning timer intervals ticks_running].
      destruct (isTickRunning m) eqn:Hrunning;
        cbn [isTickRunning timer intervals ticks_running];
        rewrite Hintervals, Hticks; split; reflexivity.
  - unfold stopMonitor.
    destruct (timer m) as [handle |] eqn:Htimer.
    + cbn [isTickRunning timer intervals ticks_running]. rewrite Hintervals.
      split; [| exact Hticks].
      cbn. destruct (decide (handle <> handle)); [congruence | reflexivity].
    + rewrite Htimer. split; assumption.
  - destruct (bool_decide (handle ∈ intervals m)); [| split; assumption].
    unfold enter_tick. destruct (isTickRunning m) eqn:Hrunning.
    + rewrite Hrunning. split; assumption.
    + cbn [isTickRunning timer intervals ticks_running]. rewrite Hticks.
      split; [exact Hintervals | reflexivity].
  - destruct (ticks_running m) as [| running] eqn:Hcount.
    + rewrite Hcount. split; assumption.
    + unfold leave_tick. cbn [isTickRunning timer intervals ticks_running].
      rewrite Hcount. split; [exact Hintervals |].
      destruct (isTickRunning m); [injection Hticks as -> | discriminate]. reflexivity.
Qed.

(** X18.  One interval, one tick.  Whatever sequence of calls of
    [startMonitor] and [stopMonitor], firings of intervals and settlings
    of ticks the process goes through: the intervals that are set are the
    one in [timer], or none when [timer] is empty, and the calls of [tick]
    past the guard are one when [isTickRunning] is up and none otherwise.
    So no second interval is left running by a repeated start, no two
    ticks run at the same time, and after [stopMonitor] no interval is
    set. *)
Theorem monitor_keeps_one_interval_one_tick (events : list MonitorEvent) :
  let m := monitor_run events in
  intervals m = match timer m with Some handle => [handle] | None => [] end
  /\ ticks_running m = (if isTickRunning m then 1 else 0)%nat
  /\ (length (intervals m) <= 1)%nat
  /\ (ticks_running m <= 1)%nat
  /\ intervals (monitor_step m StopMonitor) = [].
Proof.
  cbv zeta.
  assert (Hinvariant :
    intervals (monitor_run events)
    = match timer (monitor_run events) with Some handle => [handle] | None => [] end
    /\ ticks_running (monitor_run events)
       = (if isTickRunning (monitor_run events) then 1 else 0)%nat).
  { unfold monitor_run. induction events as [| event events IH] using rev_ind.
    - split; reflexivity.
    - rewrite fold_left_app. cbn [fold_left]. apply monitor_step_invariant, IH. }
  destruct Hinvariant as [Hintervals Hticks].
  split; [exact Hintervals |]. split; [exact Hticks |]. split; [| split].
  - rewrite Hintervals. destruct (timer (monitor_run events)); cbn; lia.
  - rewrite Hticks. destruct (isTickRunning (monitor_run events)); lia.
  - destruct (monitor_step_invariant (monitor_run events) StopMonitor
                (conj Hintervals Hticks)) as [Hstopped _].
    rewrite Hstopped. cbn [monitor_step]. unfold stopMonitor.
    destruct (timer (monitor_run events)) as [handle |] eqn:Htimer;
      [reflexivity | rewrite Htimer; reflexivity].
Qed.

(** ** Pausing and resuming *)

Lemma with_is_paused_twice (a b : Z) (endpoint : MonitorEndpoint) :
  with_is_paused a (with_is_paused b endpoint) = with_is_paused a endpoint.
Proof. reflexivity. Qed.

(** X19.  A paused endpoint is left alone until it is resumed.  Once
    the pause route has updated the row of an endpoint, no tick selects
    that endpoint, at any time, and a check on demand returns [null]
    without a probe or a write.  Resuming it makes the row what it was
    before the pause (status, counters and last results included), except
    that it is not paused and is due from the moment of the resume on. *)
Theorem paused_endpoint_is_left_alone `{Platform}
    (config : Config) (network : Network) (clock : Clock)
    (paused_at : Z) (id : Z) (before : World) (row : EndpointRow) :
  well_keyed (monitor_endpoints before) ->
  monitor_endpoints before !! id = Some row ->
  let paused :=
    with_endpoints (pause_endpoint paused_at id (monitor_endpoints before)) before in
  (forall now endpoint,
      endpoint ∈ due_endpoints now (monitor_endpoints paused) -> ep_id endpoint <> id)
  /\ triggerCheckNow config network clock id paused = (paused, TaskMonad.ret None)
  /\ (forall resumed_at,
        resume_endpoint resumed_at id (monitor_endpoints paused) !! id
        = Some (resume_row resumed_at row)
        /\ columns (resume_row resumed_at row) = with_is_paused 0 (columns row)
        /\ forall now, is_due now (resume_row resumed_at row) = (resumed_at <=? now)).
Proof.
  intros Hkeyed Hrow. cbv zeta. unfold with_endpoints. cbn [monitor_endpoints].
  assert (Hpaused : pause_endpoint paused_at id (monitor_endpoints before) !! id
                    = Some (pause_row paused_at row)).
  { unfold pause_endpoint. rewrite lookup_alter_eq, Hrow. reflexivity. }
  split; [| split].
  - intros now endpoint Hdue Hid. unfold due_endpoints in Hdue.
    apply list_elem_of_fmap in Hdue as (chosen & -> & Hchosen).
    apply due_rows_are_due in Hchosen as [Hdue (key & Hkey)].
    destruct (decide (key = id)) as [-> | Hother].
    + rewrite Hpaused in Hkey. injection Hkey as <-. discriminate.
    + unfold pause_endpoint in Hkey. rewrite lookup_alter_ne in Hkey by congruence.
      apply Hkeyed in Hkey. congruence.
  - unfold triggerCheckNow, getEndpointById. cbn [monitor_endpoints].
    rewrite Hpaused. cbn [fmap option_fmap option_map].
    apply runCheck_paused. reflexivity.
  - intros resumed_at. unfold resume_endpoint. rewrite lookup_alter_eq, Hpaused.
    split; [reflexivity |]. split; [reflexivity |].
    intros now. reflexivity.
Qed.

Lemma paused_endpoint_is_left_alone_witness :
  triggerCheckNow (H := Reference.platform) Examples.config Examples.healthy_network
    Examples.clock 7
    (with_endpoints
       (pause_endpoint 1771601400 7 (monitor_endpoints Samples.two_monitors))
       Samples.two_monitors)
  = (with_endpoints
       (pause_endpoint 1771601400 7 (monitor_endpoints Samples.two_monitors))
       Samples.two_monitors,
     TaskMonad.ret None).
Proof.
  assert (Hkeyed : well_keyed (monitor_endpoints Samples.two_monitors)).
  { intros id row Hrow. cbn [monitor_endpoints Samples.two_monitors] in Hrow.
    apply lookup_insert_Some in Hrow as [[<- <-] | [_ Hrow]]; [reflexivity |].
    apply lookup_singleton_Some in Hrow as [<- <-]. reflexivity. }
  exact (proj1 (proj2 (paused_endpoint_is_left_alone (H := Reference.platform)
                         Examples.config Examples.healthy_network Examples.clock
                         1771601400 7 Samples.two_monitors Examples.tcp_row
                         Hkeyed eq_refl))).
Defined.

(** ** Deliveries *)

Lemma header_lookup_set_header (key name value : string) (headers : list (string * string)) :
  header_lookup key (set_header name value headers)
  = if String.eqb name key then Some value else header_lookup key headers.
Proof.
  induction headers as [| [k v] rest IH]; cbn [set_header header_lookup].
  - destruct (String.eqb name key); reflexivity.
  - destruct (String.eqb_spec k name) as [-> | Hname]; cbn [header_lookup].
    + destruct (String.eqb name key); reflexivity.
    + rewrite IH. destruct (String.eqb_spec k key) as [-> | Hkey]; [| reflexivity].
      destruct (String.eqb_spec name key); [congruence | reflexivity].
Qed.

Lemma set_header_names (name value : string) (headers : list (string * string)) :
  NoDup (map fst headers) ->
  NoDup (map fst (set_header name value headers))
  /\ forall other, other ∈ map fst (set_header name value headers)
                   <-> other = name \/ other ∈ map fst headers.
Proof.
  induction headers as [| [k v] rest IH]; cbn [set_header map fst]; intros Hnodup.
  - split; [apply NoDup_singleton |].
    intros other. rewrite list_elem_of_singleton, elem_of_nil. tauto.
  - apply NoDup_cons in Hnodup as [Hfresh Hrest].
    destruct (String.eqb_spec k name) as [-> | Hname]; cbn [map fst].
    + split; [apply NoDup_cons; split; assumption |].
      intros other. rewrite elem_of_cons. tauto.
    + destruct (IH Hrest) as [Hnodup' Hnames]. split.
      * apply NoDup_cons. split; [| exact Hnodup'].
        intros Hin. apply Hnames in Hin as [-> | Hin]; [congruence | exact (Hfresh Hin)].
      * intros other. rewrite !elem_of_cons, Hnames. tauto.
Qed.

Lemma header_lookup_app (key : string) (first second : list (string * string)) :
  header_lookup key (first ++ second)
  = match header_lookup key first with
    | Some value => Some value
    | None => header_lookup key second
    end.
Proof.
  induction first as [| [k v] rest IH]; [reflexivity |].
  cbn [app header_lookup]. destruct (String.eqb k key); [reflexivity | exact IH].
Qed.

(** [{ ...base, ...extra }]: a name takes its last value in [extra], and
    its value in [base] when [extra] has none. *)
Lemma header_lookup_spread (key : string) (base extra : list (string * string)) :
  header_lookup key (spread_headers base extra)
  = match header_lookup key (rev extra) with
    | Some value => Some value
    | None => header_lookup key base
    end.
Proof.
  unfold spread_headers. revert base.
  induction extra as [| [name value] rest IH]; intros base; [reflexivity |].
  cbn [fold_left rev]. rewrite IH, header_lookup_app, header_lookup_set_header.
  cbn [header_lookup]. destruct (header_lookup key (rev rest)); [reflexivity |].
  destruct (String.eqb name key); reflexivity.
Qed.

Lemma spread_headers_names (base extra : list (string * string)) :
  NoDup (map fst base) -> NoDup (map fst (spread_headers base extra)).
Proof.
  unfold spread_headers. revert base.
  induction extra as [| [name value] rest IH]; intros base Hbase; [exact Hbase |].
  cbn [fold_left]. apply IH, set_header_names, Hbase.
Qed.

(** X20.  The request of a webhook delivery.  It is a [POST] of the JSON
    text of the payload to the URL of the target.  Each header name occurs
    once.  A header of the target goes out with the value the target gives
    it (the last one, if it is given twice); [Content-Type] is
    [application/json] unless the target sets a header of exactly that
    name; no other header is sent. *)
Theorem webhook_request_headers `{Platform}
    (url : string) (payload : JsValue) (headers : list (string * string)) (key : string) :
  let request := webhook_request url payload headers in
  fetch_url request = url
  /\ fetch_method request = "POST"
  /\ fetch_body request = Some (JSON_stringify payload)
  /\ NoDup (map fst (fetch_headers request))
  /\ header_lookup key (fetch_headers request)
     = match header_lookup key (rev headers) with
       | Some value => Some value
       | None => if String.eqb key "Content-Type" then Some "application/json" else None
       end.
Proof.
  cbv zeta. unfold webhook_request. cbn [fetch_url fetch_method fetch_body fetch_headers].
  repeat split.
  - apply spread_headers_names. apply NoDup_singleton.
  - rewrite header_lookup_spread. cbn [header_lookup].
    rewrite (String.eqb_sym "Content-Type" key). reflexivity.
Qed.

(** X21.  When a delivery succeeds.  Once the request of a delivery has
    been answered: a webhook delivery succeeds exactly when the status is
    200 to 299, and fails otherwise with a message that carries the status
    and the body, or [no response body] when the body is empty or cannot
    be read; a Slack delivery succeeds exactly when the status is 200 to
    299 and the JSON body has a true [ok], a body that cannot be read
    counting as none, and fails otherwise with a message that carries the
    status and the [error] of the answer, or [unknown_error]. *)
Theorem notifyTarget_outcome `{Platform}
    (config : Config) (network : Network) (target : NotificationTarget)
    (event : StatusChangeEvent) (request : FetchRequest) (ms : N) (response : Response) :
  delivery_request config target event = Some request ->
  fetch network request = SettlesAfter ms (Fulfilled response) ->
  let delivery := promise (notifyTarget config network target event) in
  match target_type target with
  | webhook =>
      (resp_ok response = true -> exists elapsed, delivery = SettlesAfter elapsed (Fulfilled tt))
      /\ (resp_ok response = false ->
          forall ms' outcome,
            resp_text response = SettlesAfter ms' outcome ->
            exists elapsed,
              delivery
              = SettlesAfter elapsed
                  (Rejected
                     (ErrorObject
                        ("Notification request failed ("
                         ++ Z_to_string (resp_status response) ++ "): "
                         ++ shown_body outcome))))
  | slack =>
      forall ms' outcome,
        resp_json response = SettlesAfter ms' outcome ->
        exists elapsed,
          delivery
          = SettlesAfter elapsed
              (if resp_ok response && truthy (optional_member (slack_answer outcome) "ok")
               then Fulfilled tt
               else Rejected
                      (ErrorObject
                         ("Slack chat.postMessage failed ("
                          ++ Z_to_string (resp_status response) ++ "): "
                          ++ ToString
                               (nullish_or (optional_member (slack_answer outcome) "error")
                                  (JStr "unknown_error")))))
  end.
Proof.
  unfold delivery_request, notifyTarget, postJson. cbv zeta.
  destruct (target_type target).
  - destruct (buildSlackPayload config event) as [message |]; [| discriminate].
    cbn [fmap option_fmap option_map]. intros [= <-] Hfetch ms' outcome Hjson.
    unfold mbind, TaskMonad.Task_bind, TaskMonad.bind, TaskMonad.perform, TaskMonad.await,
      TaskMonad.promise_catch, TaskMonad.throw.
    cbn [promise]. rewrite Hfetch. cbn [promise later]. rewrite Hjson.
    destruct outcome as [payload | error]; cbn [promise later slack_answer];
      destruct (resp_ok response); cbn [negb orb andb];
      try destruct (truthy (optional_member payload "ok")); cbn [negb promise later];
      eexists; reflexivity.
  - intros [= <-] Hfetch.
    unfold mbind, TaskMonad.Task_bind, TaskMonad.bind, TaskMonad.perform, TaskMonad.await,
      TaskMonad.promise_catch, TaskMonad.throw.
    cbn [promise]. rewrite Hfetch. cbn [promise later]. split.
    + intros ->. cbn [negb promise later]. eexists. reflexivity.
    + intros -> ms' outcome Htext. cbn [negb promise later]. rewrite Htext.
      destruct outcome as [[| c text] | error]; cbn [promise later shown_body];
        eexists; reflexivity.
Qed.

Lemma notifyTarget_outcome_witness :
  exists elapsed,
    promise (notifyTarget (H := Reference.platform) Examples.config
               Examples.webhook_down_network Examples.webhook_target startup_event)
    = SettlesAfter elapsed
        (Rejected (ErrorObject "Notification request failed (503): unavailable")).
Proof.
  pose proof (notifyTarget_outcome (H := Reference.platform) Examples.config
                Examples.webhook_down_network Examples.webhook_target startup_event
                _ 20 Examples.response_503 eq_refl eq_refl) as Houtcome.
  cbv zeta in Houtcome. cbn [target_type Examples.webhook_target] in Houtcome.
  destruct Houtcome as [_ Hfails].
  exact (Hfails eq_refl 1%N (Fulfilled "unavailable") eq_refl).
Defined.

(** ** The configuration *)

Lemma trimEnd_twice (s : string) : trimEnd (trimEnd s) = trimEnd s.
Proof.
  induction s as [| c s IH]; [reflexivity |].
  cbn [trimEnd]. destruct (trimEnd s) as [| d kept] eqn:Hkept.
  - destruct (is_whitespace c) eqn:Hc; [reflexivity |].
    cbn [trimEnd]. rewrite Hc. reflexivity.
  - change (trimEnd (String c (String d kept))) with
      (match trimEnd (String d kept) with
       | EmptyString => if is_whitespace c then EmptyString else String c EmptyString
       | String e more => String c (String e more)
       end).
    rewrite IH. reflexivity.
Qed.

Lemma trim_twice (s : string) : trim (trim s) = trim s.
Proof.
  unfold trim. destruct (trimStart s) as [| c rest] eqn:Hstart; [reflexivity |].
  pose proof (trimStart_head s c rest Hstart) as Hc.
  destruct (trimEnd_head (String c rest) c rest Hc) as [kept Hkept].
  rewrite Hkept. cbn [trimStart]. rewrite Hc, <- Hkept. apply trimEnd_twice.
Qed.

Lemma trimmed_trim (s : string) : trim s <> "" -> trimmed (trim s).
Proof. intros Hs. split; [exact Hs | apply trim_twice]. Qed.

Lemma events_or_both_named (events : option (list string)) :
  (forall items, events = Some items ->
                 Forall (fun event => event = "up" \/ event = "down") items) ->
  ConfigFile.events_or_both events <> []
  /\ Forall (fun event => event = "up" \/ event = "down") (ConfigFile.events_or_both events).
Proof.
  intros Hitems. destruct events as [[| event more] |]; cbn [ConfigFile.events_or_both].
  - split; [discriminate |]. constructor; [left; reflexivity |].
    constructor; [right; reflexivity | constructor].
  - split; [discriminate | apply Hitems; reflexivity].
  - split; [discriminate |]. constructor; [left; reflexivity |].
    constructor; [right; reflexivity | constructor].
Qed.

Lemma normalizeNotificationTarget_deliverable `{Platform}
    (value : JsValue) (target : NormalizedTarget) :
  ConfigFile.normalizeNotificationTarget value = Some target -> deliverable target.
Proof.
  unfold ConfigFile.normalizeNotificationTarget.
  destruct (negb (truthy value) || negb (is_object value)); [discriminate |].
  match goal with
  | |- context [ConfigFile.events_or_both ?e] =>
      pose proof (events_or_both_named e) as Hevents; set (events := e) in *
  end.
  assert (Hnamed : ConfigFile.events_or_both events <> []
                   /\ Forall (fun event => event = "up" \/ event = "down")
                        (ConfigFile.events_or_both events)).
  { apply Hevents. subst events. intros items Hitems.
    destruct (get_member value (TName "events")); try discriminate.
    injection Hitems as <-. apply Forall_forall. intros event Hevent.
    apply list_elem_of_filter in Hevent as [Hevent _].
    exact Hevent. }
  clearbody events. clear Hevents. destruct Hnamed as [Hsome Hnames].
  destruct (String.eqb _ "slack").
  - destruct (String.eqb_spec
                (trim (ToString (nullish_or (get_member value (TName "token")) (JStr ""))))
                "") as [| Htoken]; [discriminate |].
    destruct (String.eqb_spec
                (trim (ToString (nullish_or (get_member value (TName "channel")) (JStr ""))))
                "") as [| Hchannel]; [discriminate |].
    cbn [orb]. intros [= <-]. unfold deliverable. cbn [normalized_events].
    auto using trimmed_trim.
  - destruct (String.eqb_spec
                (trim (ToString (nullish_or (get_member value (TName "url")) (JStr ""))))
                "") as [| Hurl]; [discriminate |].
    intros [= <-]. unfold deliverable. cbn [normalized_events].
    auto using trimmed_trim.
Qed.

Lemma omap_Forall {A B} (f : A -> option B) (P : B -> Prop) (l : list A) :
  (forall a b, f a = Some b -> P b) -> Forall P (omap f l).
Proof.
  intros Hf. induction l as [| a l IH]; [constructor |].
  cbn [omap list_omap]. destruct (f a) as [b |] eqn:Hb; [| exact IH].
  constructor; [exact (Hf a b Hb) | exact IH].
Qed.

(** X22.  What the loaded configuration always satisfies, whatever the
    environment holds.  The numeric settings are finite numbers.  Every
    allowed origin is a non-empty text without white space around it.
    Every notification target names at least one event, and only [up] and
    [down]; a Slack target has a token and a channel, a webhook target a
    URL, each non-empty and without white space around it. *)
Theorem config_is_well_formed `{Platform} (env : Env) :
  let loaded := ConfigFile.config env in
  Forall (fun setting => Number_isFinite setting = true)
    [ConfigFile.port loaded; ConfigFile.monitorPollMs loaded;
     ConfigFile.requestTimeoutMs loaded;
     ConfigFile.mysql_port (ConfigFile.mysql_settings loaded);
     ConfigFile.connectionLimit (ConfigFile.mysql_settings loaded)]
  /\ Forall trimmed (ConfigFile.corsOrigins loaded)
  /\ Forall deliverable (ConfigFile.notifications_targets loaded).
Proof.
  cbv zeta. split; [| split].
  - assert (Hfinite : forall value q,
               Number_isFinite (ConfigFile.toNumber value (Finite q)) = true).
    { intros value q. unfold ConfigFile.toNumber.
      destruct (Number_isFinite (ToNumber value)) eqn:Hparsed; [exact Hparsed | reflexivity]. }
    cbn [ConfigFile.config ConfigFile.port ConfigFile.monitorPollMs
           ConfigFile.requestTimeoutMs ConfigFile.mysql_port ConfigFile.mysql_settings
           ConfigFile.connectionLimit].
    repeat constructor; apply Hfinite.
  - cbn [ConfigFile.config ConfigFile.corsOrigins]. unfold ConfigFile.origins_of.
    apply Forall_forall. intros origin Horigin.
    apply list_elem_of_filter in Horigin as [Hsome Horigin].
    apply list_elem_of_In, in_map_iff in Horigin as (piece & <- & _).
    apply trimmed_trim, Hsome.
  - cbn [ConfigFile.config ConfigFile.notifications_targets].
    unfold ConfigFile.parseNotificationTargets.
    set (jsonTargets := match ConfigFile.parseJson _ _ with JArr items => _ | _ => [] end).
    assert (Hjson : Forall deliverable jsonTargets).
    { subst jsonTargets. destruct (ConfigFile.parseJson _ _); try constructor.
      apply omap_Forall. intros a b. apply normalizeNotificationTarget_deliverable. }
    destruct (String.eqb_spec
                (trim (ToString (nullish_or (env_value env "SLACK_BOT_TOKEN") (JStr ""))))
                "") as [| Htoken]; [exact Hjson |].
    destruct (String.eqb_spec
                (trim (ToString (nullish_or (env_value env "SLACK_CHANNEL_ID") (JStr ""))))
                "") as [| Hchannel]; [exact Hjson |].
    cbn [orb]. destruct (existsb _ jsonTargets); [exact Hjson |].
    apply Forall_app. split; [exact Hjson |]. constructor; [| constructor].
    unfold deliverable. cbn [normalized_events]. split; [discriminate |].
    split; [| auto using trimmed_trim].
    constructor; [left; reflexivity |]. constructor; [right; reflexivity | constructor].
Qed.

Lemma filter_nil_of_existsb {A} (f : A -> bool) (l : list A) :
  existsb f l = false -> filter (fun a => f a = true) l = [].
Proof.
  induction l as [| a l IH]; [reflexivity |].
  cbn [existsb]. intros Hnone. apply orb_false_iff in Hnone as [Ha Hl].
  rewrite filter_cons. destruct (decide (f a = true)) as [Htrue | _]; [congruence |].
  apply IH, Hl.
Qed.

Lemma filter_some_of_existsb {A} (f : A -> bool) (l : list A) :
  existsb f l = true -> (1 <= length (filter (fun a => f a = true) l))%nat.
Proof.
  induction l as [| a l IH]; [discriminate |].
  cbn [existsb]. rewrite filter_cons.
  destruct (decide (f a = true)) as [_ | Hfalse]; [cbn [length]; lia |].
  destruct (f a); [congruence |]. exact IH.
Qed.

(** X23.  The Slack target of the environment.  When [SLACK_BOT_TOKEN]
    and [SLACK_CHANNEL_ID] are both set to more than white space, the
    targets of the configuration are the targets of
    [NOTIFICATION_TARGETS_JSON], in their order, followed by at most one
    more, and they hold a Slack target for that token and channel: as
    many as the JSON gives, and one when it gives none.  So the default
    target never doubles a target the JSON already has. *)
Theorem slack_variables_give_one_target `{Platform} (env : Env) :
  let slackToken :=
    trim (ToString (nullish_or (env_value env "SLACK_BOT_TOKEN") (JStr ""))) in
  let slackChannel :=
    trim (ToString (nullish_or (env_value env "SLACK_CHANNEL_ID") (JStr ""))) in
  let jsonTargets :=
    match ConfigFile.parseJson (env_value env "NOTIFICATION_TARGETS_JSON") (JArr []) with
    | JArr items => omap ConfigFile.normalizeNotificationTarget items
    | _ => []
    end in
  let for_them :=
    filter (fun target => ConfigFile.is_slack_target_for slackChannel slackToken target = true) in
  slackToken <> "" ->
  slackChannel <> "" ->
  (exists more, ConfigFile.parseNotificationTargets env = (jsonTargets ++ more)%list
                /\ (length more <= 1)%nat)
  /\ length (for_them (ConfigFile.parseNotificationTargets env))
     = Nat.max 1 (length (for_them jsonTargets)).
Proof.
  cbv zeta. intros Htoken Hchannel. unfold ConfigFile.parseNotificationTargets.
  set (slackToken := trim (ToString (nullish_or (env_value env "SLACK_BOT_TOKEN") _))) in *.
  set (slackChannel := trim (ToString (nullish_or (env_value env "SLACK_CHANNEL_ID") _))) in *.
  set (jsonTargets := match ConfigFile.parseJson _ _ with JArr items => _ | _ => [] end).
  destruct (String.eqb_spec slackToken "") as [| _]; [contradiction |].
  destruct (String.eqb_spec slackChannel "") as [| _]; [contradiction |].
  cbn [orb].
  destruct (existsb (ConfigFile.is_slack_target_for slackChannel slackToken) jsonTargets)
    eqn:Hsome.
  - split; [exists []; rewrite app_nil_r; split; [reflexivity | cbn; lia] |].
    apply filter_some_of_existsb in Hsome. lia.
  - split; [eexists; split; [reflexivity | cbn; lia] |].
    rewrite filter_app, (filter_nil_of_existsb _ _ Hsome), filter_cons.
    cbn [ConfigFile.is_slack_target_for]. rewrite !String.eqb_refl. reflexivity.
Qed.

Lemma slack_variables_give_one_target_witness :
  length
    (filter (fun target => ConfigFile.is_slack_target_for "C042" "xoxb-1" target = true)
       (ConfigFile.parseNotificationTargets (H := Reference.platform) Samples.slack_env))
  = 1%nat.
Proof.
  destruct (slack_variables_give_one_target (H := Reference.platform) Samples.slack_env)
    as [_ Hone].
  - vm_compute. discriminate.
  - vm_compute. discriminate.
  - exact Hone.
Defined.

(** ** Allowed origins *)

Lemma occurs_app (c : ascii) (a b : string) :
  occurs c (a ++ b) = occurs c a || occurs c b.
Proof.
  induction a as [| x a IH]; [reflexivity |].
  change (Ascii.eqb x c || occurs c (a ++ b) = Ascii.eqb x c || occurs c a || occurs c b).
  rewrite IH. apply orb_assoc.
Qed.

Lemma split_on_spec (sep : ascii) (current s : string) :
  occurs sep current = false ->
  String.concat (String sep "") (split_on sep current s) = current ++ s
  /\ Forall (fun entry => occurs sep entry = false) (split_on sep current s).
Proof.
  revert current. induction s as [| c s IH]; intros current Hcurrent; cbn [split_on].
  - split; [cbn; symmetry; apply string_app_nil_r | repeat constructor; exact Hcurrent].
  - destruct (Ascii.eqb_spec c sep) as [-> | Hc].
    + destruct (IH "" eq_refl) as [Hjoin Hfree]. split; [| constructor; assumption].
      destruct (split_on sep "" s) as [| entry entries] eqn:Hsplit.
      * destruct s; cbn in Hsplit; [discriminate |].
        destruct (Ascii.eqb a sep); discriminate.
      * change (current ++ String sep "" ++ String.concat (String sep "") (entry :: entries)
                = current ++ String sep s).
        rewrite Hjoin. reflexivity.
    + destruct (IH (current ++ String c "")) as [Hjoin Hfree].
      * rewrite occurs_app, Hcurrent. cbn.
        destruct (Ascii.eqb_spec c sep); [contradiction | reflexivity].
      * split; [| exact Hfree]. rewrite Hjoin, string_app_assoc. reflexivity.
Qed.

Lemma includes_elem_of (l : list string) (s : string) :
  includes l s = true <-> s ∈ l.
Proof.
  unfold includes. rewrite existsb_exists, list_elem_of_In. split.
  - intros (x & Hx & Heq). apply String.eqb_eq in Heq as ->. exact Hx.
  - intros Hs. exists s. split; [exact Hs | apply String.eqb_refl].
Qed.

(** X24.  Which origins the server allows.  [CORS_ORIGINS] (by default
    the two localhost origins) is cut at its commas: the entries, joined
    by commas again, are the text, and none holds a comma.  A request is
    allowed when it has no [Origin] header or an empty one, or when its
    origin is, character for character, one of the entries with the white
    space around it removed; any other origin is refused with [Origin ...
    is not allowed by CORS]. *)
Theorem cors_allows_listed_origins `{Platform} (env : Env) (origin : option string) :
  let text := default "http://localhost:3000,http://localhost:5173" (env "CORS_ORIGINS") in
  let entries := split_on "," "" text in
  let answer := cors_origin (ConfigFile.corsOrigins (ConfigFile.config env)) origin in
  String.concat "," entries = text
  /\ Forall (fun entry => occurs "," entry = false) entries
  /\ (answer = Fulfilled true
      <-> origin = None \/ origin = Some ""
          \/ exists entry, entry ∈ entries /\ origin = Some (trim entry))
  /\ (forall value,
        origin = Some value ->
        answer <> Fulfilled true ->
        answer = Rejected (ErrorObject ("Origin " ++ value ++ " is not allowed by CORS"))).
Proof.
  cbv zeta. cbn [ConfigFile.config ConfigFile.corsOrigins].
  unfold ConfigFile.env_or, ConfigFile.origins_of.
  set (text := default _ (env "CORS_ORIGINS")).
  destruct (split_on_spec "," "" text eq_refl) as [Hjoin Hfree].
  split; [exact Hjoin |]. split; [exact Hfree |].
  assert (Hlisted : forall value,
             includes (filter (fun entry => entry <> "") (map trim (split_on "," "" text)))
               value = true
             <-> value <> "" /\ exists entry, entry ∈ split_on "," "" text /\ trim entry = value).
  { intros value. rewrite includes_elem_of, list_elem_of_filter.
    change (map trim (split_on "," "" text)) with (trim <$> split_on "," "" text).
    rewrite list_elem_of_fmap. split.
    - intros [Hsome (entry & -> & Hentry)]. eauto.
    - intros [Hsome (entry & Hentry & <-)]. eauto. }
  unfold cors_origin. split.
  - destruct origin as [[| c value] |]; cbn [nonempty]; [tauto | | tauto].
    destruct (includes _ (String c value)) eqn:Hincluded.
    + apply Hlisted in Hincluded as [_ (entry & Hentry & Htrim)].
      split; [| reflexivity]. intros _. right. right. exists entry. rewrite Htrim. auto.
    + split; [discriminate |]. intros [Hnone | [Hempty | (entry & Hentry & Htrim)]];
        try discriminate.
      injection Htrim as Htrim.
      assert (Hyes : includes
                       (filter (fun entry => entry <> "") (map trim (split_on "," "" text)))
                       (String c value) = true).
      { apply Hlisted. split; [discriminate | eauto]. }
      congruence.
  - intros value -> Hrefused. destruct value as [| c value]; cbn [nonempty] in *;
      [contradiction |].
    destruct (includes _ (String c value)); [contradiction | reflexivity].
Qed.

(** ** The endpoint routes *)

Lemma Settled_bind_Fulfilled {A B} (first : Settled A) (rest : A -> Settled B) (b : B) :
  (first ≫= rest) = Fulfilled b -> exists a, first = Fulfilled a /\ rest a = Fulfilled b.
Proof.
  destruct first as [a | error]; cbn; [| discriminate]. intros Hrest. eauto.
Qed.

Lemma throw_if_Fulfilled (condition : bool) (message : string) (u : unit) :
  throw_if condition message = Fulfilled u -> condition = false.
Proof. destruct condition; [discriminate | reflexivity]. Qed.

Lemma integer_of_trunc (q : Q) :
  integer_of (Some (Math_trunc (Finite q))) = Some (Z.quot (Qnum q) (Zpos (Qden q))).
Proof.
  cbn [Math_trunc integer_of]. rewrite Qred_identity by apply Z.gcd_1_r. reflexivity.
Qed.

Lemma trunc_at_least (q : Q) (least : Z) :
  1 <= least ->
  (Z.quot (Qnum q) (Zpos (Qden q)) <? least) = negb (Qle_bool (inject_Z least) q)
  /\ (least <= Z.quot (Qnum q) (Zpos (Qden q)) ->
      Z.quot (Qnum q) (Zpos (Qden q)) = Qfloor q).
Proof.
  intros Hleast. destruct q as [n d]. unfold Qle_bool, Qfloor. cbn [Qnum Qden inject_Z].
  destruct (Z.le_gt_cases 0 n) as [Hn | Hn].
  - rewrite Z.quot_div_nonneg by lia. split; [| reflexivity].
    destruct (Z.ltb_spec (n / Zpos d) least) as [Hlt | Hge];
      destruct (Z.leb_spec (least * Zpos d) (n * 1)) as [Hle | Hgt];
      cbn [negb]; try reflexivity; exfalso.
    + assert (least <= n / Zpos d) by (apply Z.div_le_lower_bound; lia). lia.
    + assert (n / Zpos d < least) by (apply Z.div_lt_upper_bound; lia). lia.
  - assert (Hquot : Z.quot n (Zpos d) <= 0).
    { replace n with (- - n) by lia. rewrite Z.quot_opp_l by lia.
      assert (0 <= Z.quot (- n) (Zpos d)) by (apply Z.quot_pos; lia). lia. }
    split; [| lia].
    destruct (Z.ltb_spec (Z.quot n (Zpos d)) least) as [Hlt | Hge]; [| lia].
    destruct (Z.leb_spec (least * Zpos d) (n * 1)) as [Hle | Hgt]; [nia | reflexivity].
Qed.

Lemma integer_at_least_bound (value : option JsNumber) (least : Z) (message : string)
    (n : Z) :
  integer_at_least value least message = Fulfilled n -> least <= n.
Proof.
  unfold integer_at_least. destruct (integer_of value) as [m |]; [| discriminate].
  destruct (Z.ltb_spec m least); [discriminate |]. intros [= <-]. assumption.
Qed.

(** X25.  How a whole-number field of a payload is read
    ([interval_seconds], [down_retries], [up_retries], [group_id]).  The
    value is made a number and its fraction dropped: the field is accepted
    exactly when the number is finite and at least the least value
    allowed, and what is kept is the number rounded down.  Anything else,
    a text that is no number included, gives the error of the field. *)
Theorem whole_number_field_is_rounded_down `{Platform}
    (value : JsValue) (least : Z) (message : string) :
  1 <= least ->
  integer_at_least (toInteger value (Some NaN)) least message
  = match ToNumber value with
    | Finite q =>
        if Qle_bool (inject_Z least) q then Fulfilled (Qfloor q)
        else Rejected (ErrorObject message)
    | _ => Rejected (ErrorObject message)
    end.
Proof.
  intros Hleast. unfold toInteger, integer_at_least.
  destruct (ToNumber value) as [| sign | q]; cbn [Number_isFinite negb]; try reflexivity.
  rewrite integer_of_trunc.
  destruct (trunc_at_least q least Hleast) as [Hcompare Hfloor]. rewrite Hcompare.
  destruct (Qle_bool (inject_Z least) q) eqn:Hle; cbn [negb]; [| reflexivity].
  cbn [negb] in Hcompare. apply Z.ltb_ge in Hcompare.
  rewrite (Hfloor Hcompare). reflexivity.
Qed.

Lemma whole_number_field_is_rounded_down_witness :
  integer_at_least
    (toInteger (H := Reference.platform) (JNum (Finite (61 # 2))) (Some NaN)) 5
    "interval_seconds must be at least 5 seconds"
  = Fulfilled 30.
Proof.
  exact (whole_number_field_is_rounded_down (H := Reference.platform)
           (JNum (Finite (61 # 2))) 5 "interval_seconds must be at least 5 seconds"
           ltac:(lia)).
Defined.

Lemma trimmed_field_trimmed `{Platform} (payload : list (string * JsValue))
    (key text : string) :
  trimmed_field payload key = Some text -> trimmed text.
Proof.
  unfold trimmed_field, nonempty.
  destruct (trim (ToString (nullish_or (get_property payload key) (JStr "")))) as [| c rest]
    eqn:Htrim; [discriminate |].
  intros [= <-]. rewrite <- Htrim. apply trimmed_trim. rewrite Htrim. discriminate.
Qed.

Lemma unblank_field_unblank `{Platform} (payload : list (string * JsValue))
    (key text : string) :
  unblank_field payload key = Some text -> trim text <> "".
Proof.
  unfold unblank_field. destruct (is_nullish (get_property payload key)); [discriminate |].
  cbn [orb]. destruct (String.eqb_spec (trim (ToString (get_property payload key))) "");
    [discriminate |].
  intros [= <-]. assumption.
Qed.

Section SavedPayloads.
Context `{Platform} `{WebPlatform}.

(** What [normalizeHttpPayload] has checked of what it returns. *)
Lemma normalizeHttpPayload_checked (payload : list (string * JsValue))
    (specific : MonitorSpecific) :
  normalizeHttpPayload payload = Fulfilled specific ->
  trimmed (saved_url specific)
  /\ (URL_protocol (saved_url specific) = Some "http:"
      \/ URL_protocol (saved_url specific) = Some "https:")
  /\ saved_method specific ∈ ALLOWED_METHODS
  /\ 100 <= saved_expected_status specific <= 599
  /\ (saved_expected_json_path specific = None
      <-> saved_expected_json_value specific = None)
  /\ (forall path, saved_expected_json_path specific = Some path -> trimmed path)
  /\ (forall text, saved_expected_json_value specific = Some text -> trim text <> "")
  /\ saved_connection_json specific = None
  /\ saved_probe_command specific = None
  /\ saved_expected_probe_value specific = None.
Proof.
  unfold normalizeHttpPayload. intros Hsaved.
  apply Settled_bind_Fulfilled in Hsaved as (headers & _ & Hsaved).
  apply Settled_bind_Fulfilled in Hsaved as (u & Hurl & Hsaved).
  apply throw_if_Fulfilled in Hurl.
  apply Settled_bind_Fulfilled in Hsaved as (u' & Hscheme & Hsaved).
  apply Settled_bind_Fulfilled in Hsaved as (u'' & Hmethod & Hsaved).
  apply throw_if_Fulfilled, negb_false_iff, includes_elem_of in Hmethod.
  apply Settled_bind_Fulfilled in Hsaved as (expected & Hstatus & Hsaved).
  apply Settled_bind_Fulfilled in Hsaved as (u''' & Hpair & Hsaved).
  apply throw_if_Fulfilled in Hpair.
  injection Hsaved as <-.
  cbn [saved_url saved_method saved_expected_status saved_expected_json_path
         saved_expected_json_value saved_connection_json saved_probe_command
         saved_expected_probe_value].
  split; [apply trimmed_trim; intros Hempty; rewrite Hempty in Hurl; discriminate |].
  split.
  { destruct (URL_protocol _) as [protocol |]; [| discriminate].
    cbn in Hscheme.
    destruct (String.eqb_spec protocol "http:") as [Hhttp | _]; [left; congruence |].
    destruct (String.eqb_spec protocol "https:") as [Hhttps | _]; [right; congruence |].
    discriminate. }
  split; [exact Hmethod |].
  split.
  { destruct (integer_of _) as [n |]; [| discriminate].
    destruct (Z.ltb_spec n 100); [discriminate |].
    destruct (Z.ltb_spec 599 n); [discriminate |].
    injection Hstatus as <-. lia. }
  split.
  { destruct (trimmed_field payload "expected_json_path"),
      (unblank_field payload "expected_json_value"); cbn in Hpair;
      try discriminate; split; congruence. }
  split; [intros path; apply trimmed_field_trimmed |].
  split; [intros text; apply unblank_field_unblank |].
  repeat split.
Qed.

(** What [normalizeConnectionMonitorPayload] returns, when it returns. *)
Lemma normalizeConnectionMonitorPayload_fixed (payload : list (string * JsValue))
    (monitorType : MonitorType) (specific : MonitorSpecific) :
  normalizeConnectionMonitorPayload payload monitorType = Fulfilled specific ->
  saved_method specific = "GET"
  /\ saved_expected_status specific = 200
  /\ saved_headers_json specific = JSON_stringify (JObj [])
  /\ saved_body_text specific = None
  /\ saved_expected_json_path specific = None
  /\ saved_expected_json_value specific = None
  /\ (exists connection,
        parseJsonObjectInput (get_property payload "connection_json") "connection_json"
        = Fulfilled connection
        /\ saved_connection_json specific = Some (JSON_stringify (JObj connection))
        /\ (truthy (get_property connection "url") = true
            \/ truthy (nullish_or (get_property connection "host") (JStr "127.0.0.1"))
               = true
               /\ Number_isFinite
                    (ToNumber
                       (nullish_or (get_property connection "port")
                          (num (defaultPort monitorType)))) = true))
  /\ (forall command, saved_probe_command specific = Some command -> trimmed command)
  /\ (forall text, saved_expected_probe_value specific = Some text -> trim text <> "").
Proof.
  unfold normalizeConnectionMonitorPayload. intros Hsaved.
  apply Settled_bind_Fulfilled in Hsaved as (connection & Hconnection & Hsaved).
  apply Settled_bind_Fulfilled in Hsaved as (u & Hvalid & Hsaved).
  apply throw_if_Fulfilled in Hvalid. injection Hsaved as <-.
  cbn [saved_method saved_expected_status saved_headers_json saved_body_text
         saved_expected_json_path saved_expected_json_value saved_connection_json
         saved_probe_command saved_expected_probe_value].
  repeat (split; [reflexivity |]).
  split.
  { exists connection. split; [exact Hconnection |]. split; [reflexivity |].
    destruct (truthy (get_property connection "url")); [left; reflexivity |].
    right. cbn [negb andb] in Hvalid. apply orb_false_iff in Hvalid as [Hhost Hport].
    apply negb_false_iff in Hhost, Hport. split; assumption. }
  split; [intros command; apply trimmed_field_trimmed |].
  intros text. apply unblank_field_unblank.
Qed.

(** X26.  What the routes save.  A payload that [normalizeEndpointPayload]
    accepts is saved with a name that is not empty and has no white space
    around it, an interval of at least 5 seconds, retry counts and a group
    id of at least 1.  An HTTP monitor is saved with a URL whose scheme is
    [http:] or [https:], one of the seven allowed methods, an expected
    status from 100 to 599, a JSON path and an expected JSON value both
    or neither, and no connection or probe fields.  Any other monitor is
    saved with method [GET], expected status 200, empty headers, no body
    and no JSON expectation, and the connection object as JSON text, which
    has a [url], or a host and a finite port. *)
Theorem normalizeEndpointPayload_saves_checked_values
    (payload : list (string * JsValue)) (saved : EndpointPayload) :
  normalizeEndpointPayload payload = Fulfilled saved ->
  let specific := monitorSpecific saved in
  trimmed (saved_name saved)
  /\ 5 <= saved_interval_seconds saved
  /\ 1 <= saved_down_retries saved
  /\ 1 <= saved_up_retries saved
  /\ 1 <= saved_group_id saved
  /\ match saved_monitor_type saved with
     | http =>
         trimmed (saved_url specific)
         /\ (URL_protocol (saved_url specific) = Some "http:"
             \/ URL_protocol (saved_url specific) = Some "https:")
         /\ saved_method specific ∈ ALLOWED_METHODS
         /\ 100 <= saved_expected_status specific <= 599
         /\ (saved_expected_json_path specific = None
             <-> saved_expected_json_value specific = None)
         /\ (forall path, saved_expected_json_path specific = Some path -> trimmed path)
         /\ (forall text,
               saved_expected_json_value specific = Some text -> trim text <> "")
         /\ saved_connection_json specific = None
         /\ saved_probe_command specific = None
         /\ saved_expected_probe_value specific = None
     | kind =>
         saved_method specific = "GET"
         /\ saved_expected_status specific = 200
         /\ saved_headers_json specific = JSON_stringify (JObj [])
         /\ saved_body_text specific = None
         /\ saved_expected_json_path specific = None
         /\ saved_expected_json_value specific = None
         /\ (exists connection,
               parseJsonObjectInput (get_property payload "connection_json")
                 "connection_json"
               = Fulfilled connection
               /\ saved_connection_json specific = Some (JSON_stringify (JObj connection))
               /\ (truthy (get_property connection "url") = true
                   \/ truthy
                        (nullish_or (get_property connection "host") (JStr "127.0.0.1"))
                      = true
                      /\ Number_isFinite
                           (ToNumber
                              (nullish_or (get_property connection "port")
                                 (num (defaultPort kind)))) = true))
         /\ (forall command,
               saved_probe_command specific = Some command -> trimmed command)
         /\ (forall text,
               saved_expected_probe_value specific = Some text -> trim text <> "")
     end.
Proof.
  unfold normalizeEndpointPayload. intros Hsaved. cbv zeta.
  apply Settled_bind_Fulfilled in Hsaved as (u & Hname & Hsaved).
  apply throw_if_Fulfilled in Hname.
  apply Settled_bind_Fulfilled in Hsaved as (monitorType & _ & Hsaved).
  apply Settled_bind_Fulfilled in Hsaved as (interval & Hinterval & Hsaved).
  apply integer_at_least_bound in Hinterval.
  apply Settled_bind_Fulfilled in Hsaved as (downCount & HdownCount & Hsaved).
  apply integer_at_least_bound in HdownCount.
  apply Settled_bind_Fulfilled in Hsaved as (upCount & HupCount & Hsaved).
  apply integer_at_least_bound in HupCount.
  apply Settled_bind_Fulfilled in Hsaved as (group & Hgroup & Hsaved).
  apply integer_at_least_bound in Hgroup.
  apply Settled_bind_Fulfilled in Hsaved as (specific & Hspecific & Hsaved).
  injection Hsaved as <-.
  cbn [saved_name saved_interval_seconds saved_down_retries saved_up_retries
         saved_group_id saved_monitor_type monitorSpecific].
  split; [apply trimmed_trim; intros Hempty; rewrite Hempty in Hname; discriminate |].
  repeat (split; [assumption |]).
  destruct monitorType;
    first [exact (normalizeHttpPayload_checked payload specific Hspecific)
          | exact (normalizeConnectionMonitorPayload_fixed payload _ specific Hspecific)].
Qed.

(** X27.  What is said of the URL of an HTTP monitor.  With headers that
    can be read, a payload without a URL (or with a blank one) is refused
    with [URL is required for HTTP monitors], and a URL that cannot be
    parsed, or whose scheme is neither [http:] nor [https:], is refused
    with [URL must be a valid absolute URL]: the error raised for the
    scheme is caught and replaced by this one. *)
Theorem normalizeHttpPayload_url_errors
    (payload : list (string * JsValue)) (headers : list (string * JsValue)) :
  parseJsonObjectInput (get_property payload "headers_json") "Headers" = Fulfilled headers ->
  let url := trim (ToString (nullish_or (get_property payload "url") (JStr ""))) in
  (url = "" ->
   normalizeHttpPayload payload = Rejected (ErrorObject "URL is required for HTTP monitors"))
  /\ (url <> "" ->
      URL_protocol url <> Some "http:" ->
      URL_protocol url <> Some "https:" ->
      normalizeHttpPayload payload = Rejected (ErrorObject "URL must be a valid absolute URL")).
Proof.
  intros Hheaders. cbv zeta. unfold normalizeHttpPayload. rewrite Hheaders.
  cbn [mbind Settled_bind]. split.
  - intros ->. reflexivity.
  - intros Hurl Hhttp Hhttps.
    destruct (String.eqb_spec
                (trim (ToString (nullish_or (get_property payload "url") (JStr "")))) "")
      as [| _]; [contradiction |].
    cbn [throw_if mbind Settled_bind].
    destruct (URL_protocol _) as [protocol |]; [| reflexivity].
    cbn [mbind Settled_bind includes existsb].
    destruct (String.eqb_spec protocol "http:") as [-> | _]; [contradiction |].
    destruct (String.eqb_spec protocol "https:") as [-> | _]; [contradiction |].
    reflexivity.
Qed.

End SavedPayloads.

Lemma normalizeEndpointPayload_saves_checked_values_witness :
  exists saved,
    normalizeEndpointPayload (H := Reference.platform) (H0 := Samples.web_platform)
      Samples.http_payload
    = Fulfilled saved
    /\ saved_name saved = "api"
    /\ 5 <= saved_interval_seconds saved.
Proof.
  destruct (normalizeEndpointPayload (H := Reference.platform) (H0 := Samples.web_platform)
              Samples.http_payload) as [saved | error] eqn:Hsaved.
  - exists saved. split; [reflexivity |].
    split; [vm_compute in Hsaved; injection Hsaved as <-; reflexivity |].
    exact (proj1 (proj2 (normalizeEndpointPayload_saves_checked_values
                           (H := Reference.platform) (H0 := Samples.web_platform)
                           Samples.http_payload saved Hsaved))).
  - vm_compute in Hsaved. discriminate.
Defined.

Lemma normalizeHttpPayload_url_errors_witness :
  normalizeHttpPayload (H := Reference.platform) (H0 := Samples.web_platform)
    Samples.ftp_payload
  = Rejected (ErrorObject "URL must be a valid absolute URL").
Proof.
  apply (normalizeHttpPayload_url_errors (H := Reference.platform)
           (H0 := Samples.web_platform) Samples.ftp_payload [] eq_refl);
    vm_compute; discriminate.
Defined.

(** ** The migrations *)

Lemma create_table_rows (name : string) (db : Schema) :
  schema_migrations (create_table_if_not_exists name db) = schema_migrations db.
Proof.
  unfold create_table_if_not_exists. destruct (bool_decide _); reflexivity.
Qed.

Lemma create_table_tables (name : string) (db : Schema) :
  name ∈ tables (create_table_if_not_exists name db)
  /\ exists created, tables (create_table_if_not_exists name db) = (tables db ++ created)%list.
Proof.
  unfold create_table_if_not_exists. destruct (bool_decide_reflect (name ∈ tables db)).
  - split; [assumption | exists []; symmetry; apply app_nil_r].
  - cbn [tables]. split; [apply elem_of_app; right; apply list_elem_of_here | eauto].
Qed.

Lemma create_table_present (name : string) (db : Schema) :
  name ∈ tables db -> create_table_if_not_exists name db = db.
Proof.
  intros Hname. unfold create_table_if_not_exists.
  rewrite bool_decide_eq_true_2 by exact Hname. reflexivity.
Qed.

Lemma apply_migration_tables (applied : list Z) (db : Schema) (migration : Migration) :
  exists created,
    tables (apply_migration applied db migration) = (tables db ++ created)%list.
Proof.
  unfold apply_migration. destruct (bool_decide _).
  - exists []. symmetry. apply app_nil_r.
  - cbn [tables]. apply create_table_tables.
Qed.

Lemma migrations_rows (applied : list Z) (migrations : list Migration) (db : Schema) :
  schema_migrations (fold_left (apply_migration applied) migrations db)
  = (schema_migrations db
     ++ (migration_row
           <$> filter (fun migration => version migration ∉ applied) migrations))%list.
Proof.
  revert db. induction migrations as [| migration migrations IH]; intros db;
    cbn [fold_left].
  - symmetry. apply app_nil_r.
  - rewrite IH, filter_cons. unfold apply_migration.
    destruct (bool_decide_reflect (version migration ∈ applied)) as [Hin | Hout].
    + destruct (decide (version migration ∉ applied)); [contradiction | reflexivity].
    + destruct (decide (version migration ∉ applied)); [| contradiction].
      cbn [schema_migrations]. rewrite create_table_rows, fmap_cons, <- app_assoc.
      reflexivity.
Qed.

Lemma migrations_tables (applied : list Z) (migrations : list Migration) (db : Schema) :
  (exists created,
      tables (fold_left (apply_migration applied) migrations db)
      = (tables db ++ created)%list)
  /\ forall migration,
       migration ∈ migrations ->
       version migration ∉ applied ->
       creates migration ∈ tables (fold_left (apply_migration applied) migrations db).
Proof.
  revert db. induction migrations as [| migration migrations IH]; intros db;
    cbn [fold_left].
  - split; [exists []; symmetry; apply app_nil_r |].
    intros migration Hin. apply elem_of_nil in Hin. contradiction.
  - destruct (IH (apply_migration applied db migration)) as [(created & Hcreated) Hmade].
    destruct (apply_migration_tables applied db migration) as (first & Hfirst).
    split.
    + exists (first ++ created)%list. rewrite Hcreated, Hfirst, app_assoc. reflexivity.
    + intros other Hother Hnew. apply elem_of_cons in Hother as [-> | Hother];
        [| exact (Hmade other Hother Hnew)].
      rewrite Hcreated. apply elem_of_app. left.
      unfold apply_migration. rewrite bool_decide_eq_false_2 by exact Hnew.
      cbn [tables]. apply create_table_tables.
Qed.

Lemma migrations_all_applied (applied : list Z) (migrations : list Migration)
    (db : Schema) :
  (forall migration, migration ∈ migrations -> version migration ∈ applied) ->
  fold_left (apply_migration applied) migrations db = db.
Proof.
  induction migrations as [| migration migrations IH]; intros Hall; [reflexivity |].
  cbn [fold_left]. unfold apply_migration at 2.
  rewrite bool_decide_eq_true_2 by (apply Hall, list_elem_of_here).
  apply IH. intros other Hother. apply Hall, list_elem_of_further, Hother.
Qed.

(** X28.  What [initDatabase] does to a database.  The tables and the
    recorded migrations that exist stay as they are, in front of what is
    added.  A row is added for each migration whose version is not
    recorded, in the order of [MIGRATIONS], and for no other; afterwards
    every migration is recorded, and versions that were distinct are still
    distinct, so the key of [schema_migrations] is respected.  The table
    [schema_migrations] is there afterwards, and the three tables of the
    monitor are there when the recorded migrations had theirs.  Running
    [initDatabase] again changes nothing. *)
Theorem initDatabase_settles_the_schema (db : Schema) :
  let ready := initDatabase db in
  (exists created, tables ready = (tables db ++ created)%list)
  /\ schema_migrations ready
     = (schema_migrations db
        ++ (migration_row
              <$> filter (fun migration => version migration ∉ getAppliedVersions db)
                    MIGRATIONS))%list
  /\ Forall (fun migration => version migration ∈ getAppliedVersions ready) MIGRATIONS
  /\ (NoDup (getAppliedVersions db) -> NoDup (getAppliedVersions ready))
  /\ "schema_migrations" ∈ tables ready
  /\ ((forall migration,
         migration ∈ MIGRATIONS ->
         version migration ∈ getAppliedVersions db ->
         creates migration ∈ tables db) ->
      Forall (fun migration => creates migration ∈ tables ready) MIGRATIONS)
  /\ initDatabase ready = ready.
Proof.
  cbv zeta. unfold initDatabase, ensureSchemaMigrationsTable.
  set (ensured := create_table_if_not_exists "schema_migrations" db).
  assert (Happlied : getAppliedVersions ensured = getAppliedVersions db).
  { unfold getAppliedVersions, ensured. rewrite create_table_rows. reflexivity. }
  rewrite Happlied. set (applied := getAppliedVersions db) in *.
  set (ready := fold_left (apply_migration applied) MIGRATIONS ensured).
  destruct (create_table_tables "schema_migrations" db) as [Hensured (first & Hfirst)].
  fold ensured in Hensured, Hfirst.
  destruct (migrations_tables applied MIGRATIONS ensured) as [(created & Hcreated) Hmade].
  fold ready in Hcreated, Hmade.
  assert (Hrows : schema_migrations ready
                  = (schema_migrations db
                     ++ (migration_row
                           <$> filter (fun migration => version migration ∉ applied)
                                 MIGRATIONS))%list).
  { unfold ready. rewrite migrations_rows. unfold ensured. rewrite create_table_rows.
    reflexivity. }
  assert (Hversions : getAppliedVersions ready
                      = (applied
                         ++ filter (fun v => v ∉ applied) (version <$> MIGRATIONS))%list).
  { unfold getAppliedVersions at 1. rewrite Hrows, map_app. fold (getAppliedVersions db).
    fold applied. f_equal.
    generalize MIGRATIONS. intros migrations.
    induction migrations as [| migration migrations IH]; [reflexivity |].
    rewrite fmap_cons, !filter_cons.
    destruct (decide (version migration ∉ applied)); cbn [fmap list_fmap map];
      [rewrite <- IH; reflexivity | exact IH]. }
  assert (Hrecorded : forall migration,
             migration ∈ MIGRATIONS -> version migration ∈ getAppliedVersions ready).
  { intros migration Hin. rewrite Hversions, elem_of_app.
    destruct (decide (version migration ∈ applied)) as [Hold | Hnew]; [left; exact Hold |].
    right. apply list_elem_of_filter. split; [exact Hnew |].
    apply list_elem_of_fmap. eauto. }
  assert (Htable : "schema_migrations" ∈ tables ready).
  { rewrite Hcreated. apply elem_of_app. left. exact Hensured. }
  split; [exists (first ++ created)%list; rewrite Hcreated, Hfirst, app_assoc; reflexivity |].
  split; [exact Hrows |].
  split; [apply Forall_forall; exact Hrecorded |].
  split.
  { intros Hdistinct. rewrite Hversions. apply NoDup_app. split; [exact Hdistinct |].
    split.
    - intros v Hold Hnew. apply list_elem_of_filter in Hnew as [Hnew _]. contradiction.
    - apply NoDup_filter. cbn.
      repeat (apply NoDup_cons; split;
              [intros Hin;
               repeat (apply elem_of_cons in Hin as [Hin | Hin]; [discriminate |]);
               apply elem_of_nil in Hin; exact Hin |]).
      apply NoDup_nil_2. }
  split; [exact Htable |].
  split.
  { intros Hconsistent. apply Forall_forall. intros migration Hin.
    destruct (decide (version migration ∈ applied)) as [Hold | Hnew].
    - rewrite Hcreated, Hfirst. apply elem_of_app. left. apply elem_of_app. left.
      exact (Hconsistent migration Hin Hold).
    - exact (Hmade migration Hin Hnew). }
  rewrite (create_table_present "schema_migrations" ready Htable).
  apply migrations_all_applied. exact Hrecorded.
Qed.
